(** * Ligolearner909: the batch fetch scripts

    A shallow embedding of the two batch drivers of the repository,

    - [R4/fetchdat.py]: the cross-product driver (channels x time ranges)
      that fetches a series per pair, writes it under a directory derived
      from the pair and appends a record to the manifest [fin.txt];
    - [osdf_demo.py]: the discovery-based variant that asks a file-discovery
      service for URLs per time-range row and downloads each of them.

    The scripts are straight-line Python with side effects on the file
    system, on standard output and on remote services.  They are embedded
    as computations in a state-and-exception monad over an explicit world:
    the set of directories, the map of written files, the manifest text
    (what is in the file, and what is still pending in the open file
    object), and the ordered trace of the side effects performed.  The
    remote services and the library objects are an interface (a type
    class) whose members are the calls the scripts make. *)

From Stdlib Require Import Ascii String.
From stdpp Require Import gmap strings pretty list.

(** ** Python values and library functions used by the scripts *)

Module Py.

(** Line feed, the ["\n"] of the Python source. *)
Definition LF : string := String (Ascii.ascii_of_nat 10) EmptyString.

(** [str.replace(old, new)] for a one-character [old] and [new], which is
    how both call sites use it ([replace(":", "_")]).  Strings are byte
    strings here; the bytes of a multi-byte UTF-8 character are never
    ASCII, so replacing the byte [":"] is replacing the character. *)
Fixpoint replace (old new : ascii) (s : string) : string :=
  match s with
  | EmptyString => EmptyString
  | String c s' =>
      String (if Ascii.eqb c old then new else c) (replace old new s')
  end.

(** [str(n)] / [f"{n}"] for a Python [int]. *)
Definition str_int (n : Z) : string := pretty n.

(** [c in s] for a character. *)
Fixpoint contains (c : ascii) (s : string) : bool :=
  match s with
  | EmptyString => false
  | String d s' => Ascii.eqb d c || contains c s'
  end.

(** The characters [str(n)] is made of. *)
Definition int_char (c : ascii) : bool := contains c "-0123456789".

(** [s.startswith("/")] and [s.endswith("/")]. *)
Definition startswith_sep (s : string) : bool :=
  match s with
  | String c _ => Ascii.eqb c "/"
  | EmptyString => false
  end.

Fixpoint endswith_sep (s : string) : bool :=
  match s with
  | EmptyString => false
  | String c EmptyString => Ascii.eqb c "/"
  | String _ s' => endswith_sep s'
  end.

(** [os.path.join(a, b)] of [posixpath], two arguments:
    [if b.startswith(sep): path = b
     elif not path or path.endswith(sep): path += b
     else: path += sep + b]. *)
Definition os_path_join (a b : string) : string :=
  if startswith_sep b then b
  else if bool_decide (a = "") || endswith_sep a then a +:+ b
  else a +:+ "/" +:+ b.

(** [s.split(sep)] for a one-character separator. *)
Fixpoint split_go (sep : ascii) (cur : string) (s : string) : list string :=
  match s with
  | EmptyString => [cur]
  | String c s' =>
      if Ascii.eqb c sep then cur :: split_go sep "" s'
      else split_go sep (cur +:+ String c "") s'
  end.

Definition split (sep : ascii) (s : string) : list string := split_go sep "" s.

(** The directories [os.makedirs(name)] makes sure exist: every non-empty
    prefix of [name] that ends just before a ["/"], and [name] itself. *)
Fixpoint ancestors_go (pre : string) (s : string) : list string :=
  match s with
  | EmptyString => [pre]
  | String c s' =>
      if Ascii.eqb c "/"
      then (if bool_decide (pre = "") then [] else [pre])
             ++ ancestors_go (pre +:+ "/") s'
      else ancestors_go (pre +:+ String c "") s'
  end.

Definition ancestors (name : string) : list string := ancestors_go "" name.

(** ["".join(parts)]. *)
Fixpoint concat (parts : list string) : string :=
  match parts with
  | [] => ""
  | part :: parts' => part +:+ concat parts'
  end.

(** A raised exception (an instance of [Exception]): its class and its
    message, the text [str(e)] gives. *)
Record exn := Exn { exn_class : string; exn_msg : string }.

(** The outcome of a call: a value, or a raised exception. *)
Inductive res (A : Type) : Type :=
| Ok (a : A)
| Raise (e : exn).
Arguments Ok {A} a.
Arguments Raise {A} e.

Definition is_ok {A} (r : res A) : bool :=
  match r with Ok _ => true | Raise _ => false end.

(** [os.path.dirname(p)] of [posixpath]:
    [i = p.rfind(sep) + 1; head = p[:i]
     if head and head != sep*len(head): head = head.rstrip(sep)]. *)
Fixpoint head_to_sep (p : string) : string :=
  match p with
  | EmptyString => ""
  | String c p' =>
      if contains "/" p' then String c (head_to_sep p')
      else if Ascii.eqb c "/" then "/" else ""
  end.

Fixpoint rstrip_sep (s : string) : string :=
  match s with
  | EmptyString => ""
  | String c s' =>
      match rstrip_sep s' with
      | EmptyString => if Ascii.eqb c "/" then "" else String c ""
      | r => String c r
      end
  end.

Definition dirname (p : string) : string :=
  let head := head_to_sep p in
  if bool_decide (rstrip_sep head = "") then head else rstrip_sep head.

(** The [OSError]s the file system answers with, as Python shows them. *)
Definition FileExistsError (name : string) : exn :=
  Exn "FileExistsError" ("[Errno 17] File exists: '" +:+ name +:+ "'").
Definition NotADirectoryError (name : string) : exn :=
  Exn "NotADirectoryError" ("[Errno 20] Not a directory: '" +:+ name +:+ "'").
Definition FileNotFoundError (name : string) : exn :=
  Exn "FileNotFoundError"
    ("[Errno 2] No such file or directory: '" +:+ name +:+ "'").
Definition IsADirectoryError (name : string) : exn :=
  Exn "IsADirectoryError" ("[Errno 21] Is a directory: '" +:+ name +:+ "'").

(** The file system is seen through the names the scripts use: [dirs]
    are the names that are directories, [regs] the names that are regular
    files.  Names are compared as they are spelled: two spellings of one
    path (["a//b"], ["a/./b"], an absolute name for a file below the
    working directory) are different names here. *)

(** Walking down the [chain] of ancestors of a name (the name itself
    last), the first regular file met stops [os.makedirs]: [mkdir] of the
    name below it raises [NotADirectoryError], and [mkdir] of the name
    itself, when that is the file, [FileExistsError]. *)
Fixpoint blocked_at (chain : list string) (regs : gset string) : option exn :=
  match chain with
  | [] => None
  | name :: rest =>
      if bool_decide (name ∈ regs) then
        Some (match rest with
              | [] => FileExistsError name
              | below :: _ => NotADirectoryError below
              end)
      else blocked_at rest regs
  end.

(** [os.makedirs(name, exist_ok=...)]: the directory and its missing
    ancestors are created.  The empty name raises [FileNotFoundError]; on
    an existing directory the call does nothing when [exist_ok] is set
    and raises [FileExistsError] otherwise; a regular file at the name or
    at one of its ancestors raises ([exist_ok] does not cover it), and
    then nothing has been created. *)
Definition makedirs (name : string) (exist_ok : bool) (dirs regs : gset string)
    : res (gset string) :=
  if bool_decide (name = "") then Raise (FileNotFoundError name)
  else if bool_decide (name ∈ dirs) then
    if exist_ok then Ok dirs else Raise (FileExistsError name)
  else match blocked_at (ancestors name) regs with
       | Some e => Raise e
       | None => Ok (dirs ∪ list_to_set (ancestors name))
       end.

(** The set of directories after [os.makedirs(name, exist_ok=True)] has
    returned. *)
Definition made (name : string) (dirs : gset string) : gset string :=
  if bool_decide (name ∈ dirs) then dirs
  else dirs ∪ list_to_set (ancestors name).

(** Whether the directory a new file is to lie in exists: the working
    directory (the empty [dirname]), the root, or a directory of
    [dirs]. *)
Definition parent_exists (parent : string) (dirs : gset string) : bool :=
  bool_decide (rstrip_sep parent = "") || bool_decide (parent ∈ dirs).

(** What stands in the way of creating, or truncating, the regular file
    [path] (a path as the scripts build them, not ending in ["/"]): the
    path is a directory, it is empty, or the directory it lies in does
    not exist, a regular file being where a directory is needed or
    not. *)
Definition create_error (path : string) (dirs regs : gset string)
    : option exn :=
  if bool_decide (path ∈ dirs) then Some (IsADirectoryError path)
  else if bool_decide (path = "") then Some (FileNotFoundError path)
  else if parent_exists (dirname path) dirs then None
  else if bool_decide (Exists (λ a, a ∈ regs) (ancestors (dirname path)))
    then Some (NotADirectoryError path)
  else Some (FileNotFoundError path).

End Py.

Import Py.

(** ** State and exceptions

    A statement is a function from the world before it to the world after
    it and its outcome.  A raised exception keeps the world as it was when
    it was raised: Python does not roll side effects back. *)

Section Monad.
Context {W : Type}.

Definition M (A : Type) : Type := W → W * res A.

Definition world_after {A} (m : M A) (w : W) : W := fst (m w).
Definition outcome {A} (m : M A) (w : W) : res A := snd (m w).

Definition ret {A} (a : A) : M A := λ w, (w, Ok a).

Definition bind {A B} (m : M A) (k : A → M B) : M B :=
  λ w, match m w with
       | (w', Ok a) => k a w'
       | (w', Raise e) => (w', Raise e)
       end.

Definition raise {A} (e : exn) : M A := λ w, (w, Raise e).

(** A side effect that cannot fail. *)
Definition effect (f : W → W) : M unit := λ w, (f w, Ok tt).

(** [for x in xs: body(x)]: the bodies run in list order; the first one
    that raises ends the loop. *)
Fixpoint for_each {A} (xs : list A) (body : A → M unit) : M unit :=
  match xs with
  | [] => ret tt
  | x :: xs' => bind (body x) (λ _, for_each xs' body)
  end.

(** [try: body  except Exception as e: handler(e)]. *)
Definition try_except {A} (body : M A) (handler : exn → M A) : M A :=
  λ w, match body w with
       | (w', Ok a) => (w', Ok a)
       | (w', Raise e) => handler e w'
       end.

(** [try: body  finally: cleanup], the shape of a [with] block: the
    clean-up runs on both exits and the outcome of the body is kept. *)
Definition finally {A} (body : M A) (cleanup : W → W) : M A :=
  λ w, match body w with
       | (w', r) => (cleanup w', r)
       end.
End Monad.

Arguments M W A : clear implicits.

Declare Scope py_scope.
Delimit Scope py_scope with py.
Notation "x <- m ;; k" := (bind m (λ x, k))
  (at level 100, m at next level, right associativity) : py_scope.
Notation "m ;; k" := (bind m (λ _, k))
  (at level 100, right associativity) : py_scope.

(** ** The cross-product driver, [R4/fetchdat.py] *)

Module FetchDat.

(** A row of [channels.csv] and a row of [time.csv], as the script uses
    them: the columns after [int(...)] has been applied where the script
    applies it. *)
Record Channel := { channel : string; sampling_rate : Z }.
Record TimeRange := { start : Z; end_ : Z }.

(** What the script asks of the libraries it calls and of the platform:
    the remote fetch of [gwpy] with the two attributes read from its
    result, how such an attribute prints inside an f-string, the
    exception [data.write] raises when it cannot create its file (the
    frame writer's own), [os.path.abspath] (which depends on the working
    directory of the process), and the block size [os.fstat] reports for
    the manifest file, from which [open] sizes the buffer of [fin]. *)
Class Collaborators := {
  TimeSeries : Type;
  Quantity : Type;
  TimeSeries_fetch : string → Z → Z → string → res TimeSeries;
  t0 : TimeSeries → Quantity;
  dt : TimeSeries → Quantity;
  format : Quantity → string;
  write_failure : string → exn;
  os_path_abspath : string → string;
  st_blksize : N
}.

(** The side effects of the script, in the order they happen. *)
Inductive event :=
| Makedirs (name : string)
| Fetch (channel_name : string) (start_time end_time : Z) (host : string)
| WriteGwf (path : string)
| FinWrite (text : string)
| Print (text : string).

#[export] Instance event_eq_dec : EqDecision event.
Proof. solve_decision. Defined.

(** The remote fetch calls of a trace, and the texts handed to
    [fin.write], both in order. *)
Definition fetch_calls (t : list event) : list (string * Z * Z * string) :=
  omap (λ e, match e with
             | Fetch channel_name start_time end_time host =>
                 Some (channel_name, start_time, end_time, host)
             | _ => None
             end) t.

Definition fin_writes (t : list event) : list string :=
  omap (λ e, match e with FinWrite text => Some text | _ => None end) t.

(** The paths of the files [data.write] has written, in order. *)
Definition written_paths (t : list event) : list string :=
  omap (λ e, match e with WriteGwf path => Some path | _ => None end) t.

(** The pairs of the two tables in the order of the nested loops: the
    channel is the outer loop, the time range the inner one. *)
Definition cross (channels : list Channel) (time_ranges : list TimeRange)
    : list (Channel * TimeRange) :=
  channel_row ← channels; time_row ← time_ranges; [(channel_row, time_row)].

(** [io.DEFAULT_BUFFER_SIZE], the buffer size [open] falls back on, and
    [TextIOWrapper._CHUNK_SIZE], how much text the text layer of a file
    object lets pile up. *)
Definition DEFAULT_BUFFER_SIZE : N := 8192.
Definition CHUNK_SIZE : N := 8192.

(** [len(s)]. *)
Definition len (s : string) : N := N.of_nat (String.length s).

(** Line 20. *)
Definition fin_file : string := "fin.txt".

Section Driver.
Context `{Collaborators}.

(** The world of the script: the directories, the [gwf] files and what
    they hold, the manifest file and the trace.  [fin_exists] tells
    whether [fin.txt] exists and [fin_txt] is what is in it (nothing
    before it exists).  The file object [fin] holds written text back in
    two layers: [fin_pending] is the text still in the text layer,
    [fin_buffer] the text handed down to the buffered writer below it
    that has not reached the file yet. *)
Record World := {
  dirs : gset string;
  files : gmap string TimeSeries;
  fin_exists : bool;
  fin_txt : string;
  fin_buffer : string;
  fin_pending : string;
  trace : list event
}.

(** The names that are regular files. *)
Definition regs (w : World) : gset string :=
  dom (files w) ∪ (if fin_exists w then {[fin_file]} else ∅).

Definition log (e : event) (w : World) : World :=
  {| dirs := dirs w; files := files w; fin_exists := fin_exists w;
     fin_txt := fin_txt w; fin_buffer := fin_buffer w;
     fin_pending := fin_pending w; trace := trace w ++ [e] |}.

(** [os.makedirs(name, exist_ok=...)]. *)
Definition os_makedirs (name : string) (exist_ok : bool) : M World unit :=
  λ w,
    match makedirs name exist_ok (dirs w) (regs w) with
    | Ok dirs' =>
        ({| dirs := dirs'; files := files w; fin_exists := fin_exists w;
            fin_txt := fin_txt w; fin_buffer := fin_buffer w;
            fin_pending := fin_pending w;
            trace := trace w ++ [Makedirs name] |}, Ok tt)
    | Raise e => (log (Makedirs name) w, Raise e)
    end.

(** [TimeSeries.fetch(channel_name, start=..., end=..., host=...)]. *)
Definition fetch (channel_name : string) (start_time end_time : Z)
    (host : string) : M World TimeSeries :=
  λ w, (log (Fetch channel_name start_time end_time host) w,
        TimeSeries_fetch channel_name start_time end_time host).

(** [data.write(output_file)]: the file is created or overwritten; when
    it cannot be created (its directory does not exist, or the path is a
    directory) the writer raises and nothing is written. *)
Definition write (data : TimeSeries) (output_file : string) : M World unit :=
  λ w,
    match create_error output_file (dirs w) (regs w) with
    | Some _ => (w, Raise (write_failure output_file))
    | None =>
        ({| dirs := dirs w; files := <[output_file := data]> (files w);
            fin_exists := fin_exists w; fin_txt := fin_txt w;
            fin_buffer := fin_buffer w; fin_pending := fin_pending w;
            trace := trace w ++ [WriteGwf output_file] |}, Ok tt)
    end.

Definition print (text : string) : M World unit := effect (log (Print text)).

(** The world once [open(fin_file, 'a')] has returned: the file exists
    (mode ['a'] creates it, empty, and keeps what an existing file
    holds), and the new file object holds nothing back. *)
Definition fin_open (w : World) : World :=
  {| dirs := dirs w; files := files w; fin_exists := true;
     fin_txt := fin_txt w; fin_buffer := ""; fin_pending := "";
     trace := trace w |}.

(** [open(fin_file, 'a')], line 23. *)
Definition open_fin : M World unit :=
  λ w,
    match create_error fin_file (dirs w) (regs w) with
    | Some e => (w, Raise e)
    | None => (fin_open w, Ok tt)
    end.

(** The size of the buffer of [fin], as [open] chooses it:
    [buffering = DEFAULT_BUFFER_SIZE; bs = os.fstat(...).st_blksize;
     if bs > 1: buffering = bs]. *)
Definition buffer_size : N :=
  if (1 <? st_blksize)%N then st_blksize else DEFAULT_BUFFER_SIZE.

(** [BufferedWriter.write(b)]: bytes that fit into the buffer are kept
    there.  Otherwise the buffer is written out to the file first; then
    bytes that are more than a buffer are written to the file directly,
    and fewer are kept in the emptied buffer. *)
Definition buffer_write (b : string) (w : World) : World :=
  if (len (fin_buffer w) + len b <=? buffer_size)%N then
    {| dirs := dirs w; files := files w; fin_exists := fin_exists w;
       fin_txt := fin_txt w; fin_buffer := fin_buffer w +:+ b;
       fin_pending := fin_pending w; trace := trace w |}
  else if (buffer_size <? len b)%N then
    {| dirs := dirs w; files := files w; fin_exists := fin_exists w;
       fin_txt := fin_txt w +:+ fin_buffer w +:+ b; fin_buffer := "";
       fin_pending := fin_pending w; trace := trace w |}
  else
    {| dirs := dirs w; files := files w; fin_exists := fin_exists w;
       fin_txt := fin_txt w +:+ fin_buffer w; fin_buffer := b;
       fin_pending := fin_pending w; trace := trace w |}.

Definition set_pending (text : string) (w : World) : World :=
  {| dirs := dirs w; files := files w; fin_exists := fin_exists w;
     fin_txt := fin_txt w; fin_buffer := fin_buffer w;
     fin_pending := text; trace := trace w |}.

(** The text layer hands its pending text down to the buffered
    writer. *)
Definition text_flush (w : World) : World :=
  buffer_write (fin_pending w) (set_pending "" w).

(** [fin.write(text)] of a [TextIOWrapper] that is not line-buffered:
    text that would make the pending text longer than a chunk first
    sends the pending text down and takes its place, other text joins
    it; then pending text that has reached the size of a chunk is sent
    down. *)
Definition fin_write (text : string) : M World unit :=
  effect (λ w,
    let w := log (FinWrite text) w in
    let w := if (CHUNK_SIZE <? len (fin_pending w) + len text)%N
             then set_pending text (text_flush w)
             else set_pending (fin_pending w +:+ text) w in
    if (CHUNK_SIZE <=? len (fin_pending w))%N then text_flush w else w).

(** Leaving the [with] block closes [fin]: both layers are flushed. *)
Definition fin_close (w : World) : World :=
  let w := text_flush w in
  {| dirs := dirs w; files := files w; fin_exists := fin_exists w;
     fin_txt := fin_txt w +:+ fin_buffer w; fin_buffer := "";
     fin_pending := fin_pending w; trace := trace w |}.

(** Line 31 and line 47: [channel_name.replace(":", "_")]. *)
Definition sanitize (channel_name : string) : string :=
  replace ":"%char "_"%char channel_name.

(** Line 42. *)
Definition time_dir_path (channel_dir : string) (time_row : TimeRange) : string :=
  os_path_join channel_dir
    (str_int (start time_row) +:+ "_" +:+ str_int (end_ time_row)).

(** Lines 46-48. *)
Definition output_file (channel_name channel_dir : string)
    (time_row : TimeRange) : string :=
  os_path_join (time_dir_path channel_dir time_row)
    (sanitize channel_name +:+ "_" +:+ str_int (start time_row) +:+ "_"
       +:+ str_int (end_ time_row) +:+ ".gwf").

(** Line 59, the text handed to [fin.write]. *)
Definition fin_line (output_file : string) (data : TimeSeries) : string :=
  os_path_abspath output_file +:+ " " +:+ format (t0 data) +:+ " "
    +:+ format (dt data) +:+ " 0 0" +:+ LF.

Definition host : string := "nds.gwosc.org".

Open Scope py_scope.

(** Lines 35-60, the body of the inner loop. *)
Definition time_row_body (channel_name channel_dir : string)
    (time_row : TimeRange) : M World unit :=
  let start_time := start time_row in
  let end_time := end_ time_row in
  data <- fetch channel_name start_time end_time host;;
  os_makedirs (time_dir_path channel_dir time_row) true;;
  let output_file := output_file channel_name channel_dir time_row in
  write data output_file;;
  print ("Aux data for channel '" +:+ channel_name +:+ "' from "
           +:+ str_int start_time +:+ " to " +:+ str_int end_time
           +:+ " saved to " +:+ output_file);;
  fin_write (fin_line output_file data);;
  print ("Added to fin.txt: " +:+ os_path_abspath output_file +:+ " "
           +:+ format (t0 data) +:+ " " +:+ format (dt data) +:+ " 0 0").

(** Lines 27-60, the body of the outer loop. *)
Definition channel_row_body (time_ranges : list TimeRange)
    (channel_row : Channel) : M World unit :=
  let channel_name := channel channel_row in
  let sampling_rate := sampling_rate channel_row in
  let channel_dir := sanitize channel_name in
  os_makedirs channel_dir true;;
  for_each time_ranges (time_row_body channel_name channel_dir).

(** Lines 23-60: the [with] block around the two loops; when [open]
    raises the block is not entered.  (The prints of the two loaded
    tables before it, lines 14-17, are left out: their text is the table
    rendering of [pandas].) *)
Definition main (channels : list Channel) (time_ranges : list TimeRange)
    : M World unit :=
  open_fin;;
  finally (for_each channels (channel_row_body time_ranges)) fin_close.

Close Scope py_scope.

(** The manifest as the script has written it so far: what is in the
    file, followed by what the two layers of [fin] still hold. *)
Definition manifest (w : World) : string :=
  fin_txt w +:+ fin_buffer w +:+ fin_pending w.

(** The side effects of one pass through the inner loop body in which
    the fetch returns [data]. *)
Definition pair_events (channel_name channel_dir : string)
    (time_row : TimeRange) (data : TimeSeries) : list event :=
  let output_file := output_file channel_name channel_dir time_row in
  [ Fetch channel_name (start time_row) (end_ time_row) host;
    Makedirs (time_dir_path channel_dir time_row);
    WriteGwf output_file;
    Print ("Aux data for channel '" +:+ channel_name +:+ "' from "
             +:+ str_int (start time_row) +:+ " to "
             +:+ str_int (end_ time_row) +:+ " saved to " +:+ output_file);
    FinWrite (fin_line output_file data);
    Print ("Added to fin.txt: " +:+ os_path_abspath output_file +:+ " "
             +:+ format (t0 data) +:+ " " +:+ format (dt data) +:+ " 0 0") ].

(** The manifest line of a pair whose fetch returned [data]. *)
Definition pair_line (data : Channel → TimeRange → TimeSeries)
    (p : Channel * TimeRange) : string :=
  fin_line (output_file (channel p.1) (sanitize (channel p.1)) p.2)
    (data p.1 p.2).

(** The fetch call of a pair. *)
Definition pair_call (p : Channel * TimeRange) : string * Z * Z * string :=
  (channel p.1, start p.2, end_ p.2, host).

(** The output file of a pair whose fetch returned [data]: its path
    and what it holds. *)
Definition pair_out (data : Channel → TimeRange → TimeSeries)
    (p : Channel * TimeRange) : string * TimeSeries :=
  (output_file (channel p.1) (sanitize (channel p.1)) p.2, data p.1 p.2).

(** The files after some files have been written, in order. *)
Definition write_all (outs : list (string * TimeSeries))
    (m : gmap string TimeSeries) : gmap string TimeSeries :=
  foldl (λ m o, <[o.1 := o.2]> m) m outs.

(** The directories after [os.makedirs(..., exist_ok=True)] on some
    names, in order. *)
Definition make_all (names : list string) (d : gset string) : gset string :=
  foldl (λ d n, made n d) d names.

(** The directories a run asks [os.makedirs] for, and the side effects
    of a run in which every fetch returns, both in order. *)
Definition dir_names (channels : list Channel) (time_ranges : list TimeRange)
    : list string :=
  channel_row ← channels;
  sanitize (channel channel_row)
    :: (time_dir_path (sanitize (channel channel_row)) <$> time_ranges).

Definition channel_events (data : Channel → TimeRange → TimeSeries)
    (time_ranges : list TimeRange) (channel_row : Channel) : list event :=
  Makedirs (sanitize (channel channel_row))
    :: (time_row ← time_ranges;
        pair_events (channel channel_row) (sanitize (channel channel_row))
          time_row (data channel_row time_row)).

Definition run_events (data : Channel → TimeRange → TimeSeries)
    (channels : list Channel) (time_ranges : list TimeRange) : list event :=
  channel_row ← channels; channel_events data time_ranges channel_row.

(** How [w'] differs from [w] after a stretch of the run in which
    nothing raised: the directories asked for, the files written, the
    text handed to [fin.write] and the side effects, each in order. *)
Definition grown (w w' : World) (names : list string)
    (outs : list (string * TimeSeries)) (text : string) (t : list event)
    : Prop :=
  dirs w' = make_all names (dirs w)
  ∧ files w' = write_all outs (files w)
  ∧ fin_exists w' = fin_exists w
  ∧ manifest w' = manifest w +:+ text
  ∧ trace w' = trace w ++ t.

(** From [w] to [w'] the trace has only grown, and the manifest has
    grown by the texts handed to [fin.write] meanwhile, in order. *)
Definition recorded (w w' : World) : Prop :=
  ∃ t, trace w' = trace w ++ t
       ∧ manifest w' = manifest w +:+ concat (fin_writes t).

(** From [w] to [w'] nothing has been undone: the directories, the
    files, the manifest file and the trace are still there, and no name
    that was a regular file has become a directory. *)
Definition kept (w w' : World) : Prop :=
  dirs w ⊆ dirs w'
  ∧ dom (files w) ⊆ dom (files w')
  ∧ (fin_exists w = true → fin_exists w' = true)
  ∧ trace w `prefix_of` trace w'
  ∧ ∀ p, p ∈ regs w → p ∉ dirs w → p ∉ dirs w'.

End Driver.

End FetchDat.

(** ** The discovery-based variant, [osdf_demo.py] *)

Module OsdfDemo.

(** A row of [tim.csv] after [int(row["start"])] and [int(row["end"])]. *)
Record Row := { start : Z; end_ : Z }.

(** The two remote services: [gwdatafind.find_urls] and
    [requests_pelican.get(url).content]. *)
Class Collaborators := {
  Content : Type;
  find_urls : string → string → Z → Z → string → string → res (list string);
  rp_get_content : string → res Content
}.

Inductive event :=
| FindUrls (start end_ : Z)
| Makedirs (name : string)
| Get (url : string)
| WriteFile (path : string)
| Sleep (seconds : Z)
| Print (text : string).

#[export] Instance event_eq_dec : EqDecision event.
Proof. solve_decision. Defined.

(** The URLs a trace asks [rp.get] for, in order. *)
Definition gets (t : list event) : list string :=
  omap (λ e, match e with Get url => Some url | _ => None end) t.

(** Lines 8-12. *)
Definition ifo : string := "H".
Definition channel_name : string := "H1_GWOSC_O3a_4KHZ_R1".
Definition host : string := "https://datafind.gw-openscience.org".
Definition timeout_duration : Z := 2.

Section Script.
Context `{Collaborators}.

Record World := {
  dirs : gset string;
  files : gmap string Content;
  trace : list event
}.

(** The names that are regular files.  (The table [tim.csv] is one as
    well; no path the script builds can name it.) *)
Definition regs (w : World) : gset string := dom (files w).

Definition log (e : event) (w : World) : World :=
  {| dirs := dirs w; files := files w; trace := trace w ++ [e] |}.

Definition print (text : string) : M World unit := effect (log (Print text)).

Definition time_sleep (seconds : Z) : M World unit :=
  effect (log (Sleep seconds)).

(** [find_urls(ifo, channel_name, start, end, urltype='osdf', host=host)]. *)
Definition call_find_urls (start end_ : Z) : M World (list string) :=
  λ w, (log (FindUrls start end_) w,
        find_urls ifo channel_name start end_ "osdf" host).

(** [os.makedirs(name, exist_ok=...)]. *)
Definition os_makedirs (name : string) (exist_ok : bool) : M World unit :=
  λ w,
    match makedirs name exist_ok (dirs w) (regs w) with
    | Ok dirs' =>
        ({| dirs := dirs'; files := files w;
            trace := trace w ++ [Makedirs name] |}, Ok tt)
    | Raise e => (log (Makedirs name) w, Raise e)
    end.

(** [rp.get(url).content]. *)
Definition rp_get (url : string) : M World Content :=
  λ w, (log (Get url) w, rp_get_content url).

(** [with open(filepath, "wb") as f: f.write(content)]: when the file
    cannot be created [open] raises (a path that is a directory raises
    [IsADirectoryError]); otherwise the file is created or truncated and
    holds [content] when the block is left. *)
Definition save (filepath : string) (content : Content) : M World unit :=
  λ w,
    match create_error filepath (dirs w) (regs w) with
    | Some e => (w, Raise e)
    | None =>
        ({| dirs := dirs w; files := <[filepath := content]> (files w);
            trace := trace w ++ [WriteFile filepath] |}, Ok tt)
    end.

(** Line 29, line 39 and line 40. *)
Definition base_dir (row : Row) : string :=
  channel_name +:+ "/" +:+ str_int (start row) +:+ "_" +:+ str_int (end_ row).

Definition filename (row : Row) : string :=
  channel_name +:+ "_" +:+ str_int (start row) +:+ "_"
    +:+ str_int (end_ row) +:+ ".gwf".

Definition filepath (row : Row) : string :=
  os_path_join (base_dir row) (filename row).

Open Scope py_scope.

(** Lines 33-53, the body of the loop over the URLs of a row. *)
Definition url_body (row : Row) (url : string) : M World unit :=
  print ("Downloading: " +:+ url);;
  try_except
    (content <- rp_get url;;
     save (filepath row) content;;
     print ("Saved: " +:+ filepath row);;
     print ("Waiting for " +:+ str_int timeout_duration
              +:+ " seconds before the next download...");;
     time_sleep timeout_duration)
    (λ e, print ("Failed to download " +:+ url +:+ ": " +:+ exn_msg e)).

(** Lines 18-53, the body of the loop over the rows. *)
Definition row_body (row : Row) : M World unit :=
  urls <- call_find_urls (start row) (end_ row);;
  match urls with
  | [] =>
      print ("No files found for " +:+ str_int (start row) +:+ " to "
               +:+ str_int (end_ row))
  | _ :: _ =>
      os_makedirs (base_dir row) true;;
      for_each urls (url_body row)
  end.

(** Lines 15-53, the loop over the rows of the table.  (Opening and
    parsing [tim.csv] is left to [csv.DictReader]: the rows come in as
    they are after [int(...)].) *)
Definition main (rows : list Row) : M World unit := for_each rows row_body.

Close Scope py_scope.

(** The URLs the discovery service has for a row; none when it raises. *)
Definition urls_of (row : Row) : list string :=
  match find_urls ifo channel_name (start row) (end_ row) "osdf" host with
  | Ok urls => urls
  | Raise _ => []
  end.
End Script.

End OsdfDemo.

(** ** Concrete collaborators

    Stand-ins for the remote services, used to run the scripts on concrete
    inputs. *)

Module Sample.

(** A fetched series: its two attributes, already as they print. *)
Record series := { series_t0 : string; series_dt : string }.

(** A fetch service that has every series but the one of ["H1:MISSING"]
    that starts at 10. *)
#[export] Instance fetchdat_collab : FetchDat.Collaborators := {|
  FetchDat.TimeSeries := series;
  FetchDat.Quantity := string;
  FetchDat.TimeSeries_fetch := λ channel_name start_time _ _,
    if bool_decide (channel_name = "H1:MISSING") && (start_time =? 10)%Z
    then Raise (Exn "RuntimeError" "no data")
    else Ok {| series_t0 := str_int start_time; series_dt := "0.0625" |};
  FetchDat.t0 := series_t0;
  FetchDat.dt := series_dt;
  FetchDat.format := λ q, q;
  FetchDat.write_failure := λ p, Exn "RuntimeError" ("cannot write " +:+ p);
  FetchDat.os_path_abspath := λ p, "/data/" +:+ p;
  FetchDat.st_blksize := 4096
|}.

Definition sample_data (c : FetchDat.Channel) (r : FetchDat.TimeRange)
    : FetchDat.TimeSeries :=
  {| series_t0 := str_int (FetchDat.start r); series_dt := "0.0625" |}.

Definition empty_world : FetchDat.World :=
  {| FetchDat.dirs := ∅; FetchDat.files := ∅; FetchDat.fin_exists := false;
     FetchDat.fin_txt := ""; FetchDat.fin_buffer := "";
     FetchDat.fin_pending := ""; FetchDat.trace := [] |}.

Definition chan_a : FetchDat.Channel :=
  {| FetchDat.channel := "H1:A"; FetchDat.sampling_rate := 16 |}.
Definition chan_b : FetchDat.Channel :=
  {| FetchDat.channel := "L1:B"; FetchDat.sampling_rate := 256 |}.
Definition chan_missing : FetchDat.Channel :=
  {| FetchDat.channel := "H1:MISSING"; FetchDat.sampling_rate := 16 |}.

Definition range_1 : FetchDat.TimeRange :=
  {| FetchDat.start := 1238166018; FetchDat.end_ := 1238170549 |}.
Definition range_2 : FetchDat.TimeRange :=
  {| FetchDat.start := 10; FetchDat.end_ := 20 |}.
Definition range_3 : FetchDat.TimeRange :=
  {| FetchDat.start := 20; FetchDat.end_ := 30 |}.

(** A discovery service with two files for the segment starting at 10 and
    none elsewhere; the download of ["osdf:///bad"] fails. *)
#[export] Instance osdf_collab : OsdfDemo.Collaborators := {|
  OsdfDemo.Content := string;
  OsdfDemo.find_urls := λ _ _ start _ _ _,
    if bool_decide (start = 10%Z)
    then Ok ["osdf:///one"; "osdf:///bad"; "osdf:///two"]
    else Ok [];
  OsdfDemo.rp_get_content := λ url,
    if bool_decide (url = "osdf:///bad")
    then Raise (Exn "ConnectionError" "refused")
    else Ok ("bytes of " +:+ url)
|}.

Definition osdf_empty_world : OsdfDemo.World :=
  {| OsdfDemo.dirs := ∅; OsdfDemo.files := ∅; OsdfDemo.trace := [] |}.

Definition row_10 : OsdfDemo.Row := {| OsdfDemo.start := 10; OsdfDemo.end_ := 20 |}.
Definition row_30 : OsdfDemo.Row := {| OsdfDemo.start := 30; OsdfDemo.end_ := 40 |}.

End Sample.

(** ** Reading the trace of [osdf_demo.py] *)

Module OsdfDemoTrace.
Import OsdfDemo.

(** The segments the discovery service is asked about, the paths files
    are saved to and the pauses taken, each in order. *)
Definition find_calls (t : list event) : list (Z * Z) :=
  omap (λ e, match e with FindUrls s e => Some (s, e) | _ => None end) t.

Definition saves (t : list event) : list string :=
  omap (λ e, match e with WriteFile path => Some path | _ => None end) t.

Definition sleeps (t : list event) : list Z :=
  omap (λ e, match e with Sleep seconds => Some seconds | _ => None end) t.

End OsdfDemoTrace.

(** ** The tutorial script, [tuto_1_1_discovering_open_data.py]

    What is left of the script once the commented-out exploration is set
    aside, lines 57-77: the confident events of a catalog within a run are
    listed, their GPS times are collected into a list, and ten seconds of
    open data around the sixth of them are fetched and plotted. *)

Module Tuto.

(** The calls into [gwosc] and [gwpy]: [run_segment], [find_datasets],
    [event_gps] (a float), [int] of such a float, and
    [TimeSeries.fetch_open_data]. *)
Class Collaborators := {
  Gps : Type;
  Series : Type;
  run_segment : string → res (Z * Z);
  find_datasets : string → string → Z * Z → res (list string);
  event_gps : string → res Gps;
  int_gps : Gps → Z;
  fetch_open_data : string → Z → Z → res Series
}.

Inductive event :=
| RunSegment (run : string)
| FindDatasets (type catalog : string) (segment : Z * Z)
| EventGps (name : string)
| Print (text : string)
| FetchOpenData (ifo : string) (start end_ : Z)
| PrintData
| Plot
| Show.

#[export] Instance event_eq_dec : EqDecision event.
Proof. solve_decision. Defined.

(** The calls of [fetch_open_data] and of [event_gps] in a trace. *)
Definition open_data_calls (t : list event) : list (string * Z * Z) :=
  omap (λ e, match e with
             | FetchOpenData ifo s e => Some (ifo, s, e)
             | _ => None
             end) t.

Definition gps_calls (t : list event) : list string :=
  omap (λ e, match e with EventGps name => Some name | _ => None end) t.

Section Script.
Context `{Collaborators}.

(** An element of [gpslist]: the [0] it is created with, or a GPS time. *)
Inductive value :=
| PyInt (n : Z)
| PyFloat (g : Gps).

(** [int(x)]. *)
Definition int (x : value) : Z :=
  match x with
  | PyInt n => n
  | PyFloat g => int_gps g
  end.

Record World := { trace : list event }.

Definition log (e : event) (w : World) : World :=
  {| trace := trace w ++ [e] |}.

Definition call_run_segment (run : string) : M World (Z * Z) :=
  λ w, (log (RunSegment run) w, run_segment run).

Definition call_find_datasets (type catalog : string) (segment : Z * Z)
    : M World (list string) :=
  λ w, (log (FindDatasets type catalog segment) w,
        find_datasets type catalog segment).

Definition call_event_gps (name : string) : M World Gps :=
  λ w, (log (EventGps name) w, event_gps name).

Definition call_fetch_open_data (ifo : string) (start end_ : Z)
    : M World Series :=
  λ w, (log (FetchOpenData ifo start end_) w, fetch_open_data ifo start end_).

Definition print (text : string) : M World unit := effect (log (Print text)).

(** [l[i] = x] and [l[i]] for a non-negative index: out of range both
    raise [IndexError]. *)
Definition setitem (l : list value) (i : nat) (x : value)
    : M World (list value) :=
  if decide (i < length l) then ret (<[i := x]> l)
  else raise (Exn "IndexError" "list assignment index out of range").

Definition getitem (l : list value) (i : nat) : M World value :=
  match l !! i with
  | Some x => ret x
  | None => raise (Exn "IndexError" "list index out of range")
  end.

(** [for x in xs: body], the body updating local variables: they are
    threaded through the passes as [acc]. *)
Fixpoint for_each_with {A S} (xs : list A) (body : S → A → M World S)
    (acc : S) : M World S :=
  match xs with
  | [] => ret acc
  | x :: xs' => bind (body acc x) (λ acc', for_each_with xs' body acc')
  end.

Open Scope py_scope.

(** Lines 64-66, the body of the loop, on the locals [gpslist] and [ct]. *)
Definition fill_body (locals : list value * nat) (i : string)
    : M World (list value * nat) :=
  let gpslist := locals.1 in
  let ct := locals.2 in
  gps <- call_event_gps i;;
  gpslist <- setitem gpslist ct (PyFloat gps);;
  let ct := ct + 1 in
  ret (gpslist, ct).

(** Lines 61-66. *)
Definition fill (O3conf_events : list string) : M World (list value * nat) :=
  let gpslist := replicate (length O3conf_events) (PyInt 0) in
  let ct := 0 in
  for_each_with O3conf_events fill_body (gpslist, ct).

(** [str] of a pair of integers, as [print(segment)] shows it. *)
Definition str_pair (p : Z * Z) : string :=
  "(" +:+ str_int p.1 +:+ ", " +:+ str_int p.2 +:+ ")".

(** Lines 57-77.  ([gpslist[5]] is written twice on line 72; it is read
    once here, reading it having no effect.  Printing the series and
    plotting it are taken not to raise; [verbose=True] only makes the
    library print its progress.) *)
Definition main : M World unit :=
  run <- call_run_segment "O3a_16KHZ_R1";;
  O3conf_events <- call_find_datasets "events" "GWTC-2.1-confident" run;;
  locals <- fill O3conf_events;;
  let gpslist := locals.1 in
  let ct := 0 in
  x <- getitem gpslist 5;;
  let segment := (int x - 5, int x + 5)%Z in
  print (str_pair segment);;
  hdata <- call_fetch_open_data "H1" segment.1 segment.2;;
  effect (log PrintData);;
  effect (log Plot);;
  effect (log Show).

Close Scope py_scope.
End Script.

End Tuto.

(** ** More concrete collaborators *)

Module MoreSamples.

(** A channel whose identifier is the sanitized form of another one. *)
Definition chan_a_plain : FetchDat.Channel :=
  {| FetchDat.channel := "H1_A"; FetchDat.sampling_rate := 16 |}.

Definition chan_nested : FetchDat.Channel :=
  {| FetchDat.channel := "H1:A/B"; FetchDat.sampling_rate := 16 |}.
Definition chan_fin : FetchDat.Channel :=
  {| FetchDat.channel := "fin.txt"; FetchDat.sampling_rate := 16 |}.




(** A catalog of seven events, the GPS time of each in tenths of a
    second, [int] cutting the tenths off. *)
#[export] Instance tuto_collab : Tuto.Collaborators := {|
  Tuto.Gps := Z;
  Tuto.Series := unit;
  Tuto.run_segment := λ _, Ok (1238166018, 1253977218)%Z;
  Tuto.find_datasets := λ _ _ _,
    Ok ["GW190403"; "GW190408"; "GW190412"; "GW190413"; "GW190421";
        "GW190425"; "GW190426"];
  Tuto.event_gps := λ name,
    if bool_decide (name = "GW190425") then Ok 12402150331%Z
    else Ok 12390000005%Z;
  Tuto.int_gps := λ g, (g `quot` 10)%Z;
  Tuto.fetch_open_data := λ _ _ _, Ok tt
|}.

(** The same with a catalog of three events. *)
Definition tuto_short : Tuto.Collaborators := {|
  Tuto.Gps := Z;
  Tuto.Series := unit;
  Tuto.run_segment := λ _, Ok (1238166018, 1253977218)%Z;
  Tuto.find_datasets := λ _ _ _, Ok ["GW190403"; "GW190408"; "GW190412"];
  Tuto.event_gps := λ _, Ok 12390000005%Z;
  Tuto.int_gps := λ g, (g `quot` 10)%Z;
  Tuto.fetch_open_data := λ _ _ _, Ok tt
|}.

(** A catalog service that does not know the GPS time of one event. *)
Definition tuto_failing : Tuto.Collaborators := {|
  Tuto.Gps := Z;
  Tuto.Series := unit;
  Tuto.run_segment := λ _, Ok (1238166018, 1253977218)%Z;
  Tuto.find_datasets := λ _ _ _, Ok ["GW190403"; "GW190412"; "GW190421"];
  Tuto.event_gps := λ name,
    if bool_decide (name = "GW190412") then Raise (Exn "ValueError" "unknown")
    else Ok 12390000005%Z;
  Tuto.int_gps := λ g, (g `quot` 10)%Z;
  Tuto.fetch_open_data := λ _ _ _, Ok tt
|}.

Definition tuto_empty_world : Tuto.World := {| Tuto.trace := [] |}.

(** A discovery service that fails on the segment starting at 30. *)
Definition osdf_failing : OsdfDemo.Collaborators := {|
  OsdfDemo.Content := string;
  OsdfDemo.find_urls := λ _ _ start _ _ _,
    if bool_decide (start = 30%Z) then Raise (Exn "HTTPError" "503")
    else Ok ["osdf:///one"];
  OsdfDemo.rp_get_content := λ url, Ok ("bytes of " +:+ url)
|}.

Definition row_50 : OsdfDemo.Row := {| OsdfDemo.start := 50; OsdfDemo.end_ := 60 |}.

End MoreSamples.

(** * Facts *)

(** ** Strings and paths *)

Module PyFacts.

Lemma str_app_cons c (s1 s2 : string) : String c s1 +:+ s2 = String c (s1 +:+ s2).
Proof. reflexivity. Qed.

Lemma str_app_nil_l (s : string) : "" +:+ s = s.
Proof. reflexivity. Qed.

Lemma str_app_nil_r (s : string) : s +:+ "" = s.
Proof. induction s as [|c s IH]; [done|]. by rewrite str_app_cons, IH. Qed.

Lemma str_app_assoc (s1 s2 s3 : string) : (s1 +:+ s2) +:+ s3 = s1 +:+ s2 +:+ s3.
Proof. induction s1 as [|c s1 IH]; [done|]. by rewrite !str_app_cons, IH. Qed.

Lemma str_length_app (s1 s2 : string) :
  String.length (s1 +:+ s2) = String.length s1 + String.length s2.
Proof. induction s1 as [|c s1 IH]; [done|]. rewrite str_app_cons. simpl. by rewrite IH. Qed.

Lemma str_app_eq_nil (s1 s2 : string) : s1 +:+ s2 = "" → s1 = "" ∧ s2 = "".
Proof. destruct s1; [done|]. by rewrite str_app_cons. Qed.

Lemma concat_app (l1 l2 : list string) :
  concat (l1 ++ l2) = concat l1 +:+ concat l2.
Proof. induction l1 as [|s l1 IH]; [done|]. simpl. by rewrite IH, str_app_assoc. Qed.

(** *** [replace] *)



Lemma replace_contains old new s :
  old ≠ new → contains old (replace old new s) = false.
Proof.
  intros Hne. induction s as [|c s IH]; simpl; [done|].
  rewrite IH, orb_false_r.
  destruct (Ascii.eqb_spec c old) as [->|Hc]; apply Ascii.eqb_neq; congruence.
Qed.

Lemma replace_app old new s1 s2 :
  replace old new (s1 +:+ s2) = replace old new s1 +:+ replace old new s2.
Proof.
  induction s1 as [|c s1 IH]; [done|].
  rewrite str_app_cons. simpl. by rewrite IH, str_app_cons.
Qed.




(** *** Separators at the two ends *)

Lemma startswith_sep_app s1 s2 :
  s1 ≠ "" → startswith_sep (s1 +:+ s2) = startswith_sep s1.
Proof. by destruct s1. Qed.

Lemma endswith_sep_app s1 s2 :
  s2 ≠ "" → endswith_sep (s1 +:+ s2) = endswith_sep s2.
Proof.
  intros Hne. induction s1 as [|c s1 IH]; [done|].
  rewrite str_app_cons. simpl. rewrite IH.
  destruct (s1 +:+ s2) eqn:E; [|done].
  by apply str_app_eq_nil in E as [_ ?].
Qed.

Lemma endswith_sep_contains s : endswith_sep s = true → contains "/" s = true.
Proof.
  induction s as [|c s IH]; simpl; [done|].
  destruct s as [|c' s].
  - intros ->. done.
  - intros Hs. rewrite (IH Hs). apply orb_true_r.
Qed.

Lemma contains_cons c d s :
  contains c (String d s) = Ascii.eqb d c || contains c s.
Proof. reflexivity. Qed.

Lemma contains_app c s1 s2 :
  contains c (s1 +:+ s2) = contains c s1 || contains c s2.
Proof.
  induction s1 as [|d s1 IH]; [done|].
  rewrite str_app_cons. simpl. by rewrite IH, orb_assoc.
Qed.

Lemma os_path_join_sep a b :
  a ≠ "" → endswith_sep a = false → startswith_sep b = false →
  os_path_join a b = a +:+ "/" +:+ b.
Proof.
  intros Ha Hend Hstart. unfold os_path_join.
  rewrite Hstart, Hend, bool_decide_eq_false_2 by done. done.
Qed.

(** *** [str] of an integer *)

Lemma pretty_N_char_int_char x : int_char (pretty_N_char x) = true.
Proof. unfold pretty_N_char. by repeat case_match. Qed.

Lemma pretty_N_go_chars c x s :
  contains c (pretty_N_go x s) = true → int_char c = true ∨ contains c s = true.
Proof.
  revert s. induction (N.lt_wf_0 x) as [x _ IH]; intros s.
  assert (x = 0 ∨ 0 < x)%N as [->|Hx] by lia.
  - rewrite pretty_N_go_0. auto.
  - rewrite pretty_N_go_step by done.
    intros [?|Hc]%IH; [by left| |by apply N.div_lt].
    rewrite contains_cons in Hc.
    apply orb_true_iff in Hc as [Hc|Hc]; [left|by right].
    apply Ascii.eqb_eq in Hc as <-. apply pretty_N_char_int_char.
Qed.

Lemma pretty_N_go_length x s :
  (String.length s ≤ String.length (pretty_N_go x s))%nat.
Proof.
  revert s. induction (N.lt_wf_0 x) as [x _ IH]; intros s.
  assert (x = 0 ∨ 0 < x)%N as [->|Hx] by lia.
  - by rewrite pretty_N_go_0.
  - rewrite pretty_N_go_step by done.
    etrans; [|apply IH; by apply N.div_lt]. simpl. lia.
Qed.

Lemma str_int_chars c n : contains c (str_int n) = true → int_char c = true.
Proof.
  assert (∀ p : positive, contains c (pretty p) = true → int_char c = true) as Hpos.
  { intros p. unfold pretty, pretty_positive, pretty, pretty_N.
    case_decide; [done|]. by intros [?|?]%pretty_N_go_chars. }
  destruct n as [|p|p].
  - change (str_int 0) with "0".
    rewrite contains_cons, orb_false_r. by intros <-%Ascii.eqb_eq.
  - apply Hpos.
  - change (str_int (Z.neg p)) with (String "-" (pretty p)).
    rewrite contains_cons.
    intros [<-%Ascii.eqb_eq|Hp]%orb_true_iff; [done|exact (Hpos p Hp)].
Qed.

Lemma str_int_nonempty n : str_int n ≠ "".
Proof.
  assert (∀ p : positive, pretty p ≠ "") as Hpos.
  { intros p. unfold pretty, pretty_positive, pretty, pretty_N.
    case_decide; [done|]. rewrite pretty_N_go_step by lia.
    intros E. pose proof (pretty_N_go_length (N.pos p `div` 10)
      (String (pretty_N_char (N.pos p `mod` 10)) "")) as Hlen.
    rewrite E in Hlen. simpl in Hlen. lia. }
  destruct n as [|p|p]; [done|apply Hpos|done].
Qed.

Lemma str_int_no_sep n : contains "/" (str_int n) = false.
Proof.
  destruct (contains "/" (str_int n)) eqn:E; [|done].
  by apply str_int_chars in E.
Qed.

Lemma str_int_no_space n : contains " " (str_int n) = false.
Proof.
  destruct (contains " " (str_int n)) eqn:E; [|done].
  by apply str_int_chars in E.
Qed.

Lemma startswith_sep_str_int n s : startswith_sep (str_int n +:+ s) = false.
Proof.
  rewrite startswith_sep_app by apply str_int_nonempty.
  pose proof (str_int_no_sep n) as Hn. pose proof (str_int_nonempty n).
  destruct (str_int n) as [|c r]; [done|]. rewrite contains_cons in Hn.
  by apply orb_false_iff in Hn as [? _].
Qed.

Lemma endswith_sep_str_int n s : endswith_sep (s +:+ str_int n) = false.
Proof.
  rewrite endswith_sep_app by apply str_int_nonempty.
  destruct (endswith_sep (str_int n)) eqn:E; [|done].
  apply endswith_sep_contains in E. by rewrite str_int_no_sep in E.
Qed.

(** *** [os.makedirs] *)

Lemma ancestors_go_self pre s : pre +:+ s ∈ ancestors_go pre s.
Proof.
  revert pre. induction s as [|c s IH]; intros pre; simpl.
  - rewrite str_app_nil_r. set_solver.
  - destruct (Ascii.eqb_spec c "/") as [->|_].
    + apply elem_of_app. right.
      specialize (IH (pre +:+ "/")). by rewrite str_app_assoc in IH.
    + specialize (IH (pre +:+ String c "")). by rewrite str_app_assoc in IH.
Qed.

Lemma ancestors_self name : name ∈ ancestors name.
Proof. apply (ancestors_go_self "" name). Qed.

Lemma ancestors_go_length pre s x :
  x ∈ ancestors_go pre s →
  (String.length x ≤ String.length pre + String.length s)%nat.
Proof.
  revert pre. induction s as [|c s IH]; intros pre; simpl.
  - intros ->%list_elem_of_singleton. lia.
  - destruct (Ascii.eqb_spec c "/") as [->|_].
    + intros [Hx|Hx]%elem_of_app.
      * case_bool_decide; [set_solver|].
        apply list_elem_of_singleton in Hx as ->. lia.
      * apply IH in Hx. rewrite str_length_app in Hx. simpl in Hx. lia.
    + intros Hx. apply IH in Hx. rewrite str_length_app in Hx. simpl in Hx. lia.
Qed.

Lemma ancestors_length name x :
  x ∈ ancestors name → (String.length x ≤ String.length name)%nat.
Proof. intros Hx. by apply ancestors_go_length in Hx. Qed.

Lemma blocked_at_None chain regs :
  blocked_at chain regs = None ↔ ∀ a, a ∈ chain → a ∉ regs.
Proof.
  induction chain as [|name rest IH]; simpl.
  - split; [by intros _ a ?%elem_of_nil|done].
  - case_bool_decide as Hin.
    + split; [done|]. intros Hall. destruct (Hall name); [left|done].
    + rewrite IH. split.
      * intros Hall a [->|Ha]%elem_of_cons; [done|by apply Hall].
      * intros Hall a Ha. apply Hall. by right.
Qed.

(** With [exist_ok] set, the call returns on an existing directory, and
    on a name none of whose ancestors is a regular file. *)
Lemma makedirs_existing name dirs regs :
  name ≠ "" → name ∈ dirs → makedirs name true dirs regs = Ok dirs.
Proof.
  intros Hne Hin. unfold makedirs.
  by rewrite bool_decide_eq_false_2, bool_decide_eq_true_2.
Qed.

Lemma makedirs_clear name dirs regs :
  name ≠ "" → (∀ a, a ∈ ancestors name → a ∉ regs) →
  makedirs name true dirs regs = Ok (made name dirs).
Proof.
  intros Hne Hclear. unfold makedirs, made.
  rewrite bool_decide_eq_false_2 by done. case_bool_decide; [done|].
  by apply blocked_at_None in Hclear as ->.
Qed.

(** What a call that returned tells: the directories are those of
    [made], the name is not empty, and no name that is a regular file
    has become a directory. *)
Lemma makedirs_Ok name dirs regs d :
  makedirs name true dirs regs = Ok d →
  d = made name dirs ∧ name ≠ ""
  ∧ ∀ p, p ∈ regs → p ∈ d → p ∈ dirs.
Proof.
  unfold makedirs, made. case_bool_decide as Hne; [done|].
  case_bool_decide as Hin.
  - intros [= <-]. done.
  - destruct (blocked_at (ancestors name) regs) eqn:Hb; [done|].
    intros [= <-]. split; [done|]. split; [done|].
    intros p Hp [?|Ha%elem_of_list_to_set]%elem_of_union; [done|].
    by destruct (proj1 (blocked_at_None _ _) Hb p Ha).
Qed.

Lemma makedirs_cases name dirs regs :
  makedirs name true dirs regs = Ok (made name dirs)
  ∨ ∃ e, makedirs name true dirs regs = Raise e.
Proof.
  destruct (makedirs name true dirs regs) as [d|e] eqn:Hm; [|right; eauto].
  left. by apply makedirs_Ok in Hm as [-> _].
Qed.

(** Without [exist_ok], an existing directory is an error. *)
Lemma makedirs_exists_raises name dirs regs :
  name ∈ dirs → is_ok (makedirs name false dirs regs) = false.
Proof.
  intros Hin. unfold makedirs. case_bool_decide; [done|].
  by rewrite bool_decide_eq_true_2.
Qed.

(** A regular file at the name, or at an ancestor of it, is an error
    whatever [exist_ok] is. *)
Lemma makedirs_blocked name exist_ok dirs regs a :
  name ∉ dirs → a ∈ ancestors name → a ∈ regs →
  is_ok (makedirs name exist_ok dirs regs) = false.
Proof.
  intros Hin Ha Hreg. unfold makedirs. case_bool_decide; [done|].
  rewrite bool_decide_eq_false_2 by done.
  destruct (blocked_at (ancestors name) regs) eqn:Hb; [done|].
  by destruct (proj1 (blocked_at_None _ _) Hb a Ha).
Qed.

(** The names [os.makedirs] looks at are beginnings of the name. *)
Lemma ancestors_go_prefix pre s x :
  x ∈ ancestors_go pre s → ∃ rest, pre +:+ s = x +:+ rest.
Proof.
  revert pre. induction s as [|c s IH]; intros pre; simpl.
  - intros ->%list_elem_of_singleton. by exists "".
  - destruct (Ascii.eqb_spec c "/") as [->|_].
    + intros [Hx|Hx]%elem_of_app.
      * case_bool_decide; [set_solver|].
        apply list_elem_of_singleton in Hx as ->. by eexists.
      * apply IH in Hx as [rest Hx]. exists rest.
        by rewrite <-Hx, str_app_assoc.
    + intros Hx. apply IH in Hx as [rest Hx]. exists rest.
      by rewrite <-Hx, str_app_assoc.
Qed.

Lemma ancestors_prefix name x :
  x ∈ ancestors name → ∃ rest, name = x +:+ rest.
Proof. intros Hx. by apply ancestors_go_prefix in Hx. Qed.

Lemma str_app_inv_head (s a b : string) : s +:+ a = s +:+ b → a = b.
Proof.
  induction s as [|c s IH]; [done|].
  rewrite !str_app_cons. intros [= Hs]. by apply IH.
Qed.

(** A call that returns keeps returning while directories are only
    added and no name it looks at becomes a regular file. *)
Lemma makedirs_ok_later name dirs regs dirs' regs' :
  is_ok (makedirs name true dirs regs) = true →
  dirs ⊆ dirs' →
  (∀ a, a ∈ ancestors name → a ∈ regs' → a ∈ regs) →
  is_ok (makedirs name true dirs' regs') = true.
Proof.
  intros Hok Hsub Hregs.
  destruct (makedirs name true dirs regs) as [d|] eqn:Hmk; [|done].
  pose proof (makedirs_Ok _ _ _ _ Hmk) as (_ & Hne & _).
  destruct (decide (name ∈ dirs')) as [Hin|Hin].
  { by rewrite makedirs_existing. }
  rewrite makedirs_clear; [done..|].
  intros a Ha Hreg. apply Hregs in Hreg; [|done].
  assert (name ∉ dirs) as Hout by (intros ?; by apply Hin, Hsub).
  pose proof (makedirs_blocked name true dirs regs a Hout Ha Hreg) as Hb.
  by rewrite Hmk in Hb.
Qed.

Lemma made_subseteq name dirs : dirs ⊆ made name dirs.
Proof. unfold made. case_bool_decide; set_solver. Qed.

Lemma made_elem name dirs : name ∈ made name dirs.
Proof.
  unfold made. case_bool_decide; [done|].
  apply elem_of_union. right. apply elem_of_list_to_set, ancestors_self.
Qed.

Lemma made_existing name dirs : name ∈ dirs → made name dirs = dirs.
Proof. intros Hin. unfold made. by rewrite bool_decide_eq_true_2. Qed.

Lemma made_longer name dirs x :
  (String.length name < String.length x)%nat → x ∈ made name dirs → x ∈ dirs.
Proof.
  intros Hlen. unfold made. case_bool_decide; [done|].
  intros [?|Hx%elem_of_list_to_set]%elem_of_union; [done|].
  apply ancestors_length in Hx. lia.
Qed.

Lemma foldl_made_subseteq names dirs :
  dirs ⊆ foldl (λ d n, made n d) dirs names.
Proof.
  revert dirs. induction names as [|n names IH]; intros dirs; simpl; [done|].
  etrans; [apply (made_subseteq n)|apply IH].
Qed.


Lemma foldl_made_existing names dirs :
  (∀ n, n ∈ names → n ∈ dirs) → foldl (λ d n, made n d) dirs names = dirs.
Proof.
  revert dirs. induction names as [|n names IH]; intros dirs Hall; simpl; [done|].
  rewrite made_existing by (apply Hall; left).
  apply IH. intros n' Hn'. apply Hall. by right.
Qed.

(** *** [split] *)

Lemma split_go_app sep cur a r :
  contains sep a = false →
  split_go sep cur (a +:+ r) = split_go sep (cur +:+ a) r.
Proof.
  revert cur. induction a as [|c a IH]; intros cur Hno.
  - by rewrite str_app_nil_l, str_app_nil_r.
  - rewrite contains_cons in Hno. apply orb_false_iff in Hno as [Hc Ha].
    rewrite str_app_cons. simpl. rewrite Hc, IH by done.
    by rewrite str_app_assoc.
Qed.


Lemma split_last sep a : contains sep a = false → split sep a = [a].
Proof.
  intros Hno. unfold split.
  rewrite <-(str_app_nil_r a) at 1. by rewrite split_go_app.
Qed.

(** *** [os.path.dirname] and creating a file *)

Lemma head_to_sep_app a b :
  contains "/" b = false → head_to_sep (a +:+ String "/" b) = a +:+ "/".
Proof.
  intros Hb. induction a as [|c a IH].
  - rewrite !str_app_nil_l. simpl. by rewrite Hb.
  - rewrite (str_app_cons c a (String "/" b)), (str_app_cons c a "/").
    cbn [head_to_sep]. rewrite IH, contains_app, contains_cons, Ascii.eqb_refl.
    by rewrite orb_true_r.
Qed.

Lemma rstrip_sep_eq_nil s : rstrip_sep s = "" → endswith_sep s = true ∨ s = "".
Proof.
  induction s as [|c s IH]; [by right|]. simpl.
  destruct (rstrip_sep s) as [|d r] eqn:Hr; [|done].
  destruct (Ascii.eqb_spec c "/") as [->|_]; [|done].
  intros _. left. destruct s as [|d s]; [done|].
  by destruct IH as [?|?].
Qed.

Lemma rstrip_sep_keep s : endswith_sep s = false → rstrip_sep s = s.
Proof.
  induction s as [|c s IH]; [done|]. intros Hend. simpl.
  destruct s as [|d s].
  - simpl in *. by rewrite Hend.
  - rewrite IH by done. done.
Qed.

Lemma rstrip_sep_app_sep s : rstrip_sep (s +:+ "/") = rstrip_sep s.
Proof.
  induction s as [|c s IH]; [done|].
  rewrite str_app_cons. simpl. by rewrite IH.
Qed.

(** The directory of a file name joined to a directory is that
    directory. *)
Lemma dirname_join a b :
  a ≠ "" → endswith_sep a = false → contains "/" b = false →
  dirname (a +:+ "/" +:+ b) = a.
Proof.
  intros Hne Hend Hb. unfold dirname. change ("/" +:+ b) with (String "/" b).
  rewrite head_to_sep_app, rstrip_sep_app_sep, rstrip_sep_keep by done.
  by rewrite bool_decide_eq_false_2.
Qed.

Lemma dirname_plain b : contains "/" b = false → dirname b = "".
Proof.
  intros Hb. unfold dirname.
  assert (head_to_sep b = "") as ->; [|done].
  destruct b as [|c b]; [done|].
  rewrite contains_cons in Hb. apply orb_false_iff in Hb as [Hc Hb].
  simpl. by rewrite Hb, Hc.
Qed.

(** A file can be created exactly when its path is not a directory, is
    not empty, and the directory it lies in exists. *)
Lemma create_error_None path dirs regs :
  (create_error path dirs regs = None)
  ↔ ((path ∉ dirs) ∧ path ≠ "" ∧ parent_exists (dirname path) dirs = true).
Proof.
  unfold create_error.
  case_bool_decide as Hd; [split; [done|by intros (? & _)]|].
  case_bool_decide as He; [split; [done|by intros (_ & ? & _)]|].
  destruct (parent_exists (dirname path) dirs); [done|].
  split; [by case_bool_decide|by intros (_ & _ & ?)].
Qed.

(** Whether a file can be created depends on the directories only. *)
Lemma create_error_regs path dirs regs regs' :
  create_error path dirs regs = None → create_error path dirs regs' = None.
Proof.
  intros Hc. apply create_error_None. by apply create_error_None in Hc.
Qed.

Lemma create_error_is_dir path dirs regs :
  path ∈ dirs → create_error path dirs regs = Some (IsADirectoryError path).
Proof. intros Hin. unfold create_error. by rewrite bool_decide_eq_true_2. Qed.


End PyFacts.

(** ** The monad *)

Section MonadFacts.
Context {W A : Type}.
Implicit Types (w : W) (body : A → M W unit).

Lemma run_split {B} (m : M W B) w : m w = (world_after m w, outcome m w).
Proof. unfold world_after, outcome. by destruct (m w). Qed.

Lemma for_each_app xs ys body w :
  for_each (xs ++ ys) body w
  = bind (for_each xs body) (λ _, for_each ys body) w.
Proof.
  revert w. induction xs as [|x xs IH]; intros w; simpl.
  - done.
  - unfold bind in *. destruct (body x w) as [w' [[]|e]]; [apply IH|done].
Qed.

Lemma for_each_cons x xs body w :
  for_each (x :: xs) body w
  = match body x w with
    | (w', Ok _) => for_each xs body w'
    | (w', Raise e) => (w', Raise e)
    end.
Proof. reflexivity. Qed.

(** A loop that returns has run in two halves that returned. *)
Lemma for_each_app_Ok xs ys body w w' :
  for_each (xs ++ ys) body w = (w', Ok tt) →
  ∃ w1, for_each xs body w = (w1, Ok tt) ∧ for_each ys body w1 = (w', Ok tt).
Proof.
  rewrite for_each_app. unfold bind.
  destruct (for_each xs body w) as [w1 [[]|e]]; [|done].
  intros Hys. by exists w1.
Qed.

(** A loop whose bodies all return leaves the fold of their effects. *)
Lemma for_each_ok (step : W → A → W) xs body w :
  (∀ x w, x ∈ xs → body x w = (step w x, Ok tt)) →
  for_each xs body w = (foldl step w xs, Ok tt).
Proof.
  revert w. induction xs as [|x xs IH]; intros w Hbody; simpl; [done|].
  unfold bind. rewrite Hbody by left.
  apply IH. intros y w' Hy. apply Hbody. by right.
Qed.

(** A loop ends at the first body that raises. *)
Lemma for_each_raise (step : W → A → W) xs x ys body w w' e :
  (∀ y w, y ∈ xs → body y w = (step w y, Ok tt)) →
  body x (foldl step w xs) = (w', Raise e) →
  for_each (xs ++ x :: ys) body w = (w', Raise e).
Proof.
  intros Hxs Hx. rewrite for_each_app. unfold bind.
  rewrite (for_each_ok step) by done. simpl. unfold bind. by rewrite Hx.
Qed.

(** A property of the worlds before and after that every body keeps is
    kept by the loop, however the bodies end. *)
Lemma for_each_preserves (R : W → W → Prop) xs body w :
  (∀ w, R w w) → (∀ w1 w2 w3, R w1 w2 → R w2 w3 → R w1 w3) →
  (∀ x w, R w (world_after (body x) w)) →
  R w (world_after (for_each xs body) w).
Proof.
  intros Hrefl Htrans Hbody. revert w.
  induction xs as [|x xs IH]; intros w; unfold world_after; simpl.
  - apply Hrefl.
  - unfold bind. specialize (Hbody x w). unfold world_after in Hbody.
    destruct (body x w) as [w' [[]|e]]; simpl in *; [|done].
    eapply Htrans; [done|apply IH].
Qed.
(** A property of the worlds before and after that both halves of a
    sequence keep is kept by the sequence. *)
Lemma bind_preserves {B C} (R : W → W → Prop) (m : M W B) (k : B → M W C) w :
  (∀ w1 w2 w3, R w1 w2 → R w2 w3 → R w1 w3) →
  R w (world_after m w) → (∀ b w1, R w1 (world_after (k b) w1)) →
  R w (world_after (bind m k) w).
Proof.
  intros Htrans Hm Hk. unfold world_after, bind in *.
  destruct (m w) as [w1 [b|e]]; [|done].
  eapply Htrans; [exact Hm|apply Hk].
Qed.

End MonadFacts.

(** ** The cross-product driver *)

Module FetchDatFacts.
Import FetchDat PyFacts.

Section Driver.
Context `{Collaborators}.
Implicit Types (w : World) (data : Channel → TimeRange → TimeSeries).

(** *** Stretches of a run *)

Lemma grown_refl w : grown w w [] [] "" [].
Proof.
  unfold grown, make_all, write_all. simpl.
  by rewrite str_app_nil_r, (right_id_L [] (++)).
Qed.

Lemma grown_trans w1 w2 w3 n1 n2 o1 o2 x1 x2 t1 t2 :
  grown w1 w2 n1 o1 x1 t1 → grown w2 w3 n2 o2 x2 t2 →
  grown w1 w3 (n1 ++ n2) (o1 ++ o2) (x1 +:+ x2) (t1 ++ t2).
Proof.
  unfold grown, make_all, write_all.
  intros (D1 & F1 & E1 & M1 & T1) (D2 & F2 & E2 & M2 & T2).
  rewrite !foldl_app, <-D1, <-F1, D2, F2, E2, E1, M2, M1, T2, T1.
  by rewrite str_app_assoc, (assoc_L (++)).
Qed.

(** *** The file object [fin] *)

Lemma len_app (s1 s2 : string) : len (s1 +:+ s2) = (len s1 + len s2)%N.
Proof. unfold len. rewrite str_length_app. lia. Qed.

(** Text sent down to the buffered writer is in the file or in the
    buffer afterwards, after what was there. *)
Lemma buffer_write_spec b w :
  let w' := buffer_write b w in
  dirs w' = dirs w ∧ files w' = files w ∧ fin_exists w' = fin_exists w
  ∧ trace w' = trace w ∧ fin_pending w' = fin_pending w
  ∧ fin_txt w' +:+ fin_buffer w' = fin_txt w +:+ fin_buffer w +:+ b.
Proof.
  unfold buffer_write. repeat case_match; simpl;
    by rewrite ?str_app_nil_r, ?str_app_assoc.
Qed.

Lemma text_flush_spec w :
  let w' := text_flush w in
  dirs w' = dirs w ∧ files w' = files w ∧ fin_exists w' = fin_exists w
  ∧ trace w' = trace w ∧ fin_pending w' = ""
  ∧ fin_txt w' +:+ fin_buffer w' = manifest w.
Proof.
  unfold text_flush.
  destruct (buffer_write_spec (fin_pending w) (set_pending "" w))
    as (D & F & E & T & P & M).
  by rewrite D, F, E, T, P, M.
Qed.

Lemma manifest_eq w w' :
  fin_txt w' +:+ fin_buffer w' = fin_txt w +:+ fin_buffer w →
  fin_pending w' = fin_pending w → manifest w' = manifest w.
Proof.
  unfold manifest. intros Hb ->. by rewrite <-!str_app_assoc, Hb.
Qed.

(** [fin.write] changes nothing but the manifest, which it extends by
    its text, wherever the text ends up. *)
Lemma fin_write_spec text w :
  let w' := world_after (fin_write text) w in
  dirs w' = dirs w ∧ files w' = files w ∧ fin_exists w' = fin_exists w
  ∧ manifest w' = manifest w +:+ text
  ∧ trace w' = trace w ++ [FinWrite text].
Proof.
  unfold world_after, fin_write, effect. cbn [fst].
  set (w0 := log (FinWrite text) w).
  assert (manifest w0 = manifest w) as M0 by done.
  set (w1 := if (CHUNK_SIZE <? len (fin_pending w0) + len text)%N
             then set_pending text (text_flush w0)
             else set_pending (fin_pending w0 +:+ text) w0).
  assert (dirs w1 = dirs w ∧ files w1 = files w ∧ fin_exists w1 = fin_exists w
          ∧ manifest w1 = manifest w +:+ text
          ∧ trace w1 = trace w ++ [FinWrite text]) as (D1 & F1 & E1 & M1 & T1).
  { unfold w1. case_match.
    - destruct (text_flush_spec w0) as (D & F & E & T & P & M).
      unfold manifest at 1. cbn [set_pending dirs files fin_exists trace
        fin_txt fin_buffer fin_pending].
      by rewrite D, F, E, T, <-str_app_assoc, M, M0.
    - unfold manifest. simpl. by rewrite !str_app_assoc. }
  case_match; [|done].
  destruct (text_flush_spec w1) as (D & F & E & T & P & M).
  rewrite D, F, E, T. repeat split; try done.
  unfold manifest at 1. by rewrite P, str_app_nil_r, M.
Qed.

(** Text that leaves the pending text shorter than a chunk stays
    pending: neither the file nor the buffer changes. *)
Lemma fin_write_pending text w :
  (len (fin_pending w) + len text < CHUNK_SIZE)%N →
  let w' := world_after (fin_write text) w in
  fin_txt w' = fin_txt w ∧ fin_buffer w' = fin_buffer w
  ∧ fin_pending w' = fin_pending w +:+ text.
Proof.
  intros Hshort. unfold world_after, fin_write, effect. cbn [fst].
  cbn [log fin_pending].
  rewrite (proj2 (N.ltb_ge _ _)) by lia.
  cbn [set_pending fin_pending]. rewrite len_app.
  by rewrite (proj2 (N.leb_gt _ _)) by lia.
Qed.

(** Closing [fin] leaves the whole manifest in the file. *)
Lemma fin_close_spec w :
  let w' := fin_close w in
  dirs w' = dirs w ∧ files w' = files w ∧ fin_exists w' = fin_exists w
  ∧ trace w' = trace w
  ∧ fin_txt w' = manifest w ∧ fin_buffer w' = "" ∧ fin_pending w' = "".
Proof.
  unfold fin_close.
  destruct (text_flush_spec w) as (D & F & E & T & P & M).
  simpl. by rewrite D, F, E, T, P, M.
Qed.

Lemma regs_fin_open w : regs (fin_open w) = dom (files w) ∪ {[fin_file]}.
Proof. done. Qed.

Lemma fin_file_regs w : fin_exists w = true → fin_file ∈ regs w.
Proof.
  intros E. unfold regs. rewrite E. apply elem_of_union. right.
  by apply elem_of_singleton.
Qed.

(** [open(fin_file, 'a')] raises exactly when [fin.txt] is a
    directory. *)
Lemma open_fin_Ok w : fin_file ∉ dirs w → open_fin w = (fin_open w, Ok tt).
Proof.
  intros Hdir. unfold open_fin.
  by rewrite (proj2 (create_error_None _ _ _)).
Qed.

Lemma open_fin_raise w :
  fin_file ∈ dirs w → open_fin w = (w, Raise (IsADirectoryError fin_file)).
Proof. intros Hdir. unfold open_fin. by rewrite create_error_is_dir. Qed.

Lemma open_fin_cases w :
  ((fin_file ∉ dirs w) ∧ open_fin w = (fin_open w, Ok tt))
  ∨ (fin_file ∈ dirs w ∧ open_fin w = (w, Raise (IsADirectoryError fin_file))).
Proof.
  destruct (decide (fin_file ∈ dirs w)) as [Hdir|Hdir].
  - right. split; [done|by apply open_fin_raise].
  - left. split; [done|by apply open_fin_Ok].
Qed.

(** *** The calls that can fail *)

Lemma os_makedirs_Ok name w d :
  makedirs name true (dirs w) (regs w) = Ok d →
  os_makedirs name true w
  = ({| dirs := made name (dirs w); files := files w;
        fin_exists := fin_exists w; fin_txt := fin_txt w;
        fin_buffer := fin_buffer w; fin_pending := fin_pending w;
        trace := trace w ++ [Makedirs name] |}, Ok tt).
Proof.
  intros Hmk. unfold os_makedirs. rewrite Hmk.
  by apply makedirs_Ok in Hmk as [-> _].
Qed.

Lemma os_makedirs_raise name w e :
  makedirs name true (dirs w) (regs w) = Raise e →
  os_makedirs name true w = (log (Makedirs name) w, Raise e).
Proof. intros Hmk. unfold os_makedirs. by rewrite Hmk. Qed.

Lemma write_Ok (d : TimeSeries) path w :
  create_error path (dirs w) (regs w) = None →
  write d path w
  = ({| dirs := dirs w; files := <[path := d]> (files w);
        fin_exists := fin_exists w; fin_txt := fin_txt w;
        fin_buffer := fin_buffer w; fin_pending := fin_pending w;
        trace := trace w ++ [WriteGwf path] |}, Ok tt).
Proof. intros Hc. unfold write. by rewrite Hc. Qed.

Lemma write_raise (d : TimeSeries) path w e :
  create_error path (dirs w) (regs w) = Some e →
  write d path w = (w, Raise (write_failure path)).
Proof. intros Hc. unfold write. by rewrite Hc. Qed.

(** *** One pass through the inner loop body *)

(** The pass in which nothing raises. *)
Lemma time_row_body_ok channel_name channel_dir time_row d w :
  TimeSeries_fetch channel_name (start time_row) (end_ time_row) host = Ok d →
  is_ok (makedirs (time_dir_path channel_dir time_row) true (dirs w) (regs w))
  = true →
  create_error (output_file channel_name channel_dir time_row)
    (made (time_dir_path channel_dir time_row) (dirs w)) (regs w) = None →
  ∃ w', time_row_body channel_name channel_dir time_row w = (w', Ok tt)
    ∧ grown w w' [time_dir_path channel_dir time_row]
        [(output_file channel_name channel_dir time_row, d)]
        (fin_line (output_file channel_name channel_dir time_row) d)
        (pair_events channel_name channel_dir time_row d).
Proof.
  intros Hfetch Hmk Hc.
  destruct (makedirs (time_dir_path channel_dir time_row) true (dirs w) (regs w))
    as [ds|] eqn:Hmk'; [clear Hmk|done].
  unfold time_row_body, bind, fetch. rewrite Hfetch.
  rewrite (os_makedirs_Ok _ _ ds) by exact Hmk'.
  rewrite write_Ok by exact Hc.
  unfold print, effect. cbn [log dirs files fin_exists fin_txt fin_buffer
    fin_pending trace].
  match goal with
  | |- ∃ w', (let (_, _) := fin_write ?line ?w3 in _) = _ ∧ _ =>
      destruct (fin_write_spec line w3) as (D & F & E & Mf & T);
      change (fin_write line w3) with (world_after (fin_write line) w3, Ok tt);
      set (w4 := world_after (fin_write line) w3) in *
  end.
  eexists. split; [reflexivity|].
  unfold grown, make_all, write_all, manifest in *.
  cbn [log foldl fst snd dirs files fin_exists fin_txt fin_buffer fin_pending
    trace] in *.
  rewrite D, F, E, Mf, T. unfold pair_events.
  rewrite <-!(assoc_L (++)). done.
Qed.

(** The pass in which the fetch raises. *)
Lemma time_row_body_raise channel_name channel_dir time_row e w :
  TimeSeries_fetch channel_name (start time_row) (end_ time_row) host = Raise e →
  time_row_body channel_name channel_dir time_row w
  = (log (Fetch channel_name (start time_row) (end_ time_row) host) w, Raise e).
Proof.
  intros Hfetch. unfold time_row_body, bind, fetch. by rewrite Hfetch.
Qed.

(** The pass in which the time-range directory cannot be made. *)
Lemma time_row_body_mkdir_raise channel_name channel_dir time_row d e w :
  TimeSeries_fetch channel_name (start time_row) (end_ time_row) host = Ok d →
  makedirs (time_dir_path channel_dir time_row) true (dirs w) (regs w)
    = Raise e →
  time_row_body channel_name channel_dir time_row w
  = (log (Makedirs (time_dir_path channel_dir time_row))
       (log (Fetch channel_name (start time_row) (end_ time_row) host) w),
     Raise e).
Proof.
  intros Hfetch Hmk. unfold time_row_body, bind, fetch. rewrite Hfetch.
  by rewrite (os_makedirs_raise _ _ e).
Qed.

(** The pass in which the file cannot be written. *)
Lemma time_row_body_write_raise channel_name channel_dir time_row d e w :
  TimeSeries_fetch channel_name (start time_row) (end_ time_row) host = Ok d →
  is_ok (makedirs (time_dir_path channel_dir time_row) true (dirs w) (regs w))
  = true →
  create_error (output_file channel_name channel_dir time_row)
    (made (time_dir_path channel_dir time_row) (dirs w)) (regs w) = Some e →
  time_row_body channel_name channel_dir time_row w
  = ({| dirs := made (time_dir_path channel_dir time_row) (dirs w);
        files := files w; fin_exists := fin_exists w; fin_txt := fin_txt w;
        fin_buffer := fin_buffer w; fin_pending := fin_pending w;
        trace := trace w
          ++ [Fetch channel_name (start time_row) (end_ time_row) host;
              Makedirs (time_dir_path channel_dir time_row)] |},
     Raise (write_failure (output_file channel_name channel_dir time_row))).
Proof.
  intros Hfetch Hmk Hc.
  destruct (makedirs (time_dir_path channel_dir time_row) true (dirs w) (regs w))
    as [ds|] eqn:Hmk'; [clear Hmk|done].
  unfold time_row_body, bind, fetch. rewrite Hfetch.
  rewrite (os_makedirs_Ok _ _ ds) by exact Hmk'.
  rewrite (write_raise _ _ _ e) by exact Hc.
  cbn [log dirs files fin_exists fin_txt fin_buffer fin_pending trace].
  by rewrite <-(assoc_L (++)).
Qed.

(** A pass ends in one of four ways. *)
Lemma time_row_body_cases channel_name channel_dir r w :
  let body := time_row_body channel_name channel_dir r in
  let td := time_dir_path channel_dir r in
  let out := output_file channel_name channel_dir r in
  let call := Fetch channel_name (start r) (end_ r) host in
  (∃ d w',
     TimeSeries_fetch channel_name (start r) (end_ r) host = Ok d
     ∧ makedirs td true (dirs w) (regs w) = Ok (made td (dirs w))
     ∧ create_error out (made td (dirs w)) (regs w) = None
     ∧ body w = (w', Ok tt)
     ∧ grown w w' [td] [(out, d)] (fin_line out d)
         (pair_events channel_name channel_dir r d))
  ∨ (∃ e,
       TimeSeries_fetch channel_name (start r) (end_ r) host = Raise e
       ∧ body w = (log call w, Raise e))
  ∨ (∃ d e,
       TimeSeries_fetch channel_name (start r) (end_ r) host = Ok d
       ∧ makedirs td true (dirs w) (regs w) = Raise e
       ∧ body w = (log (Makedirs td) (log call w), Raise e))
  ∨ (∃ d e,
       TimeSeries_fetch channel_name (start r) (end_ r) host = Ok d
       ∧ makedirs td true (dirs w) (regs w) = Ok (made td (dirs w))
       ∧ create_error out (made td (dirs w)) (regs w) = Some e
       ∧ body w
         = ({| dirs := made td (dirs w); files := files w;
               fin_exists := fin_exists w; fin_txt := fin_txt w;
               fin_buffer := fin_buffer w; fin_pending := fin_pending w;
               trace := trace w ++ [call; Makedirs td] |},
            Raise (write_failure out))).
Proof.
  intros body td out call.
  destruct (TimeSeries_fetch channel_name (start r) (end_ r) host)
    as [d|e] eqn:Hfetch.
  2: { right; left. exists e. split; [done|]. by apply time_row_body_raise. }
  destruct (makedirs_cases td (dirs w) (regs w)) as [Hmk|[e Hmk]].
  2: { right; right; left. exists d, e. split; [done|]. split; [done|].
       by apply (time_row_body_mkdir_raise _ _ _ d). }
  assert (is_ok (makedirs td true (dirs w) (regs w)) = true) as Hok
    by by rewrite Hmk.
  destruct (create_error out (made td (dirs w)) (regs w)) as [e|] eqn:Hc.
  - right; right; right. exists d, e. do 3 (split; [done|]).
    by apply (time_row_body_write_raise _ _ _ d e).
  - left. destruct (time_row_body_ok channel_name channel_dir r d w)
      as (w' & Hrun & Hg); [done..|].
    by exists d, w'.
Qed.

(** What a pass that returned tells. *)
Lemma time_row_body_Ok channel_name channel_dir r w w' :
  time_row_body channel_name channel_dir r w = (w', Ok tt) →
  ∃ d, TimeSeries_fetch channel_name (start r) (end_ r) host = Ok d
    ∧ makedirs (time_dir_path channel_dir r) true (dirs w) (regs w)
      = Ok (made (time_dir_path channel_dir r) (dirs w))
    ∧ create_error (output_file channel_name channel_dir r)
        (made (time_dir_path channel_dir r) (dirs w)) (regs w) = None
    ∧ grown w w' [time_dir_path channel_dir r]
        [(output_file channel_name channel_dir r, d)]
        (fin_line (output_file channel_name channel_dir r) d)
        (pair_events channel_name channel_dir r d).
Proof.
  intros Hrun.
  destruct (time_row_body_cases channel_name channel_dir r w)
    as [(d & w1 & Hf & Hmk & Hc & Hrun1 & Hg)
       |[(e & _ & Hrun1)|[(d & e & _ & _ & Hrun1)|(d & e & _ & _ & _ & Hrun1)]]];
    rewrite Hrun1 in Hrun; [|done..].
  simplify_eq. by exists d.
Qed.

(** What a pass that raised has done: it has called the fetch, perhaps
    asked for the time-range directory, and nothing else. *)
Lemma time_row_body_Raise channel_name channel_dir r w w' e :
  time_row_body channel_name channel_dir r w = (w', Raise e) →
  files w' = files w ∧ fin_exists w' = fin_exists w
  ∧ fin_txt w' = fin_txt w ∧ fin_buffer w' = fin_buffer w
  ∧ fin_pending w' = fin_pending w
  ∧ (dirs w' = dirs w
     ∨ dirs w' = made (time_dir_path channel_dir r) (dirs w)
       ∧ is_ok (makedirs (time_dir_path channel_dir r) true (dirs w) (regs w))
         = true)
  ∧ (trace w' = trace w ++ [Fetch channel_name (start r) (end_ r) host]
     ∨ trace w'
       = trace w ++ [Fetch channel_name (start r) (end_ r) host;
                     Makedirs (time_dir_path channel_dir r)]).
Proof.
  intros Hrun.
  destruct (time_row_body_cases channel_name channel_dir r w)
    as [(d & w1 & _ & _ & _ & Hrun1 & _)
       |[(e1 & _ & Hrun1)
        |[(d & e1 & _ & _ & Hrun1)|(d & e1 & _ & Hmk & _ & Hrun1)]]];
    rewrite Hrun1 in Hrun; simplify_eq; cbn.
  - do 5 (split; [done|]). split; by left.
  - do 5 (split; [done|]). split; [by left|right].
    by rewrite <-(assoc_L (++)).
  - do 5 (split; [done|]). split; [right|by right].
    split; [done|]. by rewrite Hmk.
Qed.

(** *** The pairs of the two tables *)

Lemma cross_cons c cs rs : cross (c :: cs) rs = ((λ r, (c, r)) <$> rs) ++ cross cs rs.
Proof.
  unfold cross. rewrite bind_cons. f_equal.
Qed.

Lemma cross_singleton c rs : cross [c] rs = (λ r, (c, r)) <$> rs.
Proof. rewrite cross_cons. apply (right_id_L [] (++)). Qed.

Lemma dir_names_singleton c rs :
  dir_names [c] rs
  = sanitize (channel c) :: (time_dir_path (sanitize (channel c)) <$> rs).
Proof. unfold dir_names. rewrite bind_cons. apply (right_id_L [] (++)). Qed.

Lemma cross_split cs1 c cs2 rs1 r rs2 :
  cross (cs1 ++ c :: cs2) (rs1 ++ r :: rs2)
  = (cross cs1 (rs1 ++ r :: rs2) ++ cross [c] rs1)
      ++ (c, r) :: (cross [c] rs2 ++ cross cs2 (rs1 ++ r :: rs2)).
Proof.
  unfold cross at 1. rewrite bind_app, bind_cons. fold (cross cs1 (rs1 ++ r :: rs2)).
  fold (cross cs2 (rs1 ++ r :: rs2)). rewrite bind_app, bind_cons.
  rewrite !cross_singleton, <-!(assoc_L (++)). do 2 f_equal.
Qed.

Lemma cross_app cs1 cs2 rs : cross (cs1 ++ cs2) rs = cross cs1 rs ++ cross cs2 rs.
Proof. unfold cross. apply bind_app. Qed.


Lemma elem_of_cross c r cs rs : (c, r) ∈ cross cs rs ↔ c ∈ cs ∧ r ∈ rs.
Proof.
  unfold cross. rewrite list_elem_of_bind. split.
  - intros (c' & (r' & Hin & Hr')%list_elem_of_bind & Hc').
    apply list_elem_of_singleton in Hin. by simplify_eq.
  - intros [Hc Hr]. exists c. split; [|done].
    apply list_elem_of_bind. exists r. split; [|done]. by left.
Qed.

Lemma dir_names_app cs1 cs2 rs :
  dir_names (cs1 ++ cs2) rs = dir_names cs1 rs ++ dir_names cs2 rs.
Proof. unfold dir_names. apply bind_app. Qed.

Lemma run_events_app data cs1 cs2 rs :
  run_events data (cs1 ++ cs2) rs
  = run_events data cs1 rs ++ run_events data cs2 rs.
Proof. unfold run_events. apply bind_app. Qed.

Lemma run_events_singleton data c rs :
  run_events data [c] rs = channel_events data rs c.
Proof. unfold run_events. rewrite bind_cons. apply (right_id_L [] (++)). Qed.

(** *** Reading a trace *)

Lemma fetch_calls_app t1 t2 :
  fetch_calls (t1 ++ t2) = fetch_calls t1 ++ fetch_calls t2.
Proof. apply omap_app. Qed.

Lemma fin_writes_app t1 t2 :
  fin_writes (t1 ++ t2) = fin_writes t1 ++ fin_writes t2.
Proof. apply omap_app. Qed.

Lemma fetch_calls_channel_events data rs c :
  fetch_calls (channel_events data rs c) = pair_call <$> cross [c] rs.
Proof.
  rewrite cross_singleton. unfold channel_events.
  change (fetch_calls (?e :: ?t)) with (fetch_calls t).
  induction rs as [|r rs IH]; [done|].
  rewrite bind_cons, fetch_calls_app, IH. done.
Qed.

Lemma fetch_calls_run_events data cs rs :
  fetch_calls (run_events data cs rs) = pair_call <$> cross cs rs.
Proof.
  induction cs as [|c cs IH]; [done|].
  change (c :: cs) with ([c] ++ cs).
  rewrite run_events_app, cross_app, fmap_app, fetch_calls_app, IH.
  by rewrite run_events_singleton, fetch_calls_channel_events.
Qed.

Lemma fin_writes_channel_events data rs c :
  fin_writes (channel_events data rs c) = pair_line data <$> cross [c] rs.
Proof.
  rewrite cross_singleton. unfold channel_events.
  change (fin_writes (?e :: ?t)) with (fin_writes t).
  induction rs as [|r rs IH]; [done|].
  rewrite bind_cons, fin_writes_app, IH. done.
Qed.

Lemma fin_writes_run_events data cs rs :
  fin_writes (run_events data cs rs) = pair_line data <$> cross cs rs.
Proof.
  induction cs as [|c cs IH]; [done|].
  change (c :: cs) with ([c] ++ cs).
  rewrite run_events_app, cross_app, fmap_app, fin_writes_app, IH.
  by rewrite run_events_singleton, fin_writes_channel_events.
Qed.

Lemma written_paths_app t1 t2 :
  written_paths (t1 ++ t2) = written_paths t1 ++ written_paths t2.
Proof. apply omap_app. Qed.

Lemma written_paths_channel_events data rs c :
  written_paths (channel_events data rs c)
  = (λ p, (pair_out data p).1) <$> cross [c] rs.
Proof.
  rewrite cross_singleton. unfold channel_events.
  change (written_paths (?e :: ?t)) with (written_paths t).
  induction rs as [|r rs IH]; [done|].
  rewrite bind_cons, written_paths_app, IH. done.
Qed.

Lemma written_paths_run_events data cs rs :
  written_paths (run_events data cs rs)
  = (λ p, (pair_out data p).1) <$> cross cs rs.
Proof.
  induction cs as [|c cs IH]; [done|].
  change (c :: cs) with ([c] ++ cs).
  rewrite run_events_app, cross_app, fmap_app, written_paths_app, IH.
  by rewrite run_events_singleton, written_paths_channel_events.
Qed.


(** *** Directories and files of a run *)

Lemma make_all_subseteq names d : d ⊆ make_all names d.
Proof. apply foldl_made_subseteq. Qed.


Lemma make_all_existing names d :
  (∀ n, n ∈ names → n ∈ d) → make_all names d = d.
Proof. apply foldl_made_existing. Qed.

Lemma write_all_snoc outs o (m : gmap string TimeSeries) :
  write_all (outs ++ [o]) m = <[o.1 := o.2]> (write_all outs m).
Proof. unfold write_all. by rewrite foldl_app. Qed.



Lemma write_all_is_Some outs o (m : gmap string TimeSeries) :
  o ∈ outs → is_Some (write_all outs m !! o.1).
Proof.
  induction outs as [|o' outs IH] using rev_ind; [by intros ?%elem_of_nil|].
  rewrite write_all_snoc. intros [Ho| ->%list_elem_of_singleton]%elem_of_app.
  - destruct (decide (o'.1 = o.1)) as [->|Hne].
    + rewrite lookup_insert_eq. eauto.
    + rewrite lookup_insert_ne by done. by apply IH.
  - rewrite lookup_insert_eq. eauto.
Qed.

Lemma dir_names_time_dir c r cs rs :
  c ∈ cs → r ∈ rs →
  time_dir_path (sanitize (channel c)) r ∈ dir_names cs rs.
Proof.
  intros Hc Hr. unfold dir_names. apply list_elem_of_bind.
  exists c. split; [|done]. right. by apply list_elem_of_fmap_2.
Qed.

Lemma dir_names_channel_dir c cs rs :
  c ∈ cs → sanitize (channel c) ∈ dir_names cs rs.
Proof.
  intros Hc. unfold dir_names. apply list_elem_of_bind.
  exists c. split; [left|done].
Qed.


(** *** The inner loop *)

(** An inner loop that returned has fetched, made and written for every
    time range, in order. *)
Lemma row_loop_Ok channel_name channel_dir (d : TimeRange → TimeSeries) rs w w' :
  (∀ r, r ∈ rs →
     TimeSeries_fetch channel_name (start r) (end_ r) host = Ok (d r)) →
  for_each rs (time_row_body channel_name channel_dir) w = (w', Ok tt) →
  grown w w' (time_dir_path channel_dir <$> rs)
    ((λ r, (output_file channel_name channel_dir r, d r)) <$> rs)
    (concat ((λ r, fin_line (output_file channel_name channel_dir r) (d r))
               <$> rs))
    (r ← rs; pair_events channel_name channel_dir r (d r)).
Proof.
  revert w. induction rs as [|r rs IH]; intros w Hok Hrun.
  - simpl in Hrun. unfold ret in Hrun. simplify_eq. apply grown_refl.
  - rewrite for_each_cons in Hrun.
    destruct (time_row_body channel_name channel_dir r w)
      as [w1 [[]|e]] eqn:Hrun1; [|done].
    apply time_row_body_Ok in Hrun1 as (d1 & Hf1 & _ & _ & Hg1).
    rewrite Hok in Hf1 by left. simplify_eq.
    apply IH in Hrun; [|intros r' Hr'; apply Hok; by right].
    apply (grown_trans _ _ _ _ _ _ _ _ _ _ _ Hg1 Hrun).
Qed.

(** *** One pass through the outer loop body *)

Lemma channel_row_body_made rs c w :
  is_ok (makedirs (sanitize (channel c)) true (dirs w) (regs w)) = true →
  channel_row_body rs c w
  = for_each rs (time_row_body (channel c) (sanitize (channel c)))
      {| dirs := made (sanitize (channel c)) (dirs w); files := files w;
         fin_exists := fin_exists w; fin_txt := fin_txt w;
         fin_buffer := fin_buffer w; fin_pending := fin_pending w;
         trace := trace w ++ [Makedirs (sanitize (channel c))] |}.
Proof.
  intros Hmk.
  destruct (makedirs (sanitize (channel c)) true (dirs w) (regs w))
    as [ds|] eqn:Hmk'; [|done].
  unfold channel_row_body, bind. by rewrite (os_makedirs_Ok _ _ ds).
Qed.

Lemma channel_row_body_mkdir_raise rs c w e :
  makedirs (sanitize (channel c)) true (dirs w) (regs w) = Raise e →
  channel_row_body rs c w = (log (Makedirs (sanitize (channel c))) w, Raise e).
Proof.
  intros Hmk. unfold channel_row_body, bind. by rewrite (os_makedirs_raise _ _ e).
Qed.

Lemma channel_row_body_app rs1 rs2 c w :
  channel_row_body (rs1 ++ rs2) c w
  = bind (channel_row_body rs1 c)
      (λ _, for_each rs2 (time_row_body (channel c) (sanitize (channel c)))) w.
Proof.
  unfold channel_row_body, bind.
  destruct (os_makedirs (sanitize (channel c)) true w) as [w1 [[]|e]]; [|done].
  by rewrite for_each_app.
Qed.

Lemma channel_dir_grown c w :
  grown w {| dirs := made (sanitize (channel c)) (dirs w); files := files w;
             fin_exists := fin_exists w; fin_txt := fin_txt w;
             fin_buffer := fin_buffer w; fin_pending := fin_pending w;
             trace := trace w ++ [Makedirs (sanitize (channel c))] |}
    [sanitize (channel c)] [] "" [Makedirs (sanitize (channel c))].
Proof.
  unfold grown, make_all, write_all, manifest. simpl.
  by rewrite !str_app_nil_r.
Qed.

(** A pass through the outer loop body that returned has made the
    directory of the channel and run the inner loop to its end. *)
Lemma channel_row_body_Ok data rs c w w' :
  (∀ r, r ∈ rs →
     TimeSeries_fetch (channel c) (start r) (end_ r) host = Ok (data c r)) →
  channel_row_body rs c w = (w', Ok tt) →
  is_ok (makedirs (sanitize (channel c)) true (dirs w) (regs w)) = true
  ∧ grown w w' (dir_names [c] rs)
      (pair_out data <$> cross [c] rs)
      (concat (pair_line data <$> cross [c] rs))
      (channel_events data rs c).
Proof.
  intros Hok Hrun.
  destruct (makedirs_cases (sanitize (channel c)) (dirs w) (regs w))
    as [Hmk|[e Hmk]].
  2: { by rewrite (channel_row_body_mkdir_raise _ _ _ e) in Hrun. }
  assert (is_ok (makedirs (sanitize (channel c)) true (dirs w) (regs w)) = true)
    as Hmk' by by rewrite Hmk.
  split; [done|].
  rewrite channel_row_body_made in Hrun by done.
  apply (row_loop_Ok _ _ (data c)) in Hrun; [|done].
  pose proof (grown_trans _ _ _ _ _ _ _ _ _ _ _ (channel_dir_grown c w) Hrun)
    as Hg.
  rewrite cross_singleton, dir_names_singleton, <-!list_fmap_compose.
  exact Hg.
Qed.

(** *** The outer loop *)

Lemma channel_loop_Ok data cs rs w w' :
  (∀ c r, c ∈ cs → r ∈ rs →
     TimeSeries_fetch (channel c) (start r) (end_ r) host = Ok (data c r)) →
  for_each cs (channel_row_body rs) w = (w', Ok tt) →
  grown w w' (dir_names cs rs)
    (pair_out data <$> cross cs rs)
    (concat (pair_line data <$> cross cs rs))
    (run_events data cs rs).
Proof.
  revert w. induction cs as [|c cs IH]; intros w Hok Hrun.
  - simpl in Hrun. unfold ret in Hrun. simplify_eq. apply grown_refl.
  - rewrite for_each_cons in Hrun.
    destruct (channel_row_body rs c w) as [w1 [[]|e]] eqn:Hrun1; [|done].
    apply (channel_row_body_Ok data) in Hrun1 as [_ Hg1];
      [|intros r Hr; apply Hok; [left|done]].
    apply IH in Hrun; [|intros c' r Hc' Hr; apply Hok; [by right|done]].
    pose proof (grown_trans _ _ _ _ _ _ _ _ _ _ _ Hg1 Hrun) as Hg.
    rewrite <-concat_app, <-!fmap_app, <-cross_app, <-dir_names_app,
      <-run_events_singleton, <-run_events_app in Hg.
    exact Hg.
Qed.

(** *** The [with] block *)

Lemma main_unfold cs rs w :
  fin_file ∉ dirs w →
  main cs rs w
  = (fin_close (world_after (for_each cs (channel_row_body rs)) (fin_open w)),
     outcome (for_each cs (channel_row_body rs)) (fin_open w)).
Proof.
  intros Hdir. unfold main, bind. rewrite open_fin_Ok by done.
  unfold finally, world_after, outcome.
  by destruct (for_each cs (channel_row_body rs) (fin_open w)).
Qed.

Lemma main_not_opened cs rs w :
  fin_file ∈ dirs w → main cs rs w = (w, Raise (IsADirectoryError fin_file)).
Proof. intros Hdir. unfold main, bind. by rewrite open_fin_raise. Qed.

Lemma main_Ok_loops cs rs w w' :
  main cs rs w = (w', Ok tt) →
  (fin_file ∉ dirs w)
  ∧ ∃ w1, for_each cs (channel_row_body rs) (fin_open w) = (w1, Ok tt)
          ∧ w' = fin_close w1.
Proof.
  intros Hrun. destruct (decide (fin_file ∈ dirs w)) as [Hdir|Hdir].
  { by rewrite main_not_opened in Hrun. }
  split; [done|]. rewrite main_unfold in Hrun by done.
  unfold world_after, outcome in Hrun.
  destruct (for_each cs (channel_row_body rs) (fin_open w)) as [w1 r].
  simpl in Hrun. simplify_eq. by exists w1.
Qed.

Lemma main_of_loop cs rs w w1 r names outs text t :
  fin_file ∉ dirs w →
  for_each cs (channel_row_body rs) (fin_open w) = (w1, r) →
  grown (fin_open w) w1 names outs text t →
  ∃ w', main cs rs w = (w', r)
    ∧ dirs w' = make_all names (dirs w)
    ∧ files w' = write_all outs (files w)
    ∧ fin_exists w' = true
    ∧ fin_txt w' = fin_txt w +:+ text
    ∧ fin_buffer w' = ""
    ∧ fin_pending w' = ""
    ∧ trace w' = trace w ++ t.
Proof.
  intros Hdir Hrun (D & F & E & Mf & T). exists (fin_close w1). split.
  - rewrite main_unfold by done. unfold world_after, outcome. by rewrite Hrun.
  - destruct (fin_close_spec w1) as (D' & F' & E' & T' & M' & B' & P').
    rewrite D', F', E', T', M', B', P', D, F, E, Mf, T.
    unfold manifest. simpl. by rewrite !str_app_nil_r.
Qed.

(** A run that returned has gone through both tables. *)
Lemma main_Ok data cs rs w w' :
  (∀ c r, c ∈ cs → r ∈ rs →
     TimeSeries_fetch (channel c) (start r) (end_ r) host = Ok (data c r)) →
  main cs rs w = (w', Ok tt) →
  dirs w' = make_all (dir_names cs rs) (dirs w)
  ∧ files w' = write_all (pair_out data <$> cross cs rs) (files w)
  ∧ fin_exists w' = true
  ∧ fin_txt w' = fin_txt w +:+ concat (pair_line data <$> cross cs rs)
  ∧ fin_buffer w' = ""
  ∧ fin_pending w' = ""
  ∧ trace w' = trace w ++ run_events data cs rs.
Proof.
  intros Hok Hrun.
  destruct (main_Ok_loops _ _ _ _ Hrun) as (Hdir & w1 & Hloops & _).
  pose proof (channel_loop_Ok data cs rs _ _ Hok Hloops) as Hg.
  destruct (main_of_loop _ _ _ _ _ _ _ _ _ Hdir Hloops Hg) as (w2 & Hrun2 & Hw2).
  rewrite Hrun in Hrun2. by simplify_eq.
Qed.

(** A run whose passes return up to the fetch of a pair, which raises,
    ends there. *)
Lemma main_raise data cs1 c cs2 rs1 r rs2 e w :
  (∀ c' r', c' ∈ cs1 → r' ∈ rs1 ++ r :: rs2 →
     TimeSeries_fetch (channel c') (start r') (end_ r') host = Ok (data c' r')) →
  (∀ r', r' ∈ rs1 →
     TimeSeries_fetch (channel c) (start r') (end_ r') host = Ok (data c r')) →
  TimeSeries_fetch (channel c) (start r) (end_ r) host = Raise e →
  outcome (open_fin;;
           for_each cs1 (channel_row_body (rs1 ++ r :: rs2));;
           channel_row_body rs1 c)%py w = Ok tt →
  ∃ w', main (cs1 ++ c :: cs2) (rs1 ++ r :: rs2) w = (w', Raise e)
    ∧ dirs w'
      = make_all (dir_names cs1 (rs1 ++ r :: rs2) ++ dir_names [c] rs1) (dirs w)
    ∧ files w'
      = write_all
          (pair_out data <$> (cross cs1 (rs1 ++ r :: rs2) ++ cross [c] rs1))
          (files w)
    ∧ fin_txt w'
      = fin_txt w
          +:+ concat (pair_line data
                        <$> (cross cs1 (rs1 ++ r :: rs2) ++ cross [c] rs1))
    ∧ fin_pending w' = ""
    ∧ trace w'
      = trace w ++ run_events data cs1 (rs1 ++ r :: rs2)
          ++ channel_events data rs1 c
          ++ [Fetch (channel c) (start r) (end_ r) host].
Proof.
  intros Hcs1 Hrs1 Hraise Hbefore.
  unfold outcome, bind in Hbefore.
  destruct (open_fin_cases w) as [[Hdir Hopen]|[_ Hopen]];
    rewrite Hopen in Hbefore; [|done].
  destruct (for_each cs1 (channel_row_body (rs1 ++ r :: rs2)) (fin_open w))
    as [w1 [[]|e1]] eqn:Hrun1; [|done].
  destruct (channel_row_body rs1 c w1) as [w2 [[]|e2]] eqn:Hrun2; [|done].
  clear Hbefore.
  pose proof (channel_loop_Ok data _ _ _ _ Hcs1 Hrun1) as Hg1.
  destruct (channel_row_body_Ok data _ _ _ _ Hrs1 Hrun2) as [_ Hg2].
  assert (grown w2 (log (Fetch (channel c) (start r) (end_ r) host) w2)
            [] [] "" [Fetch (channel c) (start r) (end_ r) host]) as Hg3.
  { unfold grown, make_all, write_all, manifest. simpl.
    by rewrite !str_app_nil_r. }
  pose proof (grown_trans _ _ _ _ _ _ _ _ _ _ _ Hg1
                (grown_trans _ _ _ _ _ _ _ _ _ _ _ Hg2 Hg3)) as Hg.
  rewrite !(right_id_L [] (++)), str_app_nil_r, <-concat_app, <-!fmap_app in Hg.
  assert (for_each (cs1 ++ c :: cs2) (channel_row_body (rs1 ++ r :: rs2))
            (fin_open w)
          = (log (Fetch (channel c) (start r) (end_ r) host) w2, Raise e))
    as Hrun.
  { rewrite for_each_app. unfold bind. rewrite Hrun1, for_each_cons.
    rewrite channel_row_body_app. unfold bind. rewrite Hrun2, for_each_cons.
    by rewrite (time_row_body_raise _ _ _ e). }
  destruct (main_of_loop _ _ _ _ _ _ _ _ _ Hdir Hrun Hg)
    as (w' & Hmain & D & F & _ & Mf & _ & P & T).
  by exists w'.
Qed.

(** *** What every stretch of a run keeps *)

Lemma regs_mono w w' :
  dom (files w) ⊆ dom (files w') →
  (fin_exists w = true → fin_exists w' = true) →
  regs w ⊆ regs w'.
Proof.
  intros Hf He p. unfold regs. rewrite !elem_of_union.
  intros [Hp|Hp]; [left; by apply Hf|right].
  destruct (fin_exists w); [|by apply elem_of_empty in Hp].
  by rewrite He.
Qed.

Lemma kept_refl w : kept w w.
Proof. by repeat split. Qed.

Lemma kept_trans w1 w2 w3 : kept w1 w2 → kept w2 w3 → kept w1 w3.
Proof.
  intros (D1 & F1 & E1 & T1 & K1) (D2 & F2 & E2 & T2 & K2).
  split; [by etrans|]. split; [by etrans|]. split; [by auto|].
  split; [by etrans|].
  intros p Hp Hd. apply K2; [|by apply K1].
  by apply (regs_mono w1 w2).
Qed.

Lemma kept_log e w : kept w (log e w).
Proof.
  split; [done|]. split; [done|]. split; [done|]. split; [|done].
  by apply prefix_app_r.
Qed.

Lemma kept_os_makedirs name w : kept w (world_after (os_makedirs name true) w).
Proof.
  unfold world_after.
  destruct (makedirs name true (dirs w) (regs w)) as [d|e] eqn:Hmk.
  - rewrite (os_makedirs_Ok _ _ d) by done. cbn.
    apply makedirs_Ok in Hmk as (-> & _ & Hk).
    split; [apply made_subseteq|]. split; [done|]. split; [done|].
    split; [by apply prefix_app_r|]. intros p Hp Hd Hin. by apply Hd, Hk.
  - rewrite (os_makedirs_raise _ _ e) by done. apply kept_log.
Qed.

Lemma kept_time_row_body channel_name channel_dir r w :
  kept w (world_after (time_row_body channel_name channel_dir r) w).
Proof.
  unfold world_after.
  destruct (time_row_body_cases channel_name channel_dir r w)
    as [(d & w1 & _ & Hmk & _ & Hrun1 & (D & F & E & _ & T))
       |[(e1 & _ & Hrun1)
        |[(d & e1 & _ & _ & Hrun1)|(d & e1 & _ & Hmk & _ & Hrun1)]]];
    rewrite Hrun1; cbn [fst].
  - apply makedirs_Ok in Hmk as (_ & _ & Hk).
    unfold make_all, write_all in D, F. cbn in D, F.
    split; [rewrite D; apply made_subseteq|].
    split; [rewrite F, dom_insert_L; apply union_subseteq_r|].
    split; [by rewrite E|]. split; [rewrite T; by apply prefix_app_r|].
    intros p Hp Hd. rewrite D. intros Hin. by apply Hd, Hk.
  - apply kept_log.
  - eapply kept_trans; apply kept_log.
  - apply makedirs_Ok in Hmk as (_ & _ & Hk). cbn.
    split; [apply made_subseteq|]. split; [done|]. split; [done|].
    split; [by apply prefix_app_r|]. intros p Hp Hd Hin. by apply Hd, Hk.
Qed.

Lemma kept_fin_open w : kept w (fin_open w).
Proof. by repeat split. Qed.

Lemma kept_fin_close w : kept w (fin_close w).
Proof.
  destruct (fin_close_spec w) as (D & F & E & T & _).
  unfold kept. rewrite D, F, E, T. by repeat split.
Qed.




(** A property of the worlds before and after that every pass through
    the inner loop body keeps, and that asking for a directory, opening
    and closing [fin] keep, is kept by the whole run, however it ends. *)
Lemma main_preserves (R : World → World → Prop) cs rs w :
  (∀ w, R w w) → (∀ w1 w2 w3, R w1 w2 → R w2 w3 → R w1 w3) →
  (∀ cn cd r w, R w (world_after (time_row_body cn cd r) w)) →
  (∀ name w, R w (world_after (os_makedirs name true) w)) →
  (∀ w, R w (fin_open w)) → (∀ w, R w (fin_close w)) →
  R w (world_after (main cs rs) w).
Proof.
  intros Hrefl Htrans Hbody Hmk Hopen Hclose. unfold world_after.
  destruct (decide (fin_file ∈ dirs w)) as [Hdir|Hdir].
  { by rewrite main_not_opened. }
  rewrite main_unfold by done. cbn [fst].
  eapply Htrans; [apply Hopen|]. eapply Htrans; [|apply Hclose].
  apply (for_each_preserves R); [done..|].
  intros c w1. apply (bind_preserves R); [done|apply Hmk|].
  intros _ w2. apply (for_each_preserves R); [done..|]. intros r w3. apply Hbody.
Qed.

Lemma kept_main cs rs w : kept w (world_after (main cs rs) w).
Proof.
  apply main_preserves.
  - apply kept_refl.
  - apply kept_trans.
  - apply kept_time_row_body.
  - apply kept_os_makedirs.
  - apply kept_fin_open.
  - apply kept_fin_close.
Qed.

(** *** The manifest along any run *)

Lemma recorded_refl w : recorded w w.
Proof.
  exists []. by rewrite (right_id_L [] (++)), str_app_nil_r.
Qed.

Lemma recorded_trans w1 w2 w3 : recorded w1 w2 → recorded w2 w3 → recorded w1 w3.
Proof.
  intros (t1 & T1 & M1) (t2 & T2 & M2). exists (t1 ++ t2).
  rewrite T2, T1, M2, M1, fin_writes_app, concat_app.
  by rewrite (assoc_L (++)), str_app_assoc.
Qed.

Lemma grown_recorded w w' names outs text t :
  grown w w' names outs text t → concat (fin_writes t) = text → recorded w w'.
Proof. intros (_ & _ & _ & Mf & T) Ht. exists t. by rewrite Ht. Qed.

Lemma fin_writes_pair_events channel_name channel_dir r d :
  fin_writes (pair_events channel_name channel_dir r d)
  = [fin_line (output_file channel_name channel_dir r) d].
Proof. done. Qed.

Lemma recorded_time_row_body channel_name channel_dir r w :
  recorded w (world_after (time_row_body channel_name channel_dir r) w).
Proof.
  unfold world_after.
  destruct (time_row_body channel_name channel_dir r w) as [w' [[]|e]] eqn:Hrun.
  - apply time_row_body_Ok in Hrun as (d & _ & _ & _ & Hg).
    apply (grown_recorded _ _ _ _ _ _ Hg).
    rewrite fin_writes_pair_events. simpl. apply str_app_nil_r.
  - apply time_row_body_Raise in Hrun as (_ & _ & Ht & Hb & Hp & _ & T).
    cbn [fst]. unfold recorded, manifest. rewrite Ht, Hb, Hp.
    destruct T as [T|T]; rewrite T; eexists; (split; [done|]);
      simpl; by rewrite !str_app_nil_r.
Qed.

Lemma recorded_os_makedirs name w :
  recorded w (world_after (os_makedirs name true) w).
Proof.
  exists [Makedirs name]. unfold world_after, os_makedirs, manifest.
  destruct (makedirs name true (dirs w) (regs w)); simpl;
    by rewrite !str_app_nil_r.
Qed.

Lemma recorded_channel_loop cs rs w :
  recorded w (world_after (for_each cs (channel_row_body rs)) w).
Proof.
  apply (for_each_preserves recorded); [apply recorded_refl|apply recorded_trans|].
  intros c w1.
  apply (bind_preserves recorded);
    [apply recorded_trans|apply recorded_os_makedirs|].
  intros _ w2.
  apply (for_each_preserves recorded); [apply recorded_refl|apply recorded_trans|].
  intros r w3. apply recorded_time_row_body.
Qed.

(** However the run ends, what is in the manifest file after it is what
    was there before followed by everything handed to [fin.write]; and
    once [fin] has been opened nothing is left in it when the [with]
    block has been left. *)
Lemma main_recorded cs rs w :
  ∃ t, trace (world_after (main cs rs) w) = trace w ++ t
       ∧ fin_txt (world_after (main cs rs) w)
         = fin_txt w +:+ concat (fin_writes t)
       ∧ (fin_file ∉ dirs w →
          fin_buffer (world_after (main cs rs) w) = ""
          ∧ fin_pending (world_after (main cs rs) w) = "").
Proof.
  unfold world_after.
  destruct (decide (fin_file ∈ dirs w)) as [Hdir|Hdir].
  { rewrite main_not_opened by done. exists [].
    by rewrite (right_id_L [] (++)), str_app_nil_r. }
  rewrite main_unfold by done. cbn [fst].
  destruct (recorded_channel_loop cs rs (fin_open w)) as (t & T & Mf).
  destruct (fin_close_spec
              (world_after (for_each cs (channel_row_body rs)) (fin_open w)))
    as (_ & _ & _ & T' & M' & B' & P').
  exists t. rewrite T', M', B', P', T, Mf. unfold manifest. simpl.
  by rewrite !str_app_nil_r.
Qed.

(** *** The fetch calls of any run *)

Lemma row_loop_calls channel_name channel_dir rs w :
  ∃ t, trace (world_after (for_each rs (time_row_body channel_name channel_dir)) w)
       = trace w ++ t
    ∧ fetch_calls t
        `prefix_of` ((λ r, (channel_name, start r, end_ r, host)) <$> rs)
    ∧ (outcome (for_each rs (time_row_body channel_name channel_dir)) w = Ok tt →
       fetch_calls t = (λ r, (channel_name, start r, end_ r, host)) <$> rs).
Proof.
  revert w. induction rs as [|r rs IH]; intros w.
  - exists []. split; [by rewrite (right_id_L [] (++))|]. done.
  - unfold world_after, outcome. rewrite for_each_cons.
    destruct (time_row_body channel_name channel_dir r w)
      as [w1 [[]|e]] eqn:Hrun1.
    + apply time_row_body_Ok in Hrun1 as (d & _ & _ & _ & (_ & _ & _ & _ & T)).
      destruct (IH w1) as (t & Ht & Hpre & Hall).
      exists (pair_events channel_name channel_dir r d ++ t).
      unfold world_after, outcome in *.
      split; [by rewrite Ht, T, (assoc_L (++))|].
      rewrite fetch_calls_app. split.
      * by apply (prefix_app [_]).
      * intros Hok. by rewrite (Hall Hok).
    + apply time_row_body_Raise in Hrun1 as (_ & _ & _ & _ & _ & _ & T).
      cbn [fst snd].
      destruct T as [T|T]; rewrite T; eexists; (split; [done|]);
        (split; [|done]); apply (prefix_app [_] []), prefix_nil.
Qed.

Lemma channel_row_body_calls rs c w :
  ∃ t, trace (world_after (channel_row_body rs c) w) = trace w ++ t
    ∧ fetch_calls t `prefix_of` (pair_call <$> cross [c] rs)
    ∧ (outcome (channel_row_body rs c) w = Ok tt →
       fetch_calls t = pair_call <$> cross [c] rs).
Proof.
  rewrite cross_singleton, <-list_fmap_compose.
  destruct (makedirs_cases (sanitize (channel c)) (dirs w) (regs w))
    as [Hmk|[e Hmk]].
  - unfold world_after, outcome.
    rewrite channel_row_body_made by by rewrite Hmk.
    match goal with
    | |- context [for_each rs _ ?w0] =>
        destruct (row_loop_calls (channel c) (sanitize (channel c)) rs w0)
          as (t1 & Ht1 & Hpre1 & Hall1)
    end.
    unfold world_after, outcome in Ht1, Hall1. cbn [trace] in Ht1.
    exists (Makedirs (sanitize (channel c)) :: t1).
    split; [by rewrite Ht1, <-(assoc_L (++))|]. done.
  - unfold world_after, outcome.
    rewrite (channel_row_body_mkdir_raise _ _ _ e) by done.
    exists [Makedirs (sanitize (channel c))]. split; [done|].
    split; [apply prefix_nil|done].
Qed.

Lemma channel_loop_calls cs rs w :
  ∃ t, trace (world_after (for_each cs (channel_row_body rs)) w) = trace w ++ t
    ∧ fetch_calls t `prefix_of` (pair_call <$> cross cs rs)
    ∧ (outcome (for_each cs (channel_row_body rs)) w = Ok tt →
       fetch_calls t = pair_call <$> cross cs rs).
Proof.
  revert w. induction cs as [|c cs IH]; intros w.
  - exists []. split; [by rewrite (right_id_L [] (++))|]. done.
  - replace (cross (c :: cs) rs) with (cross [c] rs ++ cross cs rs)
      by (by rewrite (cross_cons c cs), cross_singleton).
    rewrite fmap_app.
    destruct (channel_row_body_calls rs c w) as (t1 & Ht1 & Hpre1 & Hall1).
    unfold world_after, outcome in *. rewrite for_each_cons.
    destruct (channel_row_body rs c w) as [w1 [[]|e]]; cbn [fst snd] in *.
    + destruct (IH w1) as (t2 & Ht2 & Hpre2 & Hall2).
      exists (t1 ++ t2).
      split; [by rewrite Ht2, Ht1, <-!(assoc_L (++))|].
      rewrite fetch_calls_app, (Hall1 eq_refl). split.
      * by apply prefix_app.
      * intros Hok. by rewrite (Hall2 Hok).
    + exists t1. split; [done|]. split; [|done]. by apply prefix_app_r.
Qed.

Lemma main_calls cs rs w :
  ∃ t, trace (world_after (main cs rs) w) = trace w ++ t
    ∧ fetch_calls t `prefix_of` (pair_call <$> cross cs rs)
    ∧ (outcome (main cs rs) w = Ok tt →
       fetch_calls t = pair_call <$> cross cs rs).
Proof.
  unfold world_after, outcome.
  destruct (decide (fin_file ∈ dirs w)) as [Hdir|Hdir].
  { rewrite main_not_opened by done. exists [].
    split; [by rewrite (right_id_L [] (++))|]. split; [apply prefix_nil|done]. }
  rewrite main_unfold by done. cbn [fst snd].
  destruct (fin_close_spec
              (world_after (for_each cs (channel_row_body rs)) (fin_open w)))
    as (_ & _ & _ & T' & _).
  rewrite T'. exact (channel_loop_calls cs rs (fin_open w)).
Qed.

(** *** The paths of a pair *)

Lemma run_events_pair_events data cs rs c r e :
  c ∈ cs → r ∈ rs →
  e ∈ pair_events (channel c) (sanitize (channel c)) r (data c r) →
  e ∈ run_events data cs rs.
Proof.
  intros Hc Hr He. unfold run_events. apply list_elem_of_bind.
  exists c. split; [|done]. unfold channel_events. right.
  apply list_elem_of_bind. by exists r.
Qed.





(** *** The passes of a run that returned *)





(** *** A run over a tree that is already there *)





(** The pass in which nothing raises leaves a short line pending. *)
Lemma time_row_body_pending channel_name channel_dir time_row d w w' :
  TimeSeries_fetch channel_name (start time_row) (end_ time_row) host = Ok d →
  time_row_body channel_name channel_dir time_row w = (w', Ok tt) →
  let line := fin_line (output_file channel_name channel_dir time_row) d in
  (len (fin_pending w) + len line < CHUNK_SIZE)%N →
  fin_txt w' = fin_txt w ∧ fin_buffer w' = fin_buffer w
  ∧ fin_pending w' = fin_pending w +:+ line.
Proof.
  intros Hfetch Hrun line Hshort.
  pose proof (time_row_body_Ok _ _ _ _ _ Hrun) as (d' & Hf & Hmk & Hc & _).
  rewrite Hfetch in Hf. simplify_eq.
  unfold time_row_body, bind, fetch in Hrun. rewrite Hfetch in Hrun.
  rewrite (os_makedirs_Ok _ _ (made (time_dir_path channel_dir time_row) (dirs w)))
    in Hrun by exact Hmk.
  rewrite write_Ok in Hrun by exact Hc.
  unfold print, effect in Hrun.
  cbn [log dirs files fin_exists fin_txt fin_buffer fin_pending trace] in Hrun.
  match type of Hrun with
  | (let (_, _) := fin_write ?l ?w3 in _) = _ =>
      destruct (fin_write_pending l w3 Hshort) as (Ht & Hb & Hp);
      change (fin_write l w3) with (world_after (fin_write l) w3, Ok tt) in Hrun
  end.
  cbn [log fin_txt fin_buffer fin_pending] in Ht, Hb, Hp.
  cbv beta iota in Hrun. injection Hrun as <-.
  cbn [log fin_txt fin_buffer fin_pending]. done.
Qed.

(** *** The claims about the driver *)





(** C9.  When the fetch of a pair raises, the passes before it (in the
    order of the nested loops) having returned, the run ends with that
    exception.  The fetch calls are those of the earlier pairs and the
    failing one; files are written and texts handed to [fin.write] for
    the earlier pairs only; and the manifest file, closed by the [with]
    block, holds what it held before followed by the lines of the earlier
    pairs. *)
Theorem fetch_failure_ends_batch data cs1 c cs2 rs1 r rs2 e w :
  (∀ c' r', c' ∈ cs1 → r' ∈ rs1 ++ r :: rs2 →
     TimeSeries_fetch (channel c') (start r') (end_ r') host = Ok (data c' r')) →
  (∀ r', r' ∈ rs1 →
     TimeSeries_fetch (channel c) (start r') (end_ r') host = Ok (data c r')) →
  TimeSeries_fetch (channel c) (start r) (end_ r) host = Raise e →
  outcome (open_fin;;
           for_each cs1 (channel_row_body (rs1 ++ r :: rs2));;
           channel_row_body rs1 c)%py w = Ok tt →
  let cs := cs1 ++ c :: cs2 in
  let rs := rs1 ++ r :: rs2 in
  let earlier := cross cs1 rs ++ cross [c] rs1 in
  let w' := world_after (main cs rs) w in
  cross cs rs = earlier ++ (c, r) :: (cross [c] rs2 ++ cross cs2 rs)
  ∧ outcome (main cs rs) w = Raise e
  ∧ fetch_calls (trace w')
    = fetch_calls (trace w) ++ (pair_call <$> earlier) ++ [pair_call (c, r)]
  ∧ written_paths (trace w')
    = written_paths (trace w) ++ ((λ p, (pair_out data p).1) <$> earlier)
  ∧ files w' = write_all (pair_out data <$> earlier) (files w)
  ∧ fin_writes (trace w')
    = fin_writes (trace w) ++ (pair_line data <$> earlier)
  ∧ fin_txt w' = fin_txt w +:+ concat (pair_line data <$> earlier)
  ∧ fin_pending w' = "".
Proof.
  intros Hcs1 Hrs1 Hraise Hbefore cs rs earlier w'.
  destruct (main_raise data cs1 c cs2 rs1 r rs2 e w Hcs1 Hrs1 Hraise Hbefore)
    as (w1 & Hrun & _ & F & Mf & P & T).
  split; [apply cross_split|].
  subst w'. unfold world_after, outcome. fold cs rs in Hrun. rewrite Hrun.
  simpl. fold rs earlier in F, Mf, T.
  split; [done|].
  rewrite T, F, Mf, P, !fetch_calls_app, !written_paths_app, !fin_writes_app.
  rewrite fetch_calls_run_events, fetch_calls_channel_events.
  rewrite written_paths_run_events, written_paths_channel_events.
  rewrite fin_writes_run_events, fin_writes_channel_events.
  unfold earlier. rewrite !fmap_app. simpl.
  rewrite !(right_id_L [] (++)), <-!(assoc_L (++)).
  repeat split; reflexivity.
Qed.

(** C5 (amended).  A pass through the loop body that returns ends with
    the line of the pair written to the file object [fin], after
    everything written before; the script does not flush: a line that
    leaves the pending text of [fin] shorter than a chunk of 8192 bytes
    stays pending, and the manifest file is as it was.  When the run is
    over, however it ends, the manifest file holds what it held before
    the run followed by every text handed to [fin.write] during the run,
    in order, and nothing is left in [fin]. *)
Theorem manifest_line_written_not_flushed :
  (∀ channel_name channel_dir time_row w,
     outcome (time_row_body channel_name channel_dir time_row) w = Ok tt →
     ∃ data : TimeSeries,
       TimeSeries_fetch channel_name (start time_row) (end_ time_row) host
         = Ok data
       ∧ let w' := world_after
                     (time_row_body channel_name channel_dir time_row) w in
         let line :=
           fin_line (output_file channel_name channel_dir time_row) data in
         manifest w' = manifest w +:+ line
         ∧ fin_writes (trace w') = fin_writes (trace w) ++ [line]
         ∧ ((len (fin_pending w) + len line < CHUNK_SIZE)%N →
            fin_txt w' = fin_txt w ∧ fin_buffer w' = fin_buffer w
            ∧ fin_pending w' = fin_pending w +:+ line))
  ∧ (∀ cs rs w,
       let w' := world_after (main cs rs) w in
       ∃ t, trace w' = trace w ++ t
            ∧ fin_txt w' = fin_txt w +:+ concat (fin_writes t)
            ∧ (fin_file ∉ dirs w → fin_buffer w' = "" ∧ fin_pending w' = "")).
Proof.
  split.
  - intros channel_name channel_dir time_row w Hout.
    pose proof (run_split (time_row_body channel_name channel_dir time_row) w)
      as Hrun.
    rewrite Hout in Hrun.
    pose proof (time_row_body_Ok _ _ _ _ _ Hrun)
      as (data & Hfetch & _ & _ & (_ & _ & _ & Mf & T)).
    exists data. split; [done|]. intros w' line. subst w'.
    split; [done|]. split.
    { by rewrite T, fin_writes_app, fin_writes_pair_events. }
    intros Hshort.
    by apply (time_row_body_pending channel_name channel_dir time_row data).
  - intros cs rs w. apply main_recorded.
Qed.

(** C6 (amended).  The outer loop body asks for the channel directory
    [<sanitize(channel)>] first: when that returns the directory exists
    and the inner loop runs from there, so that the directory exists at
    every fetch of the channel (directories are never removed); when it
    raises, the pass ends there.  The inner loop body calls the remote
    fetch first.  When the fetch returns, the time-range subdirectory is
    asked for next, and when that returns it exists and the output file
    is written next, or the writer raises; when the fetch raises, the
    pass ends there and no directory has been created. *)
Theorem fetch_then_time_dir :
  (∀ rs c w,
     let w1 := world_after (os_makedirs (sanitize (channel c)) true) w in
     trace w1 = trace w ++ [Makedirs (sanitize (channel c))]
     ∧ match outcome (os_makedirs (sanitize (channel c)) true) w with
       | Ok _ =>
           channel_row_body rs c w
           = for_each rs (time_row_body (channel c) (sanitize (channel c))) w1
           ∧ sanitize (channel c) ∈ dirs w1
       | Raise e =>
           channel_row_body rs c w = (w1, Raise e) ∧ dirs w1 = dirs w
       end)
  ∧ (∀ channel_name channel_dir time_row w,
       let body := time_row_body channel_name channel_dir time_row in
       let td := time_dir_path channel_dir time_row in
       let out := output_file channel_name channel_dir time_row in
       let call := Fetch channel_name (start time_row) (end_ time_row) host in
       let w' := world_after body w in
       dirs w ⊆ dirs w'
       ∧ match TimeSeries_fetch channel_name (start time_row) (end_ time_row) host with
         | Ok data =>
             ∃ t, trace w' = trace w ++ call :: Makedirs td :: t
                  ∧ match makedirs td true (dirs w) (regs w) with
                    | Ok _ =>
                        td ∈ dirs w'
                        ∧ match create_error out (made td (dirs w)) (regs w) with
                          | None =>
                              (∃ t', t = WriteGwf out :: t')
                              ∧ outcome body w = Ok tt
                          | Some _ =>
                              t = []
                              ∧ outcome body w = Raise (write_failure out)
                          end
                    | Raise e =>
                        t = [] ∧ dirs w' = dirs w ∧ outcome body w = Raise e
                    end
         | Raise e =>
             trace w' = trace w ++ [call]
             ∧ dirs w' = dirs w
             ∧ outcome body w = Raise e
         end).
Proof.
  split.
  - intros rs c w w1. subst w1.
    unfold channel_row_body, bind, world_after, outcome, os_makedirs.
    destruct (makedirs (sanitize (channel c)) true (dirs w) (regs w))
      as [ds|e] eqn:Hmk; cbn; [|done].
    split; [done|]. split; [done|].
    apply makedirs_Ok in Hmk as (-> & _). apply made_elem.
  - intros channel_name channel_dir time_row w body td out call w'.
    pose proof (kept_time_row_body channel_name channel_dir time_row w)
      as (Hsub & _).
    split; [done|]. subst w' body td out call. unfold world_after, outcome.
    destruct (time_row_body_cases channel_name channel_dir time_row w)
      as [(d & w1 & Hf & Hmk & Hc & Hrun & (D & _ & _ & _ & T))
         |[(e1 & Hf & Hrun)
          |[(d & e1 & Hf & Hmk & Hrun)|(d & e1 & Hf & Hmk & Hc & Hrun)]]];
      rewrite Hf; try rewrite Hmk; try rewrite Hc; rewrite Hrun; cbn.
    + unfold make_all in D. cbn in D. eexists. split; [by rewrite T|].
      split; [rewrite D; apply made_elem|]. split; [by eexists|done].
    + done.
    + exists []. by rewrite <-(assoc_L (++)).
    + exists []. split; [done|]. split; [apply made_elem|done].
Qed.
End Driver.

(** *** The claims on the sample collaborators *)

Import Sample MoreSamples.






Lemma manifest_line_written_not_flushed_witness :
  outcome (time_row_body "H1:A" "H1_A" range_1) (fin_open empty_world) = Ok tt
  ∧ manifest (world_after (time_row_body "H1:A" "H1_A" range_1)
                (fin_open empty_world))
    = "/data/H1_A/1238166018_1238170549/H1_A_1238166018_1238170549.gwf 1238166018 0.0625 0 0"
        +:+ LF.
Proof.
  destruct manifest_line_written_not_flushed as [Hpair _].
  destruct (Hpair "H1:A" "H1_A" range_1 (fin_open empty_world) eq_refl)
    as (data & Hfetch & Hm & _).
  injection Hfetch as <-.
  split; [reflexivity|exact Hm].
Defined.

Lemma fetch_failure_ends_batch_witness :
  (TimeSeries_fetch (channel chan_missing) (start range_2) (end_ range_2) host
     = Raise (Exn "RuntimeError" "no data")
   ∧ outcome (open_fin;;
              for_each [chan_a]
                (channel_row_body ([range_1] ++ range_2 :: [range_3]));;
              channel_row_body [range_1] chan_missing)%py empty_world = Ok tt)
  ∧ let w' := world_after (main [chan_a; chan_missing; chan_b]
                             [range_1; range_2; range_3]) empty_world in
    fetch_calls (trace w')
    = [("H1:A", 1238166018, 1238170549, "nds.gwosc.org")%Z;
       ("H1:A", 10, 20, "nds.gwosc.org")%Z;
       ("H1:A", 20, 30, "nds.gwosc.org")%Z;
       ("H1:MISSING", 1238166018, 1238170549, "nds.gwosc.org")%Z;
       ("H1:MISSING", 10, 20, "nds.gwosc.org")%Z]
    ∧ written_paths (trace w')
      = ["H1_A/1238166018_1238170549/H1_A_1238166018_1238170549.gwf";
         "H1_A/10_20/H1_A_10_20.gwf"; "H1_A/20_30/H1_A_20_30.gwf";
         "H1_MISSING/1238166018_1238170549/H1_MISSING_1238166018_1238170549.gwf"].
Proof.
  assert (∀ c' r', c' ∈ [chan_a] → r' ∈ [range_1] ++ range_2 :: [range_3] →
            TimeSeries_fetch (channel c') (start r') (end_ r') host
            = Ok (sample_data c' r')) as Hcs1.
  { intros c' r' ->%list_elem_of_singleton _. reflexivity. }
  assert (∀ r', r' ∈ [range_1] →
            TimeSeries_fetch (channel chan_missing) (start r') (end_ r') host
            = Ok (sample_data chan_missing r')) as Hrs1.
  { intros r' ->%list_elem_of_singleton. reflexivity. }
  destruct (fetch_failure_ends_batch sample_data [chan_a] chan_missing [chan_b]
              [range_1] range_2 [range_3] (Exn "RuntimeError" "no data")
              empty_world Hcs1 Hrs1 eq_refl eq_refl)
    as (_ & _ & Hcalls & Hpaths & _).
  split; [split; reflexivity|]. split; [exact Hcalls|exact Hpaths].
Defined.



(** With a ["/"] inside the channel identifier the paths are as C2 says,
    but the run ends when the writer raises: the output file would lie
    in a directory that was never made. *)
Lemma nested_channel_write_fails :
  time_dir_path (sanitize (channel chan_nested)) range_2 = "H1_A/B/10_20"
  ∧ output_file (channel chan_nested) (sanitize (channel chan_nested)) range_2
    = "H1_A/B/10_20/H1_A/B_10_20.gwf"
  ∧ outcome (main [chan_nested] [range_2]) empty_world
    = Raise (write_failure "H1_A/B/10_20/H1_A/B_10_20.gwf")
  ∧ trace (world_after (main [chan_nested] [range_2]) empty_world)
    = [Makedirs "H1_A/B"; Fetch "H1:A/B" 10 20 "nds.gwosc.org";
       Makedirs "H1_A/B/10_20"].
Proof. vm_compute. by repeat split. Qed.


(** C5, as stated, fails: after a pair has been processed the manifest
    file is as it was before; the line of the pair is pending in [fin]. *)
Lemma manifest_line_not_flushed_after_pair :
  let body := time_row_body "H1:A" "H1_A" range_1 in
  let line :=
    "/data/H1_A/1238166018_1238170549/H1_A_1238166018_1238170549.gwf 1238166018 0.0625 0 0"
      +:+ LF in
  outcome body (fin_open empty_world) = Ok tt
  ∧ fin_txt (world_after body (fin_open empty_world)) = ""
  ∧ fin_pending (world_after body (fin_open empty_world)) = line
  ∧ fin_txt (world_after body (fin_open empty_world))
    ≠ fin_txt (fin_open empty_world) +:+ line.
Proof. vm_compute. repeat split; [reflexivity..|discriminate]. Qed.

(** C6, as stated, fails: the fetch of a pair is called when only the
    channel directory exists; the time-range subdirectory is created
    after it. *)
Lemma fetch_precedes_time_dir :
  let w' := world_after (main [chan_a] [range_1]) empty_world in
  take 3 (trace w')
  = [Makedirs "H1_A";
     Fetch "H1:A" 1238166018 1238170549 "nds.gwosc.org";
     Makedirs "H1_A/1238166018_1238170549"]
  ∧ "H1_A/1238166018_1238170549"
      ∉ dirs (world_after (os_makedirs "H1_A" true) (fin_open empty_world)).
Proof.
  split; [vm_compute; reflexivity|].
  eapply (bool_decide_eq_false_1 _). vm_compute. reflexivity.
Qed.

End FetchDatFacts.

(** ** The discovery-based variant *)

Module OsdfDemoFacts.
Import OsdfDemo PyFacts.

Section Script.
Context `{Collaborators}.
Implicit Types (w : World) (row : Row) (url : string).

Lemma gets_app t1 t2 : gets (t1 ++ t2) = gets t1 ++ gets t2.
Proof. apply omap_app. Qed.

(** *** Paths *)

Lemma base_dir_endswith_sep row : endswith_sep (base_dir row) = false.
Proof.
  unfold base_dir.
  replace (channel_name +:+ "/" +:+ str_int (start row) +:+ "_"
             +:+ str_int (end_ row))
    with ((channel_name +:+ "/" +:+ str_int (start row) +:+ "_")
            +:+ str_int (end_ row))
    by (by rewrite !str_app_assoc).
  apply endswith_sep_str_int.
Qed.

Lemma filepath_sep row :
  filepath row = base_dir row +:+ "/" +:+ filename row.
Proof.
  unfold filepath. apply os_path_join_sep;
    [done|apply base_dir_endswith_sep|done].
Qed.

Lemma filepath_longer row :
  String.length (base_dir row) < String.length (filepath row).
Proof. rewrite filepath_sep, str_length_app. simpl. lia. Qed.

Lemma segment_no_sep row :
  contains "/" (str_int (start row) +:+ "_" +:+ str_int (end_ row)) = false.
Proof. by rewrite !contains_app, !str_int_no_sep. Qed.

Lemma filename_no_sep row : contains "/" (filename row) = false.
Proof.
  unfold filename. by rewrite !contains_app, !str_int_no_sep.
Qed.

(** The file of a row lies in the directory of the row. *)
Lemma dirname_filepath row : dirname (filepath row) = base_dir row.
Proof.
  rewrite filepath_sep.
  apply dirname_join; [done|apply base_dir_endswith_sep|apply filename_no_sep].
Qed.

(** No file the script saves is in the way of a directory it asks
    for. *)
Lemma filepath_not_ancestor row row' :
  filepath row' ∉ ancestors (base_dir row).
Proof.
  intros [rest Hrest]%ancestors_prefix.
  rewrite filepath_sep in Hrest. unfold base_dir in Hrest.
  rewrite !str_app_assoc in Hrest.
  apply str_app_inv_head in Hrest.
  change ("/" +:+ str_int (start row) +:+ "_" +:+ str_int (end_ row))
    with (String "/" (str_int (start row) +:+ "_" +:+ str_int (end_ row)))
    in Hrest.
  change ("/" +:+ str_int (start row') +:+ "_" +:+ str_int (end_ row')
            +:+ "/" +:+ filename row' +:+ rest)
    with (String "/" (str_int (start row') +:+ "_" +:+ str_int (end_ row')
            +:+ "/" +:+ filename row' +:+ rest)) in Hrest.
  injection Hrest as Hrest.
  apply (f_equal (contains "/")) in Hrest.
  rewrite segment_no_sep in Hrest.
  rewrite !contains_app, !str_int_no_sep in Hrest. done.
Qed.

(** Once the directory of a row exists, the file of the row can be
    created unless its path is a directory. *)
Lemma create_error_filepath row w :
  base_dir row ∈ dirs w → filepath row ∉ dirs w →
  create_error (filepath row) (dirs w) (regs w) = None.
Proof.
  intros Hbase Hdir. apply create_error_None. split; [done|]. split.
  - rewrite filepath_sep. by intros [? _]%str_app_eq_nil.
  - rewrite dirname_filepath. unfold parent_exists.
    apply orb_true_iff. right. by apply bool_decide_eq_true_2.
Qed.

(** *** One pass through the loop over the URLs *)

Lemma url_body_raise row url e w :
  rp_get_content url = Raise e →
  url_body row url w
  = ({| dirs := dirs w; files := files w;
        trace := trace w
          ++ [Print ("Downloading: " +:+ url); Get url;
              Print ("Failed to download " +:+ url +:+ ": " +:+ exn_msg e)] |},
     Ok tt).
Proof.
  intros Hget. unfold url_body, bind, try_except, print, effect, rp_get, log.
  simpl. rewrite Hget. simpl. by rewrite <-!(assoc_L (++)).
Qed.

Lemma url_body_save_raise row url c e w :
  rp_get_content url = Ok c →
  create_error (filepath row) (dirs w) (regs w) = Some e →
  url_body row url w
  = ({| dirs := dirs w; files := files w;
        trace := trace w
          ++ [Print ("Downloading: " +:+ url); Get url;
              Print ("Failed to download " +:+ url +:+ ": " +:+ exn_msg e)] |},
     Ok tt).
Proof.
  intros Hget Hc.
  unfold url_body, bind, try_except, print, effect, rp_get, save, log.
  cbn [dirs files trace fst snd]. rewrite Hget.
  change (regs _) with (regs w). rewrite Hc.
  cbn [dirs files trace]. by rewrite <-!(assoc_L (++)).
Qed.

Lemma url_body_is_dir row url c w :
  rp_get_content url = Ok c → filepath row ∈ dirs w →
  url_body row url w
  = ({| dirs := dirs w; files := files w;
        trace := trace w
          ++ [Print ("Downloading: " +:+ url); Get url;
              Print ("Failed to download " +:+ url
                       +:+ ": [Errno 21] Is a directory: '"
                       +:+ filepath row +:+ "'")] |},
     Ok tt).
Proof.
  intros Hget Hdir.
  rewrite (url_body_save_raise row url c (IsADirectoryError (filepath row)));
    [done|done|by apply create_error_is_dir].
Qed.

Lemma url_body_saved row url c w :
  rp_get_content url = Ok c →
  create_error (filepath row) (dirs w) (regs w) = None →
  url_body row url w
  = ({| dirs := dirs w; files := <[filepath row := c]> (files w);
        trace := trace w
          ++ [Print ("Downloading: " +:+ url); Get url;
              WriteFile (filepath row);
              Print ("Saved: " +:+ filepath row);
              Print ("Waiting for " +:+ str_int timeout_duration
                       +:+ " seconds before the next download...");
              Sleep timeout_duration] |},
     Ok tt).
Proof.
  intros Hget Hc.
  unfold url_body, bind, try_except, print, time_sleep, effect, rp_get, save, log.
  cbn [dirs files trace fst snd]. rewrite Hget.
  change (regs _) with (regs w). rewrite Hc.
  cbn [dirs files trace]. by rewrite <-!(assoc_L (++)).
Qed.

(** What every pass has in common, however the download and the save
    end. *)
Lemma url_body_spec row url w :
  ∃ w', url_body row url w = (w', Ok tt)
    ∧ dirs w' = dirs w
    ∧ gets (trace w') = gets (trace w) ++ [url]
    ∧ (files w' = files w
       ∨ ∃ c, rp_get_content url = Ok c
              ∧ create_error (filepath row) (dirs w) (regs w) = None
              ∧ files w' = <[filepath row := c]> (files w)).
Proof.
  destruct (rp_get_content url) as [c|e] eqn:Hget.
  - destruct (create_error (filepath row) (dirs w) (regs w)) as [e|] eqn:Hc.
    + eexists. split; [by apply (url_body_save_raise row url c e)|]. simpl.
      split; [done|]. split; [|by left]. by rewrite gets_app.
    + eexists. split; [by apply (url_body_saved row url c)|]. simpl.
      split; [done|]. split; [|right; by exists c]. by rewrite gets_app.
  - eexists. split; [by apply (url_body_raise row url e)|]. simpl.
    split; [done|]. split; [|by left]. by rewrite gets_app.
Qed.

(** *** The loop over the URLs of a row *)

Lemma url_loop_spec row urls w :
  ∃ w', for_each urls (url_body row) w = (w', Ok tt)
    ∧ dirs w' = dirs w
    ∧ gets (trace w') = gets (trace w) ++ urls
    ∧ (files w' = files w ∨ ∃ c, files w' = <[filepath row := c]> (files w)).
Proof.
  revert w. induction urls as [|url urls IH]; intros w.
  - exists w. repeat split; [by rewrite (right_id_L [] (++))|by left].
  - destruct (url_body_spec row url w) as (w1 & Hrun1 & D1 & G1 & F1).
    destruct (IH w1) as (w2 & Hrun2 & D2 & G2 & F2).
    exists w2. split; [simpl; unfold bind; by rewrite Hrun1|].
    split; [congruence|]. split.
    { by rewrite G2, G1, <-(assoc_L (++)). }
    destruct F2 as [->|[c2 ->]].
    + destruct F1 as [->|(c1 & _ & _ & ->)]; [by left|right; by exists c1].
    + right. exists c2.
      destruct F1 as [->|(c1 & _ & _ & ->)]; [done|].
      by rewrite insert_insert_eq.
Qed.

Lemma url_loop_all_fail row urls w :
  (∀ u, u ∈ urls → is_ok (rp_get_content u) = false) →
  files (world_after (for_each urls (url_body row)) w) = files w.
Proof.
  revert w. induction urls as [|url urls IH]; intros w Hfail; [done|].
  unfold world_after. simpl. unfold bind.
  destruct (rp_get_content url) as [c|e] eqn:Hget.
  { assert (url ∈ url :: urls) as Hin by left.
    apply Hfail in Hin. by rewrite Hget in Hin. }
  rewrite (url_body_raise row url e) by done.
  etrans; [apply IH|done]. intros u Hu. apply Hfail. by right.
Qed.

Lemma url_loop_last row l1 u l2 c w :
  rp_get_content u = Ok c →
  (∀ u', u' ∈ l2 → is_ok (rp_get_content u') = false) →
  create_error (filepath row) (dirs w) (regs w) = None →
  files (world_after (for_each (l1 ++ u :: l2) (url_body row)) w)
  = <[filepath row := c]> (files w).
Proof.
  intros Hget Hfail Hc.
  destruct (url_loop_spec row l1 w) as (w1 & Hrun1 & D1 & _ & F1).
  unfold world_after. rewrite for_each_app. unfold bind. rewrite Hrun1.
  simpl. unfold bind.
  rewrite (url_body_saved row u c);
    [|done|rewrite D1; by apply (create_error_regs _ _ (regs w))].
  match goal with
  | |- files (for_each l2 _ ?w2).1 = ?m =>
      change (files (world_after (for_each l2 (url_body row)) w2) = m)
  end.
  rewrite url_loop_all_fail by done. simpl.
  destruct F1 as [->|[c1 ->]]; [done|]. by rewrite insert_insert_eq.
Qed.

(** *** One pass through the loop over the rows *)

Lemma row_body_raise row e w :
  find_urls ifo channel_name (start row) (end_ row) "osdf" host = Raise e →
  row_body row w = (log (FindUrls (start row) (end_ row)) w, Raise e).
Proof. intros Hfind. unfold row_body, bind, call_find_urls. by rewrite Hfind. Qed.

Lemma row_body_empty row w :
  find_urls ifo channel_name (start row) (end_ row) "osdf" host = Ok [] →
  row_body row w
  = ({| dirs := dirs w; files := files w;
        trace := trace w
          ++ [FindUrls (start row) (end_ row);
              Print ("No files found for " +:+ str_int (start row) +:+ " to "
                       +:+ str_int (end_ row))] |},
     Ok tt).
Proof.
  intros Hfind. unfold row_body, bind, call_find_urls, print, effect, log.
  rewrite Hfind. simpl. by rewrite <-(assoc_L (++)).
Qed.

(** The pass in which the directory of the row cannot be made. *)
Lemma row_body_mkdir_raise row url urls e w :
  find_urls ifo channel_name (start row) (end_ row) "osdf" host
    = Ok (url :: urls) →
  makedirs (base_dir row) true (dirs w) (regs w) = Raise e →
  row_body row w
  = ({| dirs := dirs w; files := files w;
        trace := trace w
          ++ [FindUrls (start row) (end_ row); Makedirs (base_dir row)] |},
     Raise e).
Proof.
  intros Hfind Hmk. unfold row_body, bind, call_find_urls, os_makedirs.
  rewrite Hfind. cbn [log dirs files trace fst snd].
  change (regs _) with (regs w). rewrite Hmk.
  unfold log. cbn [dirs files trace]. by rewrite <-(assoc_L (++)).
Qed.

Lemma row_body_urls row url urls w :
  find_urls ifo channel_name (start row) (end_ row) "osdf" host
    = Ok (url :: urls) →
  is_ok (makedirs (base_dir row) true (dirs w) (regs w)) = true →
  row_body row w
  = for_each (url :: urls) (url_body row)
      {| dirs := made (base_dir row) (dirs w); files := files w;
         trace := trace w
           ++ [FindUrls (start row) (end_ row); Makedirs (base_dir row)] |}.
Proof.
  intros Hfind Hok.
  destruct (makedirs (base_dir row) true (dirs w) (regs w)) as [d|] eqn:Hmk;
    [|done].
  pose proof (makedirs_Ok _ _ _ _ Hmk) as (-> & _).
  unfold row_body, bind, call_find_urls, os_makedirs.
  rewrite Hfind. cbn [log dirs files trace fst snd].
  change (regs _) with (regs w). rewrite Hmk.
  by rewrite <-(assoc_L (++)).
Qed.

(** A pass ends in one of four ways. *)
Lemma row_body_cases row w :
  (∃ e, find_urls ifo channel_name (start row) (end_ row) "osdf" host = Raise e
        ∧ row_body row w = (log (FindUrls (start row) (end_ row)) w, Raise e))
  ∨ (find_urls ifo channel_name (start row) (end_ row) "osdf" host = Ok []
     ∧ row_body row w
       = ({| dirs := dirs w; files := files w;
             trace := trace w
               ++ [FindUrls (start row) (end_ row);
                   Print ("No files found for " +:+ str_int (start row)
                            +:+ " to " +:+ str_int (end_ row))] |},
          Ok tt))
  ∨ (∃ url urls e,
       find_urls ifo channel_name (start row) (end_ row) "osdf" host
         = Ok (url :: urls)
       ∧ makedirs (base_dir row) true (dirs w) (regs w) = Raise e
       ∧ row_body row w
         = ({| dirs := dirs w; files := files w;
               trace := trace w
                 ++ [FindUrls (start row) (end_ row); Makedirs (base_dir row)] |},
            Raise e))
  ∨ (∃ url urls,
       find_urls ifo channel_name (start row) (end_ row) "osdf" host
         = Ok (url :: urls)
       ∧ is_ok (makedirs (base_dir row) true (dirs w) (regs w)) = true
       ∧ row_body row w
         = for_each (url :: urls) (url_body row)
             {| dirs := made (base_dir row) (dirs w); files := files w;
                trace := trace w
                  ++ [FindUrls (start row) (end_ row);
                      Makedirs (base_dir row)] |}).
Proof.
  destruct (find_urls ifo channel_name (start row) (end_ row) "osdf" host)
    as [[|url urls]|e] eqn:Hfind.
  - right; left. split; [done|]. by apply row_body_empty.
  - destruct (makedirs (base_dir row) true (dirs w) (regs w)) as [d|e] eqn:Hmk.
    + right; right; right. exists url, urls. split; [done|]. split; [done|].
      apply row_body_urls; [done|]. by rewrite Hmk.
    + right; right; left. exists url, urls, e. split; [done|]. split; [done|].
      by apply (row_body_mkdir_raise row url urls).
  - left. exists e. split; [done|]. by apply row_body_raise.
Qed.

(** A pass only adds: directories stay, the one file that may change is
    the file of the row, which is not in the way of any directory the
    script asks for. *)
Lemma row_body_kept row w :
  let w' := world_after (row_body row) w in
  dirs w ⊆ dirs w'
  ∧ (∀ p, p ∈ regs w' → p ∈ regs w ∨ p = filepath row).
Proof.
  intros w'. subst w'. unfold world_after.
  destruct (row_body_cases row w)
    as [(e & _ & ->)|[(_ & ->)|[(url & urls & e & _ & _ & ->)
       |(url & urls & _ & _ & ->)]]]; cbn [fst log dirs files trace];
    try (split; [done|by left]).
  match goal with
  | |- context [for_each _ _ ?w1] =>
      destruct (url_loop_spec row (url :: urls) w1) as (w' & -> & D & _ & F)
  end.
  cbn [fst dirs files] in *. rewrite D. split; [apply made_subseteq|].
  unfold regs. intros p. destruct F as [->|[c ->]]; [by left|].
  rewrite dom_insert_L. intros [->%elem_of_singleton|?]%elem_of_union;
    [by right|by left].
Qed.

Lemma row_body_spec row w :
  is_ok (find_urls ifo channel_name (start row) (end_ row) "osdf" host) = true →
  (urls_of row ≠ [] →
   is_ok (makedirs (base_dir row) true (dirs w) (regs w)) = true) →
  ∃ w', row_body row w = (w', Ok tt)
    ∧ gets (trace w') = gets (trace w) ++ urls_of row.
Proof.
  unfold urls_of.
  destruct (find_urls ifo channel_name (start row) (end_ row) "osdf" host)
    as [[|url urls]|e] eqn:Hfind; [| |done]; intros _ Hmk.
  - eexists. split; [by apply row_body_empty|]. cbn [trace].
    rewrite gets_app. cbn. by rewrite !(right_id_L [] (++)).
  - rewrite (row_body_urls row url urls) by (by try apply Hmk).
    match goal with
    | |- ∃ w', for_each _ _ ?w1 = _ ∧ _ =>
        destruct (url_loop_spec row (url :: urls) w1) as (w' & Hrun & _ & G & _)
    end.
    exists w'. split; [done|]. rewrite G. cbn [trace].
    rewrite gets_app. cbn. by rewrite (right_id_L [] (++)).
Qed.

Lemma row_body_files_other row w p :
  p ≠ filepath row → files (world_after (row_body row) w) !! p = files w !! p.
Proof.
  intros Hp. unfold world_after.
  destruct (row_body_cases row w)
    as [(e & _ & ->)|[(_ & ->)|[(url & urls & e & _ & _ & ->)
       |(url & urls & _ & _ & ->)]]]; [done..|].
  match goal with
  | |- files (for_each _ _ ?w1).1 !! _ = _ =>
      destruct (url_loop_spec row (url :: urls) w1) as (w' & -> & _ & _ & F)
  end.
  simpl in *. destruct F as [->|[c ->]]; [done|].
  by rewrite lookup_insert_ne.
Qed.

Lemma filepath_not_made row w :
  filepath row ∉ dirs w → filepath row ∉ made (base_dir row) (dirs w).
Proof.
  intros Hdir Hmade. apply Hdir.
  eapply made_longer; [apply filepath_longer|done].
Qed.

(** *** The loop over the rows *)

Lemma main_spec rows w :
  (∀ row, row ∈ rows →
     is_ok (find_urls ifo channel_name (start row) (end_ row) "osdf" host)
     = true) →
  (∀ row, row ∈ rows → urls_of row ≠ [] →
     is_ok (makedirs (base_dir row) true (dirs w) (regs w)) = true) →
  ∃ w', main rows w = (w', Ok tt)
    ∧ gets (trace w') = gets (trace w) ++ (rows ≫= urls_of).
Proof.
  revert w. induction rows as [|row rows IH]; intros w Hok Hmk.
  - exists w. split; [done|]. symmetry. apply (right_id_L [] (++)).
  - destruct (row_body_spec row w) as (w1 & Hrun1 & G1);
      [apply Hok; left|apply Hmk; left|].
    pose proof (row_body_kept row w) as [Hsub Hregs].
    unfold world_after in Hsub, Hregs. rewrite Hrun1 in Hsub, Hregs.
    cbn [fst] in Hsub, Hregs.
    destruct (IH w1) as (w2 & Hrun2 & G2).
    { intros row' Hrow'. apply Hok. by right. }
    { intros row' Hrow' Hurls.
      apply (makedirs_ok_later _ (dirs w) (regs w));
        [apply Hmk; [by right|done]|done|].
      intros a Ha [Hold| ->]%Hregs; [done|].
      by apply filepath_not_ancestor in Ha. }
    exists w2. split.
    + unfold main in *. simpl. unfold bind. by rewrite Hrun1.
    + by rewrite G2, G1, bind_cons, (assoc_L (++)).
Qed.

(** *** The claims about the script *)

(** C7.  When the discovery service returns an empty list for a row, the
    pass through the loop body prints the [No files found] message and
    does nothing else: no directory is created and no file is written,
    and the loop goes on with the next row. *)
Theorem no_urls_skips_row row rows w :
  find_urls ifo channel_name (start row) (end_ row) "osdf" host = Ok [] →
  let w1 := world_after (row_body row) w in
  outcome (row_body row) w = Ok tt
  ∧ trace w1
    = trace w
        ++ [FindUrls (start row) (end_ row);
            Print ("No files found for " +:+ str_int (start row) +:+ " to "
                     +:+ str_int (end_ row))]
  ∧ dirs w1 = dirs w
  ∧ files w1 = files w
  ∧ main (row :: rows) w = main rows w1.
Proof.
  intros Hfind w1. subst w1. unfold world_after, outcome, main.
  simpl. unfold bind. by rewrite row_body_empty.
Qed.

(** C8.  A pass through the loop over the URLs never raises.  When the
    download raises, or when the save does (the path is a directory, or
    the file cannot be created for another reason), the exception is
    caught, its message is printed after [Failed to download <url>:],
    and no file changes.  So the loop over the URLs of a row asks for
    every URL of the row, in order, and, as long as the discovery service
    answers and the directory of every row that has URLs can be made, so
    does the loop over the rows for every URL of every row. *)
Theorem url_failure_never_aborts :
  (∀ row url w, outcome (url_body row url) w = Ok tt)
  ∧ (∀ row url w e,
       rp_get_content url = Raise e →
       let w' := world_after (url_body row url) w in
       trace w'
       = trace w
           ++ [Print ("Downloading: " +:+ url); Get url;
               Print ("Failed to download " +:+ url +:+ ": " +:+ exn_msg e)]
       ∧ files w' = files w ∧ dirs w' = dirs w)
  ∧ (∀ row url w c,
       rp_get_content url = Ok c → filepath row ∈ dirs w →
       let w' := world_after (url_body row url) w in
       trace w'
       = trace w
           ++ [Print ("Downloading: " +:+ url); Get url;
               Print ("Failed to download " +:+ url
                        +:+ ": [Errno 21] Is a directory: '"
                        +:+ filepath row +:+ "'")]
       ∧ files w' = files w ∧ dirs w' = dirs w)
  ∧ (∀ row url w c e,
       rp_get_content url = Ok c →
       create_error (filepath row) (dirs w) (regs w) = Some e →
       let w' := world_after (url_body row url) w in
       trace w'
       = trace w
           ++ [Print ("Downloading: " +:+ url); Get url;
               Print ("Failed to download " +:+ url +:+ ": " +:+ exn_msg e)]
       ∧ files w' = files w ∧ dirs w' = dirs w)
  ∧ (∀ row urls w,
       let w' := world_after (for_each urls (url_body row)) w in
       outcome (for_each urls (url_body row)) w = Ok tt
       ∧ gets (trace w') = gets (trace w) ++ urls)
  ∧ (∀ rows w,
       (∀ row, row ∈ rows →
          is_ok (find_urls ifo channel_name (start row) (end_ row) "osdf" host)
          = true) →
       (∀ row, row ∈ rows → urls_of row ≠ [] →
          is_ok (makedirs (base_dir row) true (dirs w) (regs w)) = true) →
       let w' := world_after (main rows) w in
       outcome (main rows) w = Ok tt
       ∧ gets (trace w') = gets (trace w) ++ (rows ≫= urls_of)).
Proof.
  split; [|split; [|split; [|split; [|split]]]].
  - intros row url w. unfold outcome.
    by destruct (url_body_spec row url w) as (w' & -> & _).
  - intros row url w e Hget w'. subst w'. unfold world_after.
    by rewrite (url_body_raise row url e).
  - intros row url w c Hget Hdir w'. subst w'. unfold world_after.
    by rewrite (url_body_is_dir row url c).
  - intros row url w c e Hget Hc w'. subst w'. unfold world_after.
    by rewrite (url_body_save_raise row url c e).
  - intros row urls w w'. subst w'. unfold world_after, outcome.
    by destruct (url_loop_spec row urls w) as (w' & -> & _ & G & _).
  - intros rows w Hok Hmk w'. subst w'. unfold world_after, outcome.
    by destruct (main_spec rows w Hok Hmk) as (w' & -> & G).
Qed.

(** C10.  The path a download of a row is saved to is
    [<channel>/<start>_<end>/<channel>_<start>_<end>.gwf], whatever the
    URL.  A pass through the loop over the rows changes no file but this
    one.  When the discovery service returned URLs, the directory of the
    row can be made and that path is not a directory, the file holds the
    content of the last URL whose download returned, after the pass;
    when every download raised, or the directory of the row cannot be
    made, no file has changed. *)
Theorem one_file_per_row row :
  filepath row
  = channel_name +:+ "/" +:+ str_int (start row) +:+ "_"
      +:+ str_int (end_ row) +:+ "/" +:+ channel_name +:+ "_"
      +:+ str_int (start row) +:+ "_" +:+ str_int (end_ row) +:+ ".gwf"
  ∧ (∀ w p, p ≠ filepath row →
       files (world_after (row_body row) w) !! p = files w !! p)
  ∧ (∀ w l1 u l2 c,
       find_urls ifo channel_name (start row) (end_ row) "osdf" host
         = Ok (l1 ++ u :: l2) →
       rp_get_content u = Ok c →
       (∀ u', u' ∈ l2 → is_ok (rp_get_content u') = false) →
       filepath row ∉ dirs w →
       is_ok (makedirs (base_dir row) true (dirs w) (regs w)) = true →
       files (world_after (row_body row) w) = <[filepath row := c]> (files w))
  ∧ (∀ w urls,
       find_urls ifo channel_name (start row) (end_ row) "osdf" host = Ok urls →
       (∀ u, u ∈ urls → is_ok (rp_get_content u) = false) →
       files (world_after (row_body row) w) = files w)
  ∧ (∀ w,
       is_ok (makedirs (base_dir row) true (dirs w) (regs w)) = false →
       files (world_after (row_body row) w) = files w).
Proof.
  split; [|split; [|split; [|split]]].
  - rewrite filepath_sep. unfold base_dir, filename.
    by rewrite !str_app_assoc.
  - intros w p Hp. by apply row_body_files_other.
  - intros w l1 u l2 c Hfind Hget Hfail Hdir Hmk. unfold world_after.
    destruct (l1 ++ u :: l2) as [|url urls] eqn:Hurls.
    { by destruct l1. }
    rewrite (row_body_urls row url urls) by done. rewrite <-Hurls.
    match goal with
    | |- files (for_each _ _ ?w1).1 = ?m =>
        change (files (world_after (for_each (l1 ++ u :: l2) (url_body row)) w1)
                = m)
    end.
    rewrite (url_loop_last row l1 u l2 c); [done..|].
    apply create_error_filepath; cbn [dirs].
    + apply made_elem.
    + by apply filepath_not_made.
  - intros w urls Hfind Hfail. unfold world_after.
    destruct (row_body_cases row w)
      as [(e & _ & ->)|[(_ & ->)|[(url & urls' & e & _ & _ & ->)
         |(url & urls' & Hfind' & _ & ->)]]]; [done..|].
    rewrite Hfind in Hfind'. injection Hfind' as ->.
    match goal with
    | |- files (for_each _ _ ?w1).1 = ?m =>
        change (files (world_after (for_each (url :: urls') (url_body row)) w1)
                = m)
    end.
    by rewrite url_loop_all_fail.
  - intros w Hmk. unfold world_after.
    destruct (row_body_cases row w)
      as [(e & _ & ->)|[(_ & ->)|[(url & urls' & e & _ & _ & ->)
         |(url & urls' & _ & Hok & _)]]]; [done..|].
    by rewrite Hok in Hmk.
Qed.
End Script.

(** *** The claims on the sample collaborators *)

Import Sample.

Lemma no_urls_skips_row_witness :
  find_urls ifo channel_name (start row_30) (end_ row_30) "osdf" host = Ok []
  ∧ trace (world_after (row_body row_30) osdf_empty_world)
    = [FindUrls 30 40; Print "No files found for 30 to 40"]
  ∧ main [row_30; row_10] osdf_empty_world
    = main [row_10] (world_after (row_body row_30) osdf_empty_world).
Proof.
  destruct (no_urls_skips_row row_30 [row_10] osdf_empty_world eq_refl)
    as (_ & Htrace & _ & _ & Hmain).
  split; [reflexivity|]. split; [exact Htrace|exact Hmain].
Defined.

Lemma url_failure_never_aborts_witness :
  rp_get_content "osdf:///bad" = Raise (Exn "ConnectionError" "refused")
  ∧ (∀ row, row ∈ [row_10; row_30] →
       is_ok (find_urls ifo channel_name (start row) (end_ row) "osdf" host)
       = true)
  ∧ (∀ row, row ∈ [row_10; row_30] → urls_of row ≠ [] →
       is_ok (makedirs (base_dir row) true (dirs osdf_empty_world)
                (regs osdf_empty_world)) = true)
  ∧ outcome (main [row_10; row_30]) osdf_empty_world = Ok tt
  ∧ gets (trace (world_after (main [row_10; row_30]) osdf_empty_world))
    = ["osdf:///one"; "osdf:///bad"; "osdf:///two"].
Proof.
  assert (∀ row, row ∈ [row_10; row_30] →
            is_ok (find_urls ifo channel_name (start row) (end_ row) "osdf" host)
            = true) as Hok.
  { intros row Hrow.
    repeat (apply elem_of_cons in Hrow as [->|Hrow]); [reflexivity..|].
    by apply elem_of_nil in Hrow. }
  assert (∀ row, row ∈ [row_10; row_30] → urls_of row ≠ [] →
            is_ok (makedirs (base_dir row) true (dirs osdf_empty_world)
                     (regs osdf_empty_world)) = true) as Hmk.
  { intros row Hrow _.
    repeat (apply elem_of_cons in Hrow as [->|Hrow]);
      [vm_compute; reflexivity..|].
    by apply elem_of_nil in Hrow. }
  destruct url_failure_never_aborts as (_ & _ & _ & _ & _ & Hmain).
  destruct (Hmain [row_10; row_30] osdf_empty_world Hok Hmk) as [Hout Hgets].
  split; [reflexivity|]. split; [exact Hok|]. split; [exact Hmk|].
  split; [exact Hout|exact Hgets].
Defined.

Lemma one_file_per_row_witness :
  (find_urls ifo channel_name (start row_10) (end_ row_10) "osdf" host
     = Ok (["osdf:///one"; "osdf:///bad"] ++ "osdf:///two" :: [])
   ∧ rp_get_content "osdf:///two" = Ok "bytes of osdf:///two"
   ∧ (filepath row_10 ∉ dirs osdf_empty_world)
   ∧ is_ok (makedirs (base_dir row_10) true (dirs osdf_empty_world)
              (regs osdf_empty_world)) = true)
  ∧ files (world_after (row_body row_10) osdf_empty_world)
    = {[ "H1_GWOSC_O3a_4KHZ_R1/10_20/H1_GWOSC_O3a_4KHZ_R1_10_20.gwf"
           := "bytes of osdf:///two" ]}.
Proof.
  assert (filepath row_10 ∉ dirs osdf_empty_world) as Hdir by apply not_elem_of_empty.
  assert (is_ok (makedirs (base_dir row_10) true (dirs osdf_empty_world)
                   (regs osdf_empty_world)) = true) as Hmk
    by (vm_compute; reflexivity).
  destruct (one_file_per_row row_10) as (Hpath & _ & Hlast & _).
  pose proof (Hlast osdf_empty_world ["osdf:///one"; "osdf:///bad"]
                "osdf:///two" [] "bytes of osdf:///two" eq_refl eq_refl
                ltac:(by intros u' ?%elem_of_nil) Hdir Hmk) as Hfiles.
  split; [by repeat split|]. exact Hfiles.
Defined.

End OsdfDemoFacts.


(** ** More on paths *)

Module PathFacts.
Import PyFacts.

Lemma replace_absent old new s :
  contains old s = false → replace old new s = s.
Proof.
  induction s as [|c s IH]; [done|].
  rewrite contains_cons. intros [Hc Hs]%orb_false_iff.
  simpl. by rewrite Hc, IH.
Qed.

(** Two strings cut at the first occurrence of a character agree on both
    sides of the cut. *)
Lemma sep_split_inj c a a' x y :
  contains c a = false → contains c a' = false →
  a +:+ String c x = a' +:+ String c y → a = a' ∧ x = y.
Proof.
  revert a'. induction a as [|d a IH]; intros [|d' a'] Ha Ha' E.
  - rewrite !str_app_nil_l in E. by simplify_eq.
  - rewrite str_app_nil_l, str_app_cons in E. simplify_eq.
    rewrite contains_cons, Ascii.eqb_refl in Ha'. done.
  - rewrite str_app_nil_l, str_app_cons in E. simplify_eq.
    rewrite contains_cons, Ascii.eqb_refl in Ha. done.
  - rewrite !str_app_cons in E. simplify_eq.
    rewrite contains_cons in Ha, Ha'.
    apply orb_false_iff in Ha as [_ Ha]. apply orb_false_iff in Ha' as [_ Ha'].
    destruct (IH a' Ha Ha' H) as [-> ->]. done.
Qed.

Lemma str_int_lacks c n : int_char c = false → contains c (str_int n) = false.
Proof.
  intros Hc. destruct (contains c (str_int n)) eqn:E; [|done].
  apply str_int_chars in E. congruence.
Qed.

Lemma str_int_inj m n : str_int m = str_int n → m = n.
Proof. apply (inj (pretty : Z → string)). Qed.

(** Two integers printed with an underscore between them and a character
    that no integer prints after them can be read back. *)
Lemma tag_inj q s e s' e' x y :
  int_char q = false →
  str_int s +:+ String "_" (str_int e +:+ String q x)
  = str_int s' +:+ String "_" (str_int e' +:+ String q y) →
  s = s' ∧ e = e'.
Proof.
  intros Hq E.
  apply sep_split_inj in E as [Hs E]; [|by apply str_int_lacks..].
  apply sep_split_inj in E as [He _]; [|by apply str_int_lacks..].
  split; by apply str_int_inj.
Qed.

Lemma tag_end_inj s e s' e' :
  str_int s +:+ String "_" (str_int e) = str_int s' +:+ String "_" (str_int e') →
  s = s' ∧ e = e'.
Proof.
  intros E.
  apply sep_split_inj in E as [Hs He]; [|by apply str_int_lacks..].
  split; by apply str_int_inj.
Qed.

End PathFacts.

(** ** More on the cross-product driver *)

Module FetchDatRuns.
Import FetchDat PyFacts PathFacts FetchDatFacts.

Section Driver.
Context `{Collaborators}.
Implicit Types (w : World) (data : Channel → TimeRange → TimeSeries).

(** *** Paths *)

Lemma time_dir_path_shape channel_dir :
  ∃ pre, ∀ r, time_dir_path channel_dir r
              = pre +:+ str_int (start r) +:+ String "_" (str_int (end_ r)).
Proof.
  unfold time_dir_path, os_path_join.
  destruct (bool_decide (channel_dir = "") || endswith_sep channel_dir).
  - exists channel_dir. intros r. by rewrite startswith_sep_str_int.
  - exists (channel_dir +:+ "/"). intros r.
    by rewrite startswith_sep_str_int, !str_app_assoc.
Qed.

Lemma output_file_shape channel_name channel_dir :
  ∃ pre q, int_char q = false
    ∧ ∀ r, ∃ rest,
        output_file channel_name channel_dir r
        = pre +:+ str_int (start r)
            +:+ String "_" (str_int (end_ r) +:+ String q rest).
Proof.
  destruct (time_dir_path_shape channel_dir) as [pre Hpre].
  destruct (startswith_sep (sanitize channel_name +:+ "_")) eqn:Hstart.
  - exists (sanitize channel_name +:+ "_"), "."%char. split; [done|].
    intros r. exists "gwf". unfold output_file, os_path_join.
    rewrite <-(str_app_assoc (sanitize channel_name) "_").
    rewrite startswith_sep_app, Hstart; [|by intros [_ ?]%str_app_eq_nil].
    by rewrite !str_app_assoc.
  - exists pre, "/"%char. split; [done|].
    intros r. eexists. unfold output_file, os_path_join.
    rewrite <-(str_app_assoc (sanitize channel_name) "_").
    rewrite startswith_sep_app, Hstart; [|by intros [_ ?]%str_app_eq_nil].
    rewrite Hpre.
    set (D := pre +:+ str_int (start r) +:+ String "_" (str_int (end_ r))).
    assert (D = (pre +:+ str_int (start r) +:+ "_") +:+ str_int (end_ r)) as HD
      by (unfold D; by rewrite !str_app_assoc).
    assert (endswith_sep D = false) as Hend
      by (rewrite HD; apply endswith_sep_str_int).
    assert (D ≠ "") as Hne.
    { rewrite HD. intros [_ E]%str_app_eq_nil. by apply str_int_nonempty in E. }
    rewrite Hend, bool_decide_eq_false_2 by done.
    simpl. unfold D. rewrite !str_app_assoc. reflexivity.
Qed.

Lemma time_range_eq (r1 r2 : TimeRange) :
  start r1 = start r2 → end_ r1 = end_ r2 → r1 = r2.
Proof. destruct r1, r2. simpl. by intros -> ->. Qed.

(** X1.  The sanitized form of a channel identifier holds no colon;
    sanitizing it again changes nothing, and an identifier without a
    colon is its own sanitized form. *)
Theorem sanitize_colon_free channel_name :
  contains ":" (sanitize channel_name) = false
  ∧ sanitize (sanitize channel_name) = sanitize channel_name
  ∧ (contains ":" channel_name = false → sanitize channel_name = channel_name).
Proof.
  assert (contains ":" (sanitize channel_name) = false) as Hfree
    by by apply replace_contains.
  split; [done|]. split; [by apply replace_absent|].
  apply replace_absent.
Qed.

(** X2.  For one channel, two different time ranges never share a
    directory or an output file, whatever the channel identifier. *)
Theorem distinct_ranges_distinct_paths channel_name channel_dir r1 r2 :
  r1 ≠ r2 →
  time_dir_path channel_dir r1 ≠ time_dir_path channel_dir r2
  ∧ output_file channel_name channel_dir r1
    ≠ output_file channel_name channel_dir r2.
Proof.
  intros Hne. split; intros E; apply Hne.
  - destruct (time_dir_path_shape channel_dir) as [pre Hpre].
    rewrite !Hpre in E. apply (inj (String.app pre)) in E.
    apply tag_end_inj in E as [? ?]. by apply time_range_eq.
  - destruct (output_file_shape channel_name channel_dir)
      as (pre & q & Hq & Hshape).
    destruct (Hshape r1) as [rest1 E1]. destruct (Hshape r2) as [rest2 E2].
    rewrite E1, E2 in E. apply (inj (String.app pre)) in E.
    apply (tag_inj q) in E as [? ?]; [|done]. by apply time_range_eq.
Qed.

(** *** What every run keeps *)

(** X3.  A run never undoes anything, however it ends: every directory
    and every file that was there before is there after it, the trace
    has only grown, and the manifest file still starts with what it
    held. *)
Theorem run_never_undoes cs rs w :
  let w' := world_after (main cs rs) w in
  dirs w ⊆ dirs w'
  ∧ dom (files w) ⊆ dom (files w')
  ∧ trace w `prefix_of` trace w'
  ∧ ∃ text, fin_txt w' = fin_txt w +:+ text.
Proof.
  intros w'. subst w'.
  destruct (kept_main cs rs w) as (Hd & Hf & _ & Ht & _).
  do 3 (split; [done|]).
  destruct (main_recorded cs rs w) as (t & _ & Hm & _). eauto.
Qed.

(** X4.  However a run ends, the files written and the texts handed to
    [fin.write] during it match one to one and in order, each text
    starting with the absolute path of its file; and all these texts are
    in the manifest file after the run. *)
Theorem manifest_lines_match_files cs rs w :
  let w' := world_after (main cs rs) w in
  ∃ t, trace w' = trace w ++ t
       ∧ Forall2 (λ path line,
                    ∃ rest, line = os_path_abspath path +:+ " " +:+ rest)
           (written_paths t) (fin_writes t)
       ∧ fin_txt w' = fin_txt w +:+ concat (fin_writes t).
Proof.
  intros w'. subst w'.
  pose proof (main_preserves
    (λ w w', ∃ t, trace w' = trace w ++ t
       ∧ Forall2 (λ path line,
                    ∃ rest, line = os_path_abspath path +:+ " " +:+ rest)
           (written_paths t) (fin_writes t)) cs rs w) as Hkeep.
  destruct Hkeep as (t & Ht & Hpair).
  - intros w1. exists []. split; [by rewrite (right_id_L [] (++))|constructor].
  - intros w1 w2 w3 (t1 & T1 & P1) (t2 & T2 & P2). exists (t1 ++ t2).
    split; [by rewrite T2, T1, (assoc_L (++))|].
    rewrite written_paths_app, fin_writes_app. by apply Forall2_app.
  - intros cn cd r w1. unfold world_after.
    destruct (time_row_body cn cd r w1) as [w2 [[]|e]] eqn:Hrun.
    + apply time_row_body_Ok in Hrun
        as (d & _ & _ & _ & (_ & _ & _ & _ & T)).
      eexists. split; [exact T|]. repeat constructor.
      unfold fin_line. eauto.
    + apply time_row_body_Raise in Hrun as (_ & _ & _ & _ & _ & _ & T).
      cbn [fst]. destruct T as [T|T]; rewrite T; eexists;
        (split; [done|constructor]).
  - intros name w1.
    exists [Makedirs name]. split; [|constructor].
    unfold world_after, os_makedirs.
    by destruct (makedirs name true (dirs w1) (regs w1)).
  - intros w1. exists []. split; [by rewrite (right_id_L [] (++))|constructor].
  - intros w1. exists []. split; [|constructor].
    destruct (fin_close_spec w1) as (_ & _ & _ & T & _).
    by rewrite T, (right_id_L [] (++)).
  - destruct (main_recorded cs rs w) as (t' & Ht' & Hm & _).
    rewrite Ht in Ht'. apply (inj (app (trace w))) in Ht' as <-.
    by exists t.
Qed.

(** *** The fetch calls of any run *)

(** X5.  However a run ends, the fetch calls made during it are the
    first calls of the row-major cross product, in order and with the
    host [nds.gwosc.org]; when the run returns, they are all of them. *)
Theorem fetch_calls_prefix_of_cross cs rs w :
  let w' := world_after (main cs rs) w in
  ∃ t, trace w' = trace w ++ t
       ∧ fetch_calls t
           `prefix_of` ((λ p, (channel p.1, start p.2, end_ p.2, "nds.gwosc.org"))
                          <$> cross cs rs)
       ∧ (outcome (main cs rs) w = Ok tt →
          fetch_calls t
          = (λ p, (channel p.1, start p.2, end_ p.2, "nds.gwosc.org"))
              <$> cross cs rs).
Proof. intros w'. subst w'. exact (main_calls cs rs w). Qed.

(** *** Empty tables *)

(** The loop over the channels when there is no time range: it asks for
    the directory of every channel and does nothing else. *)
Lemma channel_loop_no_ranges cs w :
  let w' := world_after (for_each cs (channel_row_body [])) w in
  files w' = files w ∧ fin_exists w' = fin_exists w
  ∧ fin_txt w' = fin_txt w ∧ fin_buffer w' = fin_buffer w
  ∧ fin_pending w' = fin_pending w
  ∧ dirs w ⊆ dirs w'
  ∧ fetch_calls (trace w') = fetch_calls (trace w)
  ∧ (outcome (for_each cs (channel_row_body [])) w = Ok tt →
     trace w' = trace w ++ ((λ c, Makedirs (sanitize (channel c))) <$> cs)
     ∧ ∀ c, c ∈ cs → sanitize (channel c) ∈ dirs w')
  ∧ ((∀ c, c ∈ cs →
        is_ok (makedirs (sanitize (channel c)) true (dirs w) (regs w)) = true) →
     outcome (for_each cs (channel_row_body [])) w = Ok tt).
Proof.
  revert w. induction cs as [|c cs IH]; intros w.
  - cbn. do 7 (split; [done|]). split; [|done]. intros _.
    split; [by rewrite (right_id_L [] (++))|]. by intros c ?%elem_of_nil.
  - unfold world_after, outcome. rewrite for_each_cons.
    destruct (makedirs (sanitize (channel c)) true (dirs w) (regs w))
      as [d|e] eqn:Hmk.
    + rewrite channel_row_body_made by (by rewrite Hmk). cbn [for_each ret].
      match goal with
      | |- context [for_each cs _ ?w0] =>
          destruct (IH w0) as (F & E & X & B & P & D & C & Hok & Hsuff);
          set (w1 := w0) in *
      end.
      unfold world_after, outcome in *.
      destruct (for_each cs (channel_row_body []) w1) as [w2 r] eqn:Hrun.
      cbn [fst snd dirs files fin_exists fin_txt fin_buffer fin_pending trace]
        in *.
      do 5 (split; [done|]).
      split; [etrans; [apply (made_subseteq (sanitize (channel c)))|done]|].
      split.
      { rewrite C. unfold w1. cbn [trace]. rewrite fetch_calls_app. cbn.
        by rewrite (right_id_L [] (++)). }
      split.
      * intros ->. destruct (Hok eq_refl) as [T Hall]. split.
        { rewrite T. unfold w1. cbn [trace]. by rewrite <-(assoc_L (++)). }
        intros c' [->|Hc']%elem_of_cons; [|by apply Hall].
        apply D. unfold w1. cbn [dirs]. apply made_elem.
      * intros Hall. apply Hsuff. intros c' Hc'.
        apply (makedirs_ok_later _ (dirs w) (regs w));
          [apply Hall; by right|unfold w1; cbn [dirs]; apply made_subseteq|].
        intros a _ Ha. exact Ha.
    + rewrite (channel_row_body_mkdir_raise _ _ _ e) by done.
      cbn [fst snd log dirs files fin_exists fin_txt fin_buffer fin_pending
        trace].
      do 6 (split; [done|]). split.
      { rewrite fetch_calls_app. cbn. by rewrite (right_id_L [] (++)). }
      split; [done|]. intros Hall.
      assert (c ∈ c :: cs) as Hc by left. apply Hall in Hc.
      by rewrite Hmk in Hc.
Qed.

(** With the manifest open, [os.makedirs("fin.txt")] raises: the name is
    a regular file. *)
Lemma makedirs_fin_file w :
  fin_file ∉ dirs w →
  makedirs fin_file true (dirs (fin_open w)) (regs (fin_open w))
  = Raise (FileExistsError fin_file).
Proof.
  intros Hdir. unfold makedirs.
  rewrite bool_decide_eq_false_2 by done.
  rewrite bool_decide_eq_false_2 by done.
  change (ancestors fin_file) with [fin_file]. cbn [blocked_at].
  rewrite bool_decide_eq_true_2; [done|].
  by apply fin_file_regs.
Qed.

(** X6.  With no channel, a run fetches nothing; it opens the manifest
    file, which exists afterwards, and changes nothing else; when
    [fin.txt] is a directory the run ends at once with the exception of
    [open].  With channels and no time range, a run fetches nothing,
    writes no file and leaves the text of the manifest file as it was;
    when it returns it has asked for the directory of every channel, in
    order, and every one exists; and it returns when [fin.txt] is not a
    directory and the directory of every channel can be made once the
    manifest is open.  A channel whose sanitized identifier is [fin.txt]
    ends the run before any fetch: the name is the open manifest file. *)
Theorem empty_tables :
  (∀ rs w,
     let w' := world_after (main [] rs) w in
     trace w' = trace w ∧ dirs w' = dirs w ∧ files w' = files w
     ∧ fin_txt w' = fin_txt w
     ∧ (fin_file ∉ dirs w →
        outcome (main [] rs) w = Ok tt ∧ fin_exists w' = true)
     ∧ (fin_file ∈ dirs w →
        outcome (main [] rs) w = Raise (IsADirectoryError fin_file)
        ∧ w' = w))
  ∧ (∀ cs w,
       let w' := world_after (main cs []) w in
       fetch_calls (trace w') = fetch_calls (trace w)
       ∧ files w' = files w
       ∧ fin_txt w' = fin_txt w
       ∧ (outcome (main cs []) w = Ok tt →
          trace w' = trace w ++ ((λ c, Makedirs (sanitize (channel c))) <$> cs)
          ∧ fin_exists w' = true
          ∧ ∀ c, c ∈ cs → sanitize (channel c) ∈ dirs w')
       ∧ (fin_file ∉ dirs w →
          (∀ c, c ∈ cs →
             is_ok (makedirs (sanitize (channel c)) true (dirs (fin_open w))
                      (regs (fin_open w))) = true) →
          outcome (main cs []) w = Ok tt))
  ∧ (∀ c cs rs w,
       sanitize (channel c) = fin_file → fin_file ∉ dirs w →
       let w' := world_after (main (c :: cs) rs) w in
       outcome (main (c :: cs) rs) w = Raise (FileExistsError fin_file)
       ∧ trace w' = trace w ++ [Makedirs fin_file]
       ∧ dirs w' = dirs w ∧ files w' = files w
       ∧ fin_exists w' = true).
Proof.
  split; [|split].
  - intros rs w w'. subst w'.
    destruct (open_fin_cases w) as [[Hdir Hopen]|[Hdir Hopen]].
    + unfold world_after, outcome. rewrite main_unfold by done.
      change (world_after (for_each [] (channel_row_body rs)) (fin_open w))
        with (fin_open w).
      change (outcome (for_each [] (channel_row_body rs)) (fin_open w))
        with (Ok tt : res unit).
      cbn [fst snd].
      destruct (fin_close_spec (fin_open w)) as (D & F & E & T & M & _).
      rewrite D, F, E, T, M. unfold manifest.
      cbn [fin_open dirs files fin_exists fin_txt fin_buffer fin_pending trace].
      rewrite !str_app_nil_r. by repeat split.
    + unfold world_after, outcome. rewrite main_not_opened by done.
      cbn [fst snd]. by repeat split.
  - intros cs w w'. subst w'.
    destruct (open_fin_cases w) as [[Hdir Hopen]|[Hdir Hopen]].
    + destruct (channel_loop_no_ranges cs (fin_open w))
        as (F & E & X & B & P & D & C & Hok & Hsuff).
      unfold world_after, outcome in *. rewrite main_unfold by done.
      unfold world_after, outcome.
      destruct (for_each cs (channel_row_body []) (fin_open w)) as [w1 r].
      cbn [fst snd] in *.
      destruct (fin_close_spec w1) as (D' & F' & E' & T' & M' & _).
      rewrite T', F', M'. unfold manifest. rewrite X, B, P.
      cbn [fin_open dirs files fin_exists fin_txt fin_buffer fin_pending trace]
        in *.
      rewrite !str_app_nil_r.
      do 3 (split; [done|]). split.
      * intros Hr. destruct (Hok Hr) as [T Hall].
        split; [done|]. split; [by rewrite E', E|].
        intros c Hc. rewrite D'. by apply Hall.
      * intros _ Hall. by apply Hsuff.
    + unfold world_after, outcome. rewrite main_not_opened by done.
      cbn [fst snd]. by repeat split.
  - intros c cs rs w Hsan Hdir w'. subst w'.
    unfold world_after, outcome. rewrite main_unfold by done.
    unfold world_after, outcome. rewrite for_each_cons.
    rewrite (channel_row_body_mkdir_raise _ _ _ (FileExistsError fin_file))
      by (rewrite Hsan; by apply makedirs_fin_file).
    cbn [fst snd]. rewrite Hsan.
    match goal with
    | |- context [fin_close ?w1] =>
        destruct (fin_close_spec w1) as (D' & F' & E' & T' & _)
    end.
    by rewrite D', F', E', T'.
Qed.

(** *** Which series a file holds *)



(** X8.  Two channels whose identifiers have the same sanitized form
    share their output file: after a run over both that returned, the
    same path has been written twice and listed twice in the manifest,
    and the file holds the series of the second channel. *)
Theorem colliding_channels_share_file data c1 c2 r w :
  sanitize (channel c1) = sanitize (channel c2) →
  TimeSeries_fetch (channel c1) (start r) (end_ r) host = Ok (data c1 r) →
  TimeSeries_fetch (channel c2) (start r) (end_ r) host = Ok (data c2 r) →
  outcome (main [c1; c2] [r]) w = Ok tt →
  let w' := world_after (main [c1; c2] [r]) w in
  let path := output_file (channel c2) (sanitize (channel c2)) r in
  written_paths (trace w') = written_paths (trace w) ++ [path; path]
  ∧ files w' !! path = Some (data c2 r)
  ∧ fin_writes (trace w')
    = fin_writes (trace w)
        ++ [fin_line path (data c1 r); fin_line path (data c2 r)]
  ∧ fin_txt w'
    = fin_txt w +:+ fin_line path (data c1 r) +:+ fin_line path (data c2 r).
Proof.
  intros Hsan Hf1 Hf2 Hout w' path.
  assert (output_file (channel c1) (sanitize (channel c1)) r = path) as Hpath.
  { unfold path, output_file. by rewrite Hsan. }
  assert (∀ c r', c ∈ [c1; c2] → r' ∈ [r] →
            TimeSeries_fetch (channel c) (start r') (end_ r') host
            = Ok (data c r')) as Hok.
  { intros c r' Hc ->%list_elem_of_singleton.
    apply elem_of_cons in Hc as [->|Hc]; [done|].
    by apply list_elem_of_singleton in Hc as ->. }
  pose proof (run_split (main [c1; c2] [r]) w) as Hrun. rewrite Hout in Hrun.
  fold w' in Hrun.
  destruct (main_Ok data [c1; c2] [r] w w' Hok Hrun)
    as (_ & Hf & _ & Hm & _ & _ & T).
  rewrite T, written_paths_app, fin_writes_app, Hf, Hm.
  rewrite written_paths_run_events, fin_writes_run_events.
  change (cross [c1; c2] [r]) with [(c1, r); (c2, r)].
  simpl. unfold pair_line, pair_out, write_all. simpl. rewrite Hpath.
  fold path. split; [done|]. split; [apply lookup_insert_eq|].
  split; [done|]. by rewrite str_app_nil_r.
Qed.
End Driver.

(** *** On the sample collaborators *)

Import Sample MoreSamples.

Lemma sanitize_colon_free_witness :
  contains ":" "H1_A" = false ∧ sanitize "H1_A" = "H1_A".
Proof.
  destruct (sanitize_colon_free "H1_A") as (_ & _ & Hsame).
  split; [reflexivity|exact (Hsame eq_refl)].
Defined.

Lemma distinct_ranges_distinct_paths_witness :
  range_1 ≠ range_2
  ∧ time_dir_path "H1_A" range_1 ≠ time_dir_path "H1_A" range_2
  ∧ output_file "H1:A" "H1_A" range_1 ≠ output_file "H1:A" "H1_A" range_2.
Proof.
  assert (range_1 ≠ range_2) as Hne by discriminate.
  split; [exact Hne|].
  exact (distinct_ranges_distinct_paths "H1:A" "H1_A" range_1 range_2 Hne).
Defined.

Lemma fetch_calls_prefix_of_cross_witness :
  outcome (main [chan_a] [range_1; range_2]) empty_world = Ok tt
  ∧ ∃ t, trace (world_after (main [chan_a] [range_1; range_2]) empty_world) = t
         ∧ fetch_calls t
           = [("H1:A", 1238166018, 1238170549, "nds.gwosc.org")%Z;
              ("H1:A", 10, 20, "nds.gwosc.org")%Z].
Proof.
  destruct (fetch_calls_prefix_of_cross [chan_a] [range_1; range_2] empty_world)
    as (t & Ht & _ & Hall).
  split; [reflexivity|]. exists t. split; [exact Ht|exact (Hall eq_refl)].
Defined.

Lemma empty_tables_witness :
  (fin_file ∉ dirs empty_world)
  ∧ outcome (main [chan_a] []) empty_world = Ok tt
  ∧ "H1_A" ∈ dirs (world_after (main [chan_a] []) empty_world)
  ∧ outcome (main [chan_fin] [range_1]) empty_world
    = Raise (FileExistsError "fin.txt")
  ∧ fin_exists (world_after (main [] [range_1]) empty_world) = true.
Proof.
  assert (fin_file ∉ dirs empty_world) as Hdir by apply not_elem_of_empty.
  assert (chan_a ∈ [chan_a]) as Hin by left.
  destruct empty_tables as (Hno_channels & Hno_ranges & Hfin).
  destruct (Hno_channels [range_1] empty_world) as (_ & _ & _ & _ & Hopen & _).
  destruct (Hno_ranges [chan_a] empty_world) as (_ & _ & _ & Hok & _).
  destruct (Hok eq_refl) as (_ & _ & Hdirs).
  destruct (Hfin chan_fin [] [range_1] empty_world eq_refl Hdir) as (Hraise & _).
  split; [exact Hdir|]. split; [reflexivity|].
  split; [exact (Hdirs chan_a Hin)|]. split; [exact Hraise|].
  exact (proj2 (Hopen Hdir)).
Defined.


Lemma colliding_channels_share_file_witness :
  sanitize (channel chan_a) = sanitize (channel chan_a_plain)
  ∧ outcome (main [chan_a; chan_a_plain] [range_2]) empty_world = Ok tt
  ∧ written_paths
      (trace (world_after (main [chan_a; chan_a_plain] [range_2]) empty_world))
    = ["H1_A/10_20/H1_A_10_20.gwf"; "H1_A/10_20/H1_A_10_20.gwf"].
Proof.
  destruct (colliding_channels_share_file sample_data chan_a chan_a_plain
              range_2 empty_world eq_refl eq_refl eq_refl eq_refl)
    as (Hpaths & _).
  split; [reflexivity|]. split; [reflexivity|exact Hpaths].
Defined.

End FetchDatRuns.


(** ** More on the discovery-based variant *)

Module OsdfDemoRuns.
Import OsdfDemo OsdfDemoTrace PyFacts PathFacts OsdfDemoFacts.

Section Script.
Context `{Collaborators}.
Implicit Types (w : World) (row : Row) (url : string).

Lemma find_calls_app t1 t2 : find_calls (t1 ++ t2) = find_calls t1 ++ find_calls t2.
Proof. apply omap_app. Qed.

Lemma saves_app t1 t2 : saves (t1 ++ t2) = saves t1 ++ saves t2.
Proof. apply omap_app. Qed.

Lemma sleeps_app t1 t2 : sleeps (t1 ++ t2) = sleeps t1 ++ sleeps t2.
Proof. apply omap_app. Qed.

(** What a stretch [t] of the trace looks like when it comes from
    downloads only: the discovery service is not asked, every save is
    followed by one pause of [timeout_duration] seconds and there are no
    other pauses, and no request is saved twice. *)
Lemma url_body_trace row url w :
  ∃ t, trace (world_after (url_body row url) w) = trace w ++ t
    ∧ find_calls t = []
    ∧ sleeps t = (λ _, timeout_duration) <$> saves t
    ∧ length (saves t) ≤ length (gets t).
Proof.
  unfold world_after.
  destruct (rp_get_content url) as [c|e] eqn:Hget.
  - destruct (create_error (filepath row) (dirs w) (regs w)) as [e|] eqn:Hc.
    + rewrite (url_body_save_raise row url c e) by done. eexists.
      split; [done|]. repeat split. simpl. lia.
    + rewrite (url_body_saved row url c) by done. eexists. split; [done|].
      repeat split. simpl. lia.
  - rewrite (url_body_raise row url e) by done. eexists. split; [done|].
    repeat split. simpl. lia.
Qed.

Lemma url_loop_trace row urls w :
  ∃ t, trace (world_after (for_each urls (url_body row)) w) = trace w ++ t
    ∧ find_calls t = []
    ∧ sleeps t = (λ _, timeout_duration) <$> saves t
    ∧ length (saves t) ≤ length (gets t).
Proof.
  apply (for_each_preserves
    (λ w w', ∃ t, trace w' = trace w ++ t ∧ find_calls t = []
       ∧ sleeps t = (λ _, timeout_duration) <$> saves t
       ∧ length (saves t) ≤ length (gets t))).
  - intros w1. exists []. by rewrite (right_id_L [] (++)).
  - intros w1 w2 w3 (t1 & T1 & F1 & S1 & L1) (t2 & T2 & F2 & S2 & L2).
    exists (t1 ++ t2). split; [by rewrite T2, T1, (assoc_L (++))|].
    rewrite find_calls_app, sleeps_app, saves_app, gets_app, fmap_app,
      !length_app, F1, F2, S1, S2.
    repeat split. lia.
  - intros url w1. apply url_body_trace.
Qed.

Lemma row_body_trace row w :
  ∃ t, trace (world_after (row_body row) w) = trace w ++ t
    ∧ find_calls t = [(start row, end_ row)]
    ∧ sleeps t = (λ _, timeout_duration) <$> saves t
    ∧ length (saves t) ≤ length (gets t).
Proof.
  unfold world_after.
  destruct (row_body_cases row w)
    as [(e & _ & ->)|[(_ & ->)|[(url & urls & e & _ & _ & ->)
       |(url & urls & _ & _ & ->)]]].
  - eexists. split; [done|]. by repeat split.
  - eexists. split; [done|]. by repeat split.
  - eexists. split; [done|]. by repeat split.
  - match goal with
    | |- context [for_each _ _ ?w1] =>
        destruct (url_loop_trace row (url :: urls) w1) as (t & T & F & S & L)
    end.
    unfold world_after in T. cbn [trace] in T.
    exists ([FindUrls (start row) (end_ row); Makedirs (base_dir row)] ++ t).
    split; [by rewrite T, (assoc_L (++))|].
    rewrite find_calls_app, sleeps_app, saves_app, gets_app, F, S.
    repeat split. simpl. lia.
Qed.

Lemma row_body_dirs row w : dirs w ⊆ dirs (world_after (row_body row) w).
Proof. apply row_body_kept. Qed.

Lemma row_eq (row1 row2 : Row) :
  start row1 = start row2 → end_ row1 = end_ row2 → row1 = row2.
Proof. destruct row1, row2. simpl. by intros -> ->. Qed.

(** X9.  When the discovery service raises for a row, the service having
    answered for the rows before it and the directories of those with
    URLs being there to make, the run ends with that exception: it is
    not caught.  The rows before it have been processed, and the rows
    after it are never asked about. *)
Theorem discovery_failure_ends_batch rows1 row rows2 e w :
  (∀ row', row' ∈ rows1 →
     is_ok (find_urls ifo channel_name (start row') (end_ row') "osdf" host)
     = true) →
  (∀ row', row' ∈ rows1 → urls_of row' ≠ [] →
     is_ok (makedirs (base_dir row') true (dirs w) (regs w)) = true) →
  find_urls ifo channel_name (start row) (end_ row) "osdf" host = Raise e →
  let w' := world_after (main (rows1 ++ row :: rows2)) w in
  outcome (main (rows1 ++ row :: rows2)) w = Raise e
  ∧ find_calls (trace w')
    = find_calls (trace w) ++ ((λ r, (start r, end_ r)) <$> rows1)
        ++ [(start row, end_ row)]
  ∧ gets (trace w') = gets (trace w) ++ (rows1 ≫= urls_of).
Proof.
  intros Hok Hmk Hraise w'. subst w'.
  destruct (main_spec rows1 w Hok Hmk) as (w1 & Hrun1 & G1).
  assert (find_calls (trace w1)
          = find_calls (trace w) ++ ((λ r, (start r, end_ r)) <$> rows1)) as F1.
  { clear Hok Hmk G1. revert w w1 Hrun1.
    induction rows1 as [|r rows1 IH]; intros w w1 Hrun1.
    - unfold main in Hrun1. simpl in Hrun1. unfold ret in Hrun1.
      simplify_eq. symmetry. apply (right_id_L [] (++)).
    - unfold main in Hrun1. rewrite for_each_cons in Hrun1.
      destruct (row_body_trace r w) as (t & T & F & _).
      unfold world_after in T.
      destruct (row_body r w) as [w0 [[]|e0]]; [|done]. cbn [fst] in T.
      rewrite (IH w0 w1 Hrun1), T, find_calls_app, F, fmap_cons.
      by rewrite <-(assoc_L (++)). }
  unfold world_after, outcome, main in *.
  rewrite for_each_app. unfold bind. rewrite Hrun1, for_each_cons.
  rewrite (row_body_raise row e) by done. simpl.
  split; [done|]. split.
  - by rewrite find_calls_app, F1, <-(assoc_L (++)).
  - rewrite gets_app, G1. apply (right_id_L [] (++)).
Qed.

(** X10.  For a row with URLs the directory of the row is asked for
    before any download.  When it can be made, it exists after the pass
    whatever the downloads did, also when every one of them failed and
    no file was written, and the pass returns.  When it cannot (a
    regular file is in the way), the pass ends with the exception of
    [os.makedirs] before any download, and nothing has changed. *)
Theorem row_directory_made_first row url urls w :
  find_urls ifo channel_name (start row) (end_ row) "osdf" host
    = Ok (url :: urls) →
  let w' := world_after (row_body row) w in
  match makedirs (base_dir row) true (dirs w) (regs w) with
  | Ok _ =>
      outcome (row_body row) w = Ok tt
      ∧ dirs w' = made (base_dir row) (dirs w)
      ∧ base_dir row ∈ dirs w'
      ∧ ∃ t, trace w'
             = trace w ++ FindUrls (start row) (end_ row)
                 :: Makedirs (base_dir row) :: Print ("Downloading: " +:+ url)
                 :: Get url :: t
  | Raise e =>
      outcome (row_body row) w = Raise e
      ∧ dirs w' = dirs w ∧ files w' = files w
      ∧ trace w'
        = trace w ++ [FindUrls (start row) (end_ row); Makedirs (base_dir row)]
  end.
Proof.
  intros Hfind w'. subst w'. unfold world_after, outcome.
  destruct (makedirs (base_dir row) true (dirs w) (regs w)) as [d|e] eqn:Hmk.
  2: { by rewrite (row_body_mkdir_raise row url urls e). }
  rewrite (row_body_urls row url urls) by (by rewrite ?Hmk).
  rewrite for_each_cons.
  match goal with
  | |- context [url_body row url ?w1] =>
      destruct (url_body_spec row url w1) as (w2 & Hrun2 & D2 & _);
      assert (∃ t, trace w2 = trace w1 ++ Print ("Downloading: " +:+ url)
                                :: Get url :: t) as [t2 T2]
  end.
  { destruct (rp_get_content url) as [c|e] eqn:Hget.
    - match type of Hrun2 with
      | url_body _ _ ?w1 = _ =>
          destruct (create_error (filepath row) (dirs w1) (regs w1))
            as [e|] eqn:Hc
      end.
      + rewrite (url_body_save_raise row url c e) in Hrun2 by done.
        simplify_eq. by eexists.
      + rewrite (url_body_saved row url c) in Hrun2 by done.
        simplify_eq. by eexists.
    - rewrite (url_body_raise row url e) in Hrun2 by done.
      simplify_eq. by eexists. }
  rewrite Hrun2.
  destruct (url_loop_spec row urls w2) as (w3 & Hrun3 & D3 & _).
  destruct (url_loop_trace row urls w2) as (t3 & T3 & _).
  unfold world_after in T3. rewrite Hrun3 in *. cbn [fst snd] in *.
  rewrite D3, D2. cbn [dirs trace] in *.
  split; [done|]. split; [done|]. split; [apply made_elem|].
  exists (t2 ++ t3). rewrite T3, T2. by rewrite <-!(assoc_L (++)).
Qed.

(** X11.  However a run ends, it changes no file but the output files of
    its rows, and it removes no directory. *)
Theorem batch_touches_only_row_files rows w p :
  (∀ row, row ∈ rows → p ≠ filepath row) →
  let w' := world_after (main rows) w in
  files w' !! p = files w !! p ∧ dirs w ⊆ dirs w'.
Proof.
  intros Hp w'. subst w'. split.
  - revert w. induction rows as [|row rows IH]; intros w; [done|].
    unfold world_after, main in *. rewrite for_each_cons.
    pose proof (row_body_files_other row w p) as Hrow.
    unfold world_after in Hrow.
    destruct (row_body row w) as [w1 [[]|e]]; cbn [fst] in *.
    + rewrite IH; [|intros row' Hrow'; apply Hp; by right].
      apply Hrow, Hp. left.
    + apply Hrow, Hp. left.
  - apply (for_each_preserves (λ w w', dirs w ⊆ dirs w')).
    + done.
    + intros w1 w2 w3 ? ?. by etrans.
    + intros row w1. apply row_body_dirs.
Qed.

(** X12.  However a run ends, every file it saved was followed by one
    pause of two seconds and it paused at no other time; and it saved at
    most one file per download request. *)
Theorem one_pause_per_saved_file rows w :
  let w' := world_after (main rows) w in
  ∃ t, trace w' = trace w ++ t
       ∧ sleeps t = replicate (length (saves t)) 2%Z
       ∧ length (saves t) ≤ length (gets t).
Proof.
  intros w'. subst w'.
  pose proof (for_each_preserves
    (λ w w', ∃ t, trace w' = trace w ++ t
       ∧ sleeps t = (λ _, timeout_duration) <$> saves t
       ∧ length (saves t) ≤ length (gets t)) rows row_body w) as Hkeep.
  destruct Hkeep as (t & T & S & L).
  - intros w1. exists []. by rewrite (right_id_L [] (++)).
  - intros w1 w2 w3 (t1 & T1 & S1 & L1) (t2 & T2 & S2 & L2).
    exists (t1 ++ t2). split; [by rewrite T2, T1, (assoc_L (++))|].
    rewrite sleeps_app, saves_app, gets_app, fmap_app, !length_app, S1, S2.
    split; [done|lia].
  - intros row w1. destruct (row_body_trace row w1) as (t & T & _ & S & L).
    by exists t.
  - exists t. split; [done|]. split; [|done].
    rewrite S. clear. induction (saves t) as [|x l IH]; [done|].
    simpl. by rewrite <-IH.
Qed.

(** X13.  Two different rows never share a directory or an output
    file. *)
Theorem distinct_rows_distinct_paths row1 row2 :
  row1 ≠ row2 →
  base_dir row1 ≠ base_dir row2 ∧ filepath row1 ≠ filepath row2.
Proof.
  intros Hne. split; intros E; apply Hne.
  - unfold base_dir in E.
    apply (inj (String.app channel_name)) in E.
    apply (inj (String.app "/")) in E.
    apply tag_end_inj in E as [? ?]. by apply row_eq.
  - rewrite !filepath_sep in E. unfold base_dir in E.
    rewrite !str_app_assoc in E.
    apply (inj (String.app channel_name)) in E.
    apply (inj (String.app "/")) in E.
    apply (tag_inj "/") in E as [? ?]; [|done]. by apply row_eq.
Qed.
End Script.

(** *** On the sample collaborators *)

Import Sample MoreSamples.

Lemma discovery_failure_ends_batch_witness :
  @find_urls osdf_failing ifo channel_name (start row_30) (end_ row_30)
     "osdf" host = Raise (Exn "HTTPError" "503")
  ∧ let w0 := @Build_World osdf_failing ∅ ∅ [] in
    (∀ row', row' ∈ [row_10] → @urls_of osdf_failing row' ≠ [] →
       is_ok (makedirs (@base_dir row') true (@dirs osdf_failing w0)
                (@regs osdf_failing w0)) = true)
    ∧ outcome (@main osdf_failing [row_10; row_30; row_50]) w0
      = Raise (Exn "HTTPError" "503")
    ∧ find_calls (trace (world_after (@main osdf_failing
                                        [row_10; row_30; row_50]) w0))
      = [(10, 20); (30, 40)]%Z.
Proof.
  assert (∀ row', row' ∈ [row_10] →
            is_ok (@find_urls osdf_failing ifo channel_name (start row')
                     (end_ row') "osdf" host) = true) as Hok.
  { intros row' Hrow'. by apply list_elem_of_singleton in Hrow' as ->. }
  assert (∀ row', row' ∈ [row_10] → @urls_of osdf_failing row' ≠ [] →
            is_ok (makedirs (base_dir row') true
                     (@dirs osdf_failing (@Build_World osdf_failing ∅ ∅ []))
                     (@regs osdf_failing (@Build_World osdf_failing ∅ ∅ [])))
            = true) as Hmk.
  { intros row' Hrow' _. apply list_elem_of_singleton in Hrow' as ->.
    vm_compute. reflexivity. }
  destruct (@discovery_failure_ends_batch osdf_failing [row_10] row_30 [row_50]
              (Exn "HTTPError" "503") (@Build_World osdf_failing ∅ ∅ [])
              Hok Hmk eq_refl) as (Hout & Hfinds & _).
  split; [reflexivity|]. split; [exact Hmk|].
  split; [exact Hout|exact Hfinds].
Defined.

Lemma row_directory_made_first_witness :
  find_urls ifo channel_name (start row_10) (end_ row_10) "osdf" host
    = Ok ("osdf:///one" :: ["osdf:///bad"; "osdf:///two"])
  ∧ "H1_GWOSC_O3a_4KHZ_R1/10_20"
      ∈ dirs (world_after (row_body row_10) osdf_empty_world).
Proof.
  pose proof (row_directory_made_first row_10 "osdf:///one"
                ["osdf:///bad"; "osdf:///two"] osdf_empty_world eq_refl)
    as Hpass.
  destruct (makedirs (base_dir row_10) true (dirs osdf_empty_world)
              (regs osdf_empty_world)) as [d|e] eqn:Hmk;
    [|vm_compute in Hmk; discriminate Hmk].
  destruct Hpass as (_ & _ & Hin & _).
  split; [reflexivity|exact Hin].
Defined.

(** A regular file named as the channel directory is in the way: the
    pass ends with the exception of [os.makedirs], before any
    download. *)
Lemma row_directory_blocked :
  let w0 := {| dirs := ∅;
               files := {[ "H1_GWOSC_O3a_4KHZ_R1" := "not a directory" ]};
               trace := [] |} in
  outcome (row_body row_10) w0
  = Raise (NotADirectoryError "H1_GWOSC_O3a_4KHZ_R1/10_20")
  ∧ gets (trace (world_after (row_body row_10) w0)) = [].
Proof. vm_compute. by split. Qed.

Lemma batch_touches_only_row_files_witness :
  (∀ row, row ∈ [row_10; row_30] → "notes.txt" ≠ filepath row)
  ∧ files (world_after (main [row_10; row_30]) osdf_empty_world) !! "notes.txt"
    = None.
Proof.
  assert (∀ row, row ∈ [row_10; row_30] → "notes.txt" ≠ filepath row) as Hp.
  { intros row Hrow. apply elem_of_cons in Hrow as [->|Hrow]; [discriminate|].
    apply list_elem_of_singleton in Hrow as ->. discriminate. }
  destruct (batch_touches_only_row_files [row_10; row_30] osdf_empty_world
              "notes.txt" Hp) as [Hfiles _].
  split; [exact Hp|exact Hfiles].
Defined.

Lemma distinct_rows_distinct_paths_witness :
  row_10 ≠ row_30 ∧ filepath row_10 ≠ filepath row_30.
Proof.
  assert (row_10 ≠ row_30) as Hne by discriminate.
  destruct (distinct_rows_distinct_paths row_10 row_30 Hne) as [_ Hfile].
  split; [exact Hne|exact Hfile].
Defined.

End OsdfDemoRuns.


(** ** The tutorial script *)

Module TutoFacts.
Import Tuto.

Section Script.
Context `{Collaborators}.
Implicit Types (w : World) (events : list string) (gs : list Gps).

Lemma open_data_calls_app t1 t2 :
  open_data_calls (t1 ++ t2) = open_data_calls t1 ++ open_data_calls t2.
Proof. apply omap_app. Qed.

Lemma open_data_calls_event_gps events :
  open_data_calls (EventGps <$> events) = [].
Proof. induction events as [|x l IH]; [done|]. rewrite fmap_cons. exact IH. Qed.

Lemma for_each_with_cons {A S} (x : A) xs (body : S → A → M World S) acc w :
  for_each_with (x :: xs) body acc w
  = match body acc x w with
    | (w', Ok acc') => for_each_with xs body acc' w'
    | (w', Raise e) => (w', Raise e)
    end.
Proof. reflexivity. Qed.

Lemma fill_body_ok (l : list value) ct name g w :
  event_gps name = Ok g → ct < length l →
  fill_body (l, ct) name w
  = (log (EventGps name) w, Ok (<[ct := PyFloat g]> l, ct + 1)).
Proof.
  intros Hg Hct. unfold fill_body, bind, call_event_gps, setitem. simpl.
  by rewrite Hg, decide_True.
Qed.

Lemma fill_body_raise (l : list value) ct name e w :
  event_gps name = Raise e →
  fill_body (l, ct) name w = (log (EventGps name) w, Raise e).
Proof.
  intros Hg. unfold fill_body, bind, call_event_gps. simpl. by rewrite Hg.
Qed.

(** The loop from any pass on: the slots before [ct] are filled, the slots
    from [ct] on are at least as many as there are events left. *)
Lemma fill_loop events gs (filled rest : list value) w :
  Forall2 (λ name g, event_gps name = Ok g) events gs →
  length rest = length events →
  for_each_with events fill_body (filled ++ rest, length filled) w
  = ({| trace := trace w ++ (EventGps <$> events) |},
     Ok (filled ++ (PyFloat <$> gs), length filled + length events)).
Proof.
  intros Hgps. revert filled rest w.
  induction Hgps as [|name g events gs Hg _ IH]; intros filled rest w Hlen.
  - destruct rest; [|done]. destruct w. simpl. unfold ret.
    by rewrite !(right_id_L [] (++)), Nat.add_0_r.
  - destruct rest as [|z rest]; [done|]. simpl in Hlen.
    rewrite for_each_with_cons, (fill_body_ok _ _ _ g)
      by (done || rewrite length_app; simpl; lia).
    rewrite insert_app_r_alt, Nat.sub_diag by done. simpl.
    specialize (IH (filled ++ [PyFloat g]) rest (log (EventGps name) w)).
    rewrite <-(assoc_L (++)), length_app in IH. simpl in IH.
    rewrite IH by lia. f_equal.
    + f_equal. by rewrite <-(assoc_L (++)).
    + f_equal. f_equal; [by rewrite <-(assoc_L (++))|lia].
Qed.

Lemma fill_loop_raise events gs name e rest_events (filled rest : list value) w :
  Forall2 (λ name g, event_gps name = Ok g) events gs →
  event_gps name = Raise e →
  length rest = length events →
  ∀ tail,
  for_each_with (events ++ name :: rest_events) fill_body
    (filled ++ rest ++ tail, length filled) w
  = ({| trace := trace w ++ (EventGps <$> events) ++ [EventGps name] |}, Raise e).
Proof.
  intros Hgps Hraise. revert filled rest w.
  induction Hgps as [|name' g events gs Hg _ IH]; intros filled rest w Hlen tail.
  - simpl app. by rewrite for_each_with_cons, (fill_body_raise _ _ _ e).
  - destruct rest as [|z rest]; [done|]. simpl in Hlen.
    rewrite <-app_comm_cons, for_each_with_cons, (fill_body_ok _ _ _ g)
      by (done || rewrite !length_app; simpl; lia).
    rewrite insert_app_r_alt, Nat.sub_diag by done. simpl.
    specialize (IH (filled ++ [PyFloat g]) rest (log (EventGps name') w)).
    rewrite length_app in IH. simpl in IH.
    specialize (IH ltac:(lia) tail). rewrite <-(assoc_L (++)) in IH. simpl in IH.
    rewrite IH. by rewrite <-(assoc_L (++)).
Qed.

(** X14.  When [event_gps] returns for every event, the loop that fills
    [gpslist] never indexes out of range: it replaces every [0] the list
    was created with by the GPS time of the event at the same position,
    asks for each event once and in order, and leaves [ct] at the number
    of events. *)
Theorem fill_replaces_every_slot events gs w :
  Forall2 (λ name g, event_gps name = Ok g) events gs →
  fill events w
  = ({| trace := trace w ++ (EventGps <$> events) |},
     Ok (PyFloat <$> gs, length events)).
Proof.
  intros Hgps. unfold fill.
  apply (fill_loop events gs [] (replicate (length events) (PyInt 0)) w Hgps).
  apply length_replicate.
Qed.

(** X15.  When [event_gps] raises for an event, the script ends with that
    exception at that event: the later events are not asked about. *)
Theorem event_gps_failure_ends_fill events gs name e rest_events w :
  Forall2 (λ name g, event_gps name = Ok g) events gs →
  event_gps name = Raise e →
  fill (events ++ name :: rest_events) w
  = ({| trace := trace w ++ (EventGps <$> events) ++ [EventGps name] |}, Raise e).
Proof.
  intros Hgps Hraise. unfold fill.
  rewrite length_app, replicate_add.
  apply (fill_loop_raise events gs name e rest_events []
           (replicate (length events) (PyInt 0)) w Hgps Hraise).
  apply length_replicate.
Qed.

(** X16.  With five events or fewer in the catalog (and every call
    returning), the script ends with an [IndexError] at [gpslist[5]]: it
    has asked for the GPS time of every event, and fetches nothing. *)
Theorem fewer_than_six_events_index_error run events gs w :
  run_segment "O3a_16KHZ_R1" = Ok run →
  find_datasets "events" "GWTC-2.1-confident" run = Ok events →
  Forall2 (λ name g, event_gps name = Ok g) events gs →
  length events ≤ 5 →
  let w' := world_after main w in
  outcome main w = Raise (Exn "IndexError" "list index out of range")
  ∧ trace w'
    = trace w
        ++ [RunSegment "O3a_16KHZ_R1";
            FindDatasets "events" "GWTC-2.1-confident" run]
        ++ (EventGps <$> events)
  ∧ open_data_calls (trace w') = open_data_calls (trace w).
Proof.
  intros Hrun Hfind Hgps Hlen w'. subst w'.
  assert ((PyFloat <$> gs) !! 5 = None) as Hnone.
  { apply lookup_ge_None. rewrite length_fmap.
    apply Forall2_length in Hgps. lia. }
  unfold world_after, outcome, main, bind, call_run_segment, call_find_datasets.
  rewrite Hrun, Hfind, (fill_replaces_every_slot events gs) by done.
  unfold getitem. cbn [fst snd]. rewrite Hnone. simpl.
  split; [done|]. split.
  - by rewrite <-!(assoc_L (++)).
  - rewrite !open_data_calls_app.
    rewrite open_data_calls_event_gps.
    change (open_data_calls [RunSegment "O3a_16KHZ_R1"])
      with (@nil (string * Z * Z)).
    change (open_data_calls [FindDatasets "events" "GWTC-2.1-confident" run])
      with (@nil (string * Z * Z)).
    by rewrite !(right_id_L [] (++)).
Qed.

(** X17.  With six events or more (and every call before it returning),
    the script asks for open data of [H1] from five seconds before to
    five seconds after the integer part of the GPS time of the sixth
    event, ten seconds in all, after printing that segment; the data is
    printed and plotted when the fetch returns, and the script ends with
    the exception when it raises. *)
Theorem segment_around_sixth_event run events gs g w :
  run_segment "O3a_16KHZ_R1" = Ok run →
  find_datasets "events" "GWTC-2.1-confident" run = Ok events →
  Forall2 (λ name g, event_gps name = Ok g) events gs →
  gs !! 5 = Some g →
  let a := (int_gps g - 5)%Z in
  let b := (int_gps g + 5)%Z in
  let w' := world_after main w in
  (b - a = 10)%Z
  ∧ trace w'
    = trace w
        ++ [RunSegment "O3a_16KHZ_R1";
            FindDatasets "events" "GWTC-2.1-confident" run]
        ++ (EventGps <$> events)
        ++ [Print ("(" +:+ str_int a +:+ ", " +:+ str_int b +:+ ")");
            FetchOpenData "H1" a b]
        ++ match fetch_open_data "H1" a b with
           | Ok _ => [PrintData; Plot; Show]
           | Raise _ => []
           end
  ∧ outcome main w
    = match fetch_open_data "H1" a b with
      | Ok _ => Ok tt
      | Raise e => Raise e
      end.
Proof.
  intros Hrun Hfind Hgps Hg a b w'. subst w'.
  split; [unfold a, b; lia|].
  assert ((PyFloat <$> gs) !! 5 = Some (PyFloat g)) as Hsome
    by by rewrite list_lookup_fmap, Hg.
  unfold world_after, outcome, main, bind, call_run_segment, call_find_datasets.
  rewrite Hrun, Hfind, (fill_replaces_every_slot events gs) by done.
  unfold getitem. cbn [fst snd]. rewrite Hsome.
  unfold ret, print, effect, call_fetch_open_data, log, str_pair.
  cbn [fst snd trace int]. fold a b.
  destruct (fetch_open_data "H1" a b) as [hdata|e]; cbn [fst snd trace];
    by rewrite <-!(assoc_L (++)).
Qed.
End Script.

(** *** On the sample collaborators *)

Import MoreSamples.

Lemma fill_replaces_every_slot_witness :
  Forall2 (λ name g, event_gps name = Ok g)
    ["GW190421"; "GW190425"] [12390000005; 12402150331]%Z
  ∧ fill ["GW190421"; "GW190425"] tuto_empty_world
    = ({| trace := [EventGps "GW190421"; EventGps "GW190425"] |},
       Ok ([PyFloat 12390000005%Z; PyFloat 12402150331%Z], 2)).
Proof.
  assert (Forall2 (λ name g, event_gps name = Ok g)
            ["GW190421"; "GW190425"] [12390000005; 12402150331]%Z) as Hgps
    by (repeat constructor).
  split; [exact Hgps|].
  exact (fill_replaces_every_slot _ _ tuto_empty_world Hgps).
Defined.

Lemma event_gps_failure_ends_fill_witness :
  @event_gps tuto_failing "GW190412" = Raise (Exn "ValueError" "unknown")
  ∧ @fill tuto_failing ["GW190403"; "GW190412"; "GW190421"] tuto_empty_world
    = ({| trace := [EventGps "GW190403"; EventGps "GW190412"] |},
       Raise (Exn "ValueError" "unknown")).
Proof.
  assert (Forall2 (λ name g, @event_gps tuto_failing name = Ok g)
            ["GW190403"] [12390000005%Z]) as Hgps by (repeat constructor).
  split; [reflexivity|].
  exact (@event_gps_failure_ends_fill tuto_failing ["GW190403"] [12390000005%Z]
           "GW190412" (Exn "ValueError" "unknown") ["GW190421"]
           tuto_empty_world Hgps eq_refl).
Defined.

Lemma fewer_than_six_events_index_error_witness :
  length ["GW190403"; "GW190408"; "GW190412"] ≤ 5
  ∧ outcome (@main tuto_short) tuto_empty_world
    = Raise (Exn "IndexError" "list index out of range").
Proof.
  assert (Forall2 (λ name g, @event_gps tuto_short name = Ok g)
            ["GW190403"; "GW190408"; "GW190412"]
            [12390000005; 12390000005; 12390000005]%Z) as Hgps
    by (repeat constructor).
  assert (length ["GW190403"; "GW190408"; "GW190412"] ≤ 5) as Hlen
    by (simpl; lia).
  destruct (@fewer_than_six_events_index_error tuto_short
              (1238166018, 1253977218)%Z _ _ tuto_empty_world
              eq_refl eq_refl Hgps Hlen) as (Hout & _).
  split; [exact Hlen|exact Hout].
Defined.

Lemma segment_around_sixth_event_witness :
  ([12390000005; 12390000005; 12390000005; 12390000005; 12390000005;
    12402150331; 12390000005]%Z : list Gps) !! 5 = Some 12402150331%Z
  ∧ outcome main tuto_empty_world = Ok tt
  ∧ open_data_calls (trace (world_after main tuto_empty_world))
    = [("H1", 1240215028, 1240215038)%Z].
Proof.
  assert (Forall2 (λ name g, event_gps name = Ok g)
            ["GW190403"; "GW190408"; "GW190412"; "GW190413"; "GW190421";
             "GW190425"; "GW190426"]
            [12390000005; 12390000005; 12390000005; 12390000005; 12390000005;
             12402150331; 12390000005]%Z) as Hgps by (repeat constructor).
  destruct (@segment_around_sixth_event tuto_collab
              (1238166018, 1253977218)%Z _ _
              12402150331%Z tuto_empty_world eq_refl eq_refl Hgps eq_refl)
    as (_ & Htrace & Hout).
  split; [reflexivity|]. split; [exact Hout|].
  rewrite Htrace. reflexivity.
Defined.

End TutoFacts.
